(** * Verification of the bio-link detection pipeline

    A shallow embedding of [onlyfans_detector.py] (class [OnlyFansDetector])
    and the properties its specification states about it.

    Python strings are modelled as [string]: a character is a code point
    below 256, with Python's case mapping and white-space class on that
    range.  The HTTP client and the browser page are collaborators whose
    answers are not fixed by the program: they are the fields of a record
    of operations on an abstract world, and every operation may raise.
    The definitions come first, the lemmas and the claims after them. *)

From Stdlib Require Import String Ascii List Bool Arith Lia ZArith DecimalString.
From Stdlib Require Import RelationClasses.
Import ListNotations.
Open Scope string_scope.
Open Scope nat_scope.

(** ** Strings as Python uses them *)

Module Str.

Definition code (c : ascii) : nat := nat_of_ascii c.

Definition in_range (lo hi : nat) (c : ascii) : bool :=
  (lo <=? code c) && (code c <=? hi).

(** [str.lower()] on one code point below 256: A-Z and the Latin-1
    capitals (all of 0xC0-0xDE but the multiplication sign 0xD7). *)
Definition is_upper (c : ascii) : bool :=
  in_range 65 90 c || (in_range 192 222 c && negb (code c =? 215)).

Definition lower_char (c : ascii) : ascii :=
  if is_upper c then ascii_of_nat (code c + 32) else c.

Fixpoint lower (s : string) : string :=
  match s with
  | EmptyString => EmptyString
  | String c s' => String (lower_char c) (lower s')
  end.

(** [\s] of the [re] module for str patterns, below 256. *)
Definition isspace (c : ascii) : bool :=
  in_range 9 13 c || in_range 28 32 c || (code c =? 133) || (code c =? 160).

(** [s.startswith(p)] *)
Fixpoint startswith (s p : string) : bool :=
  match p, s with
  | EmptyString, _ => true
  | String a p', String b s' => Ascii.eqb a b && startswith s' p'
  | String _ _, EmptyString => false
  end.

(** [needle in hay] *)
Fixpoint contains (needle hay : string) : bool :=
  startswith hay needle ||
  match hay with
  | EmptyString => false
  | String _ hay' => contains needle hay'
  end.

(** [s[:n]] *)
Fixpoint take (n : nat) (s : string) : string :=
  match n, s with
  | S n', String c s' => String c (take n' s')
  | _, _ => EmptyString
  end.

(** Every character of [s] satisfies [p]. *)
Fixpoint all (p : ascii -> bool) (s : string) : bool :=
  match s with
  | EmptyString => true
  | String c s' => p c && all p s'
  end.

(** Truthiness of a str: non-empty. *)
Definition truthy (s : string) : bool :=
  match s with EmptyString => false | _ => true end.

End Str.

(** ** The fragment of [re] the detector uses

    A backtracking matcher in continuation-passing style: alternatives are
    tried in the order [re] tries them (greedy repetition takes the longest
    run first and gives characters back one at a time). *)

Module Re.

Inductive regex : Type :=
| Lit (c : ascii)                 (* a literal character *)
| Cls (p : ascii -> bool)         (* a character set *)
| Star (p : ascii -> bool)        (* set*, greedy *)
| Plus (p : ascii -> bool)        (* set+, greedy *)
| Opt (r : regex)                 (* r?, greedy *)
| Seq (r1 r2 : regex)
| Group (r : regex).              (* a capturing group *)

Definition lit_eq (ic : bool) (c x : ascii) : bool :=
  if ic then Ascii.eqb (Str.lower_char c) (Str.lower_char x)
  else Ascii.eqb c x.

Section Matcher.
Context {R : Type}.
Variable ic : bool.             (* re.IGNORECASE *)

(** Greedy run of characters of a set, longest first. *)
Fixpoint star (p : ascii -> bool) (s : string) (cap : option string)
         (k : option string -> string -> option R) : option R :=
  match s with
  | String c s' =>
      if p c then
        match star p s' cap k with
        | Some r => Some r
        | None => k cap s
        end
      else k cap s
  | EmptyString => k cap s
  end.

Fixpoint rmatch (r : regex) (s : string) (cap : option string)
         (k : option string -> string -> option R) : option R :=
  match r with
  | Lit c =>
      match s with
      | String x s' => if lit_eq ic c x then k cap s' else None
      | EmptyString => None
      end
  | Cls p =>
      match s with
      | String x s' => if p x then k cap s' else None
      | EmptyString => None
      end
  | Star p => star p s cap k
  | Plus p =>
      match s with
      | String x s' => if p x then star p s' cap k else None
      | EmptyString => None
      end
  | Opt r1 =>
      match rmatch r1 s cap k with
      | Some res => Some res
      | None => k cap s
      end
  | Seq r1 r2 => rmatch r1 s cap (fun cap' rest => rmatch r2 rest cap' k)
  | Group r1 =>
      rmatch r1 s cap
        (fun _ rest => k (Some (Str.take (String.length s - String.length rest) s)) rest)
  end.
End Matcher.

(** A match anchored at the start of [s]: its length and its group. *)
Definition match_here (ic : bool) (r : regex) (s : string)
  : option (nat * option string) :=
  rmatch ic r s None (fun cap rest => Some (String.length s - String.length rest, cap)).

(** What [findall] reports for one match: the group when the pattern has
    one, the whole match otherwise. *)
Definition item (s : string) (m : nat * option string) : string :=
  match snd m with
  | Some g => g
  | None => Str.take (fst m) s
  end.

(** [re.findall]: non-overlapping matches, leftmost first.  [skip] counts
    the characters still covered by the previous match. *)
Fixpoint findall_from (ic : bool) (r : regex) (s : string) (skip : nat)
  : list string :=
  match s with
  | EmptyString =>
      match skip, match_here ic r s with
      | O, Some m => [item s m]
      | _, _ => []
      end
  | String _ s' =>
      match skip with
      | S n => findall_from ic r s' n
      | O =>
          match match_here ic r s with
          | Some m => item s m :: findall_from ic r s' (fst m - 1)
          | None => findall_from ic r s' 0
          end
      end
  end.

Definition findall (ic : bool) (r : regex) (s : string) : list string :=
  findall_from ic r s 0.

(** [pattern.search(s)] as a truth value. *)
Fixpoint search (ic : bool) (r : regex) (s : string) : bool :=
  match match_here ic r s with
  | Some _ => true
  | None =>
      match s with
      | EmptyString => false
      | String _ s' => search ic r s'
      end
  end.

Fixpoint lits (s : string) : regex -> regex :=
  match s with
  | EmptyString => fun k => k
  | String c s' => fun k => Seq (Lit c) (lits s' k)
  end.

End Re.

(** ** Patterns and predicates of the detector *)

Definition dquote : ascii := ascii_of_nat 34.
Definition squote : ascii := ascii_of_nat 39.

(** The sets of the two quote characters and of every other character. *)
Definition quote_char (c : ascii) : bool :=
  Ascii.eqb c dquote || Ascii.eqb c squote.
Definition not_quote (c : ascii) : bool := negb (quote_char c).

(** The set of the URL pattern: not white space, not an angle bracket,
    not a quote. *)
Definition url_char (c : ascii) : bool :=
  negb (Str.isspace c || Ascii.eqb c "<" || Ascii.eqb c ">" || quote_char c).

(** The URL pattern of [_check_direct_links] and [_extract_all_links]:
    http, an optional s, ://, a run of [url_char], onlyfans.com (the dot
    is escaped), a run of [url_char]. *)
Definition URL_RE : Re.regex :=
  Re.lits "http"
    (Re.Seq (Re.Opt (Re.Lit "s"))
       (Re.lits "://"
          (Re.Seq (Re.Star url_char)
             (Re.lits "onlyfans.com" (Re.Star url_char))))).

(** [OF_REGEX]: onlyfans.com with the dot escaped, compiled with
    [re.IGNORECASE]. *)
Definition OF_REGEX : Re.regex :=
  Re.lits "onlyfans.co" (Re.Lit "m").

(** The attribute patterns of [_check_redirect_chains]: the name and =, a
    quote, a group of one or more non-quote characters, a quote. *)
Definition attr_re (name : string) : Re.regex :=
  Re.lits name
    (Re.Seq (Re.Cls quote_char)
       (Re.Seq (Re.Group (Re.Plus not_quote)) (Re.Cls quote_char))).
Definition HREF_RE : Re.regex := attr_re "href=".
Definition DATA_URL_RE : Re.regex := attr_re "data-url=".

(** The two exclusion tests as the source writes them. *)
Definition has_files (u : string) : bool := Str.contains "/files" u.
Definition has_public (u : string) : bool := Str.contains "/public" u.

Definition excluded (u : string) : bool := has_files u || has_public u.

(** The arrow of the redirect debug note, as its three UTF-8 bytes. *)
Definition arrow : string :=
  String (ascii_of_nat 226) (String (ascii_of_nat 134)
    (String (ascii_of_nat 146) EmptyString)).

(** [str(n)] for a length. *)
Definition str_of_nat (n : nat) : string :=
  NilEmpty.string_of_uint (Nat.to_uint n).

(** ** Results, collaborators and the state of one detector *)

(** [str(e)] of a raised [Exception]. *)
Definition exn : Type := string.

Inductive outcome (A : Type) : Type :=
| Ret (a : A)
| Raise (e : exn).
Arguments Ret {A} a.
Arguments Raise {A} e.

(** The dict [self.results]. *)
Record Results : Type := mkResults {
  has_onlyfans : bool;
  onlyfans_urls : list string;
  detection_method : option string;
  errors : list string;
  debug_info : list string
}.

Definition fresh_results : Results :=
  mkResults false [] None [] [].

(** A response event seen by the page listener: its status and
    [response.headers.get('location', '')]. *)
Record response : Type := mkResponse {
  status : Z;
  location : string
}.

(** The collaborators over a world [W].  An HTTP or set-up operation maps a
    world to an outcome and a world; an operation performed while the
    response listener is registered also yields the responses that reached
    the listener during it. *)
Definition op (W A : Type) : Type := W -> outcome A * W.
Definition page_op (W A : Type) : Type := W -> outcome A * list response * W.

Record collaborators (W : Type) : Type := mkCollaborators {
  (* httpx.AsyncClient *)
  client_enter : op W unit;
  client_exit : op W unit;
  (* url, timeout: status_code and text *)
  client_get : string -> Z -> op W (Z * string);
  (* url, timeout, follow_redirects=False: status_code and
     headers.get('location') *)
  client_head : string -> Z -> op W (Z * option string);
  (* playwright *)
  playwright_enter : op W unit;
  playwright_exit : op W unit;
  launch : bool -> op W unit;
  new_context : op W unit;
  new_page : op W unit;
  page_goto : string -> Z -> page_op W unit;
  page_wait : Z -> page_op W unit;
  loc_count : string -> page_op W nat;
  loc_click : string -> bool -> page_op W unit;
  loc_get_attribute : string -> nat -> string -> page_op W (option string);
  page_content : page_op W string;
  page_url : W -> string;
  browser_close : page_op W unit;
  (* urllib.parse: urljoin(base, url) and urlparse(url).netloc *)
  urljoin : string -> string -> outcome string;
  netloc : string -> outcome string
}.

Arguments client_enter {W}.
Arguments client_exit {W}.
Arguments client_get {W}.
Arguments client_head {W}.
Arguments playwright_enter {W}.
Arguments playwright_exit {W}.
Arguments launch {W}.
Arguments new_context {W}.
Arguments new_page {W}.
Arguments page_goto {W}.
Arguments page_wait {W}.
Arguments loc_count {W}.
Arguments loc_click {W}.
Arguments loc_get_attribute {W}.
Arguments page_content {W}.
Arguments page_url {W}.
Arguments browser_close {W}.
Arguments urljoin {W}.
Arguments netloc {W}.

(** The state one call works on: [self.results]; the list
    [onlyfans_redirects] of [_check_interactive_page] and whether
    the value of [onlyfans_urls] in [self.results] is that very list object; the list
    [links] of [_extract_all_links]; the world of the collaborators. *)
Record state (W : Type) : Type := mkState {
  results : Results;
  onlyfans_redirects : list string;
  aliased : bool;
  links : list string;
  world : W
}.
Arguments mkState {W}.
Arguments results {W}.
Arguments onlyfans_redirects {W}.
Arguments aliased {W}.
Arguments links {W}.
Arguments world {W}.

(** The platform click strategies and the dispatch table of
    [_try_interactive_clicks]. *)
Inductive strategy : Type := LinkMe | Linktree | Generic | NoStrategy.

Definition select_strategy (domain : string) : strategy :=
  if Str.contains "link.me" domain then LinkMe
  else if Str.contains "linktr.ee" domain then Linktree
  else if Str.contains "beacons.ai" domain
          || Str.contains "getmysocial.com" domain then Generic
  else NoStrategy.

(** [handle_response]: the test a response passes to be recorded. *)
Definition is_of_redirect (r : response) : bool :=
  (300 <=? status r)%Z && (status r <? 400)%Z
  && Str.contains "onlyfans.com" (Str.lower (location r))
  && negb (has_files (location r)).

(** The test of the click strategies on an href or on the current URL. *)
Definition click_target (u : string) : bool :=
  Str.contains "onlyfans.com" (Str.lower u) && negb (has_files u).

(** The test of the link extraction and of the redirect probe. *)
Definition of_link (u : string) : bool :=
  Re.search true OF_REGEX u && negb (has_files u) && negb (has_public u).

Definition is_redirect_status (s : Z) : bool :=
  existsb (Z.eqb s) [301; 302; 303; 307; 308]%Z.

(** ** The monad of the detector: state and exceptions *)

Definition M (W A : Type) : Type := state W -> outcome A * state W.

Definition ret {W A} (a : A) : M W A := fun st => (Ret a, st).

Definition bind {W A B} (m : M W A) (f : A -> M W B) : M W B :=
  fun st =>
    match m st with
    | (Ret a, st') => f a st'
    | (Raise e, st') => (Raise e, st')
    end.

Notation "x <- m ;; k" := (bind m (fun x => k))
  (at level 61, m at next level, right associativity).
Notation "m ;;; k" := (bind m (fun _ => k))
  (at level 61, right associativity).

(** [try: body / except Exception as e: handler e] *)
Definition try_except {W A} (body : M W A) (handler : exn -> M W A) : M W A :=
  fun st =>
    match body st with
    | (Ret a, st') => (Ret a, st')
    | (Raise e, st') => handler e st'
    end.

(** [try: body / finally: fin]: [fin] runs on every exit of [body], and an
    exception of [fin] replaces the outcome of [body]. *)
Definition try_finally {W A} (body : M W A) (fin : M W unit) : M W A :=
  fun st =>
    match body st with
    | (r, st') =>
        match fin st' with
        | (Ret _, st'') => (r, st'')
        | (Raise e, st'') => (Raise e, st'')
        end
    end.

(** [async with cm: body]: the body runs once the manager is entered, and
    the manager is left on every exit of the body. *)
Definition async_with {W A} (enter leave : M W unit) (body : M W A) : M W A :=
  enter ;;; try_finally body leave.

(** A [for] loop whose body may leave it: the body answers [true] when it
    leaves the loop ([return True] or [break]) and the loop answers whether
    it was left. *)
Fixpoint for_each {W A} (l : list A) (body : A -> M W bool) : M W bool :=
  match l with
  | [] => ret false
  | x :: l' => b <- body x ;; if b then ret true else for_each l' body
  end.

(** State accessors. *)
Definition set_results {W} (r : Results) (st : state W) : state W :=
  mkState r (onlyfans_redirects st) (aliased st) (links st) (world st).

Definition add_error {W} (msg : string) : M W unit :=
  fun st =>
    let r := results st in
    (Ret tt,
     set_results (mkResults (has_onlyfans r) (onlyfans_urls r)
                    (detection_method r) (errors r ++ [msg]) (debug_info r)) st).

Definition add_debug {W} (msg : string) : M W unit :=
  fun st =>
    let r := results st in
    (Ret tt,
     set_results (mkResults (has_onlyfans r) (onlyfans_urls r)
                    (detection_method r) (errors r) (debug_info r ++ [msg])) st).

(** The three assignments every successful strategy makes:
    [has_onlyfans = True], [onlyfans_urls = urls], [detection_method]. *)
Definition set_found {W} (urls : list string) (method : string) : M W unit :=
  fun st =>
    let r := results st in
    (Ret tt,
     mkState (mkResults true urls (Some method) (errors r) (debug_info r))
       (onlyfans_redirects st) false (links st) (world st)).

(** The same with the list object [onlyfans_redirects] itself as the
    value of [onlyfans_urls]. *)
Definition set_found_redirects {W} (method : string) : M W unit :=
  fun st =>
    let r := results st in
    (Ret tt,
     mkState (mkResults true (onlyfans_redirects st) (Some method)
                (errors r) (debug_info r))
       (onlyfans_redirects st) true (links st) (world st)).

(** [onlyfans_redirects = []]: the name is bound to a new list. *)
Definition new_redirects {W} : M W unit :=
  fun st => (Ret tt, mkState (results st) [] false (links st) (world st)).

Definition get_redirects {W} : M W (list string) :=
  fun st => (Ret (onlyfans_redirects st), st).

Definition new_links {W} : M W unit :=
  fun st =>
    (Ret tt,
     mkState (results st) (onlyfans_redirects st) (aliased st) [] (world st)).

Definition append_links {W} (l : list string) : M W unit :=
  fun st =>
    (Ret tt,
     mkState (results st) (onlyfans_redirects st) (aliased st)
       (links st ++ l) (world st)).

Definition get_links {W} : M W (list string) :=
  fun st => (Ret (links st), st).

(** [handle_response] on the responses of one operation: each response
    that passes the test is appended to [onlyfans_redirects], hence also
    to [onlyfans_urls] when that is the same list. *)
Definition deliver {W} (evs : list response) (st : state W) : state W :=
  let new := map location (filter is_of_redirect evs) in
  let r := results st in
  mkState
    (if aliased st
     then mkResults (has_onlyfans r) (onlyfans_urls r ++ new)
            (detection_method r) (errors r) (debug_info r)
     else r)
    (onlyfans_redirects st ++ new) (aliased st) (links st) (world st).

Definition set_world {W} (w : W) (st : state W) : state W :=
  mkState (results st) (onlyfans_redirects st) (aliased st) (links st) w.

(** Lifting the collaborators. *)
Definition call {W A} (o : op W A) : M W A :=
  fun st => let (r, w) := o (world st) in (r, set_world w st).

Definition page_call {W A} (o : page_op W A) : M W A :=
  fun st =>
    match o (world st) with
    | (r, evs, w) => (r, deliver evs (set_world w st))
    end.

Definition pure_call {W A} (o : outcome A) : M W A := fun st => (o, st).

Definition read_url {W} (C : collaborators W) : M W string :=
  fun st => (Ret (page_url C (world st)), st).

(** [list(set(l))]: the elements of [l] without repetition (Python fixes
    no order for them). *)
Definition list_set (l : list string) : list string :=
  nodup string_dec l.

(** Truthiness of an optional str ([None] and the empty str are false). *)
Definition truthy_opt (o : option string) : bool :=
  match o with
  | Some s => Str.truthy s
  | None => false
  end.

Definition nonempty {A} (l : list A) : bool :=
  match l with [] => false | _ => true end.

(** ** The detector *)

(** The default of the parameter [max_redirects]. *)
Definition default_max_redirects : nat := 5.

Section Detector.
Context {W : Type}.
Variable C : collaborators W.
(** [self.headless] *)
Variable headless : bool.

(** [async with httpx.AsyncClient() as client] *)
Definition with_client {A} (body : M W A) : M W A :=
  async_with (call (client_enter C)) (call (client_exit C)) body.

(** *** [_follow_redirects] *)

(** One turn of the loop: the next [current], or [None] on [break]. *)
Definition follow_step (current : string) : M W (option string) :=
  try_except
    (resp <- call (client_head C current 10) ;;
     if is_redirect_status (fst resp) then
       if truthy_opt (snd resp) then
         let loc := match snd resp with Some l => l | None => EmptyString end in
         if Str.startswith loc "/" then
           u <- pure_call (urljoin C current loc) ;; ret (Some u)
         else ret (Some loc)
       else ret None
     else ret None)
    (fun _ => ret None).

Fixpoint follow_loop (n : nat) (current : string) (chain : list string)
  : M W (string * list string) :=
  match n with
  | O => ret (current, chain)
  | S n' =>
      next <- follow_step current ;;
      match next with
      | Some u => follow_loop n' u (chain ++ [u])
      | None => ret (current, chain)
      end
  end.

Definition _follow_redirects (url : string) (max_redirects : nat)
  : M W (string * list string) :=
  follow_loop max_redirects url [url].

(** *** [_check_direct_links] *)

Definition _check_direct_links (bio_link : string) : M W bool :=
  try_except
    (with_client
       (response <- call (client_get C bio_link 15) ;;
        if (fst response =? 200)%Z then
          let content := Str.lower (snd response) in
          let of_urls := Re.findall true URL_RE content in
          if nonempty of_urls then
            let valid_urls :=
              filter (fun url => negb (has_files url) && negb (has_public url))
                of_urls in
            if nonempty valid_urls then
              set_found valid_urls "direct_html_scan" ;;;
              add_debug ("Found " ++ str_of_nat (List.length valid_urls)
                         ++ " direct OnlyFans links") ;;;
              ret true
            else ret false
          else ret false
        else ret false))
    (fun e => add_error ("Direct link check failed: " ++ e) ;;; ret false).

(** *** [_extract_all_links] *)

Definition anchor_step (base_url : string) (i : nat) : M W bool :=
  try_except
    (href <- page_call (loc_get_attribute C "a[href]" i "href") ;;
     (if truthy_opt href then
        let h := match href with Some h => h | None => EmptyString end in
        if Str.startswith h "/" then
          full_url <- pure_call (urljoin C base_url h) ;;
          append_links [full_url]
        else if Str.startswith h "http" then append_links [h]
        else ret tt
      else ret tt) ;;;
     ret false)
    (fun _ => ret false).

Definition anchor_pass (base_url : string) : M W unit :=
  count <- page_call (loc_count C "a[href]") ;;
  for_each (seq 0 (Nat.min count 100)) (anchor_step base_url) ;;;
  ret tt.

Definition data_attrs : list string :=
  ["data-url"; "data-href"; "data-link"; "data-target"].

Definition data_step (base_url attr : string) (i : nat) : M W bool :=
  try_except
    (value <- page_call (loc_get_attribute C ("[" ++ attr ++ "]") i attr) ;;
     (if truthy_opt value then
        let v := match value with Some v => v | None => EmptyString end in
        if Str.contains "http" v || Str.contains "/" v then
          if Str.startswith v "http" then append_links [v]
          else if Str.startswith v "/" then
            u <- pure_call (urljoin C base_url v) ;; append_links [u]
          else ret tt
        else ret tt
      else ret tt) ;;;
     ret false)
    (fun _ => ret false).

Definition data_pass (base_url : string) : M W unit :=
  for_each data_attrs
    (fun attr =>
       count <- page_call (loc_count C ("[" ++ attr ++ "]")) ;;
       for_each (seq 0 (Nat.min count 50)) (data_step base_url attr)) ;;;
  ret tt.

Definition content_pass : M W unit :=
  try_except
    (page_text <- page_call (page_content C) ;;
     append_links (Re.findall true URL_RE page_text))
    (fun _ => ret tt).

Definition _extract_all_links (base_url : string) : M W (list string) :=
  new_links ;;;
  try_except
    (anchor_pass base_url ;;; data_pass base_url ;;; content_pass)
    (fun e => add_error ("Link extraction failed: " ++ e)) ;;;
  l <- get_links ;;
  ret (list_set l).

(** *** The platform click strategies *)

Definition continue_selectors : list string :=
  ["button:has-text('Continue')"; "button:has-text('CONTINUE')";
   "button:has-text('Proceed')"; "button:has-text('Enter')"].

Definition linkme_step (selector : string) : M W bool :=
  try_except
    (n <- page_call (loc_count C selector) ;;
     if 0 <? n then
       page_call (loc_click C selector false) ;;;
       page_call (page_wait C 5000) ;;;
       current_url <- read_url C ;;
       if click_target current_url then
         set_found [current_url] "linkme_interactive" ;;;
         add_debug "Successfully clicked through Link.me OnlyFans flow" ;;;
         ret true
       else ret false
     else ret false)
    (fun _ => ret false).

Definition linkme_container : string :=
  ".singlealbum.singlebigitem.socialmedialink:has-text('OnlyFans')".

Definition _handle_linkme_clicks : M W bool :=
  try_except
    (n <- page_call (loc_count C linkme_container) ;;
     if 0 <? n then
       page_call (loc_click C linkme_container true) ;;;
       page_call (page_wait C 3000) ;;;
       for_each continue_selectors linkme_step
     else ret false)
    (fun e => add_error ("Link.me clicks failed: " ++ e) ;;; ret false).

(** The body shared by the Linktree and the generic loop: the href of
    element [i] of [selector] is tested and reported. *)
Definition href_step (selector method note : string) (i : nat) : M W bool :=
  try_except
    (href <- page_call (loc_get_attribute C selector i "href") ;;
     let h := match href with Some h => h | None => EmptyString end in
     if truthy_opt href && click_target h then
       set_found [h] method ;;; add_debug note ;;; ret true
     else ret false)
    (fun _ => ret false).

Definition _handle_linktree_clicks : M W bool :=
  try_except
    (count <- page_call (loc_count C "[data-testid*='LinkButton']") ;;
     for_each (seq 0 (Nat.min count 10))
       (href_step "[data-testid*='LinkButton']" "linktree_direct"
          "Found OnlyFans link in Linktree"))
    (fun e => add_error ("Linktree clicks failed: " ++ e) ;;; ret false).

Definition button_selectors : list string :=
  [".link-button"; ".social-link"; ".external-link";
   "[class*='button']"; "[class*='link']"; "[class*='social']"].

Definition _handle_generic_clicks : M W bool :=
  try_except
    (for_each button_selectors
       (fun selector =>
          count <- page_call (loc_count C selector) ;;
          for_each (seq 0 (Nat.min count 20))
            (href_step selector "generic_platform"
               "Found OnlyFans link in generic platform")))
    (fun e => add_error ("Generic clicks failed: " ++ e) ;;; ret false).

Definition run_strategy (s : strategy) : M W bool :=
  match s with
  | LinkMe => _handle_linkme_clicks
  | Linktree => _handle_linktree_clicks
  | Generic => _handle_generic_clicks
  | NoStrategy => ret false
  end.

Definition _try_interactive_clicks (base_url : string) : M W bool :=
  try_except
    (domain <- pure_call (netloc C base_url) ;;
     run_strategy (select_strategy (Str.lower domain)))
    (fun e => add_error ("Interactive clicks failed: " ++ e) ;;; ret false).

(** *** [_check_interactive_page] *)

Definition accept_selectors : list string :=
  ["button:has-text('Accept All')"; "button:has-text('Accept')";
   "button:has-text('OK')"; "button:has-text('Got it')"].

Definition accept_cookies : M W unit :=
  try_except
    (for_each accept_selectors
       (fun selector =>
          n <- page_call (loc_count C selector) ;;
          if 0 <? n then
            page_call (loc_click C selector false) ;;;
            page_call (page_wait C 2000) ;;;
            ret true
          else ret false) ;;;
     ret tt)
    (fun _ => ret tt).

(** The inner [try] block, from [page.goto] on; [true] is [return True]. *)
Definition interactive_body (bio_link : string) : M W bool :=
  page_call (page_goto C bio_link 30000) ;;;
  page_call (page_wait C 3000) ;;;
  accept_cookies ;;;
  all_links <- _extract_all_links bio_link ;;
  let of_links := filter of_link all_links in
  if nonempty of_links then
    set_found of_links "interactive_link_extraction" ;;;
    add_debug ("Found " ++ str_of_nat (List.length of_links)
               ++ " OnlyFans links via interactive extraction") ;;;
    page_call (browser_close C) ;;;
    ret true
  else
    clicked <- _try_interactive_clicks bio_link ;;
    if clicked then
      page_call (browser_close C) ;;; ret true
    else
      captured <- get_redirects ;;
      if nonempty captured then
        set_found_redirects "redirect_capture" ;;;
        add_debug ("Captured " ++ str_of_nat (List.length captured)
                   ++ " OnlyFans redirects") ;;;
        page_call (browser_close C) ;;;
        ret true
      else ret false.

Definition _check_interactive_page (bio_link : string) : M W bool :=
  try_except
    (async_with (call (playwright_enter C)) (call (playwright_exit C))
       (call (launch C headless) ;;;
        call (new_context C) ;;;
        call (new_page C) ;;;
        new_redirects ;;;
        try_finally
          (try_except (interactive_body bio_link)
             (fun e =>
                add_error ("Interactive page check failed: " ++ e) ;;;
                ret false))
          (page_call (browser_close C))))
    (fun e => add_error ("Playwright setup failed: " ++ e) ;;; ret false).

(** *** [_check_redirect_chains] *)

Definition probe_link (bio_link link : string) : M W bool :=
  if negb (Str.truthy link) || Str.startswith link "#"
     || Str.startswith link "mailto:"
  then ret false
  else
    try_except
      (link' <- (if Str.startswith link "/"
                 then pure_call (urljoin C bio_link link)
                 else ret link) ;;
       r <- _follow_redirects link' default_max_redirects ;;
       let final_url := fst r in
       if of_link final_url then
         set_found [final_url] "redirect_chain" ;;;
         add_debug ("Found OnlyFans via redirect: " ++ link' ++ " "
                    ++ arrow ++ " " ++ final_url) ;;;
         ret true
       else ret false)
      (fun _ => ret false).

Definition _check_redirect_chains (bio_link : string) : M W bool :=
  try_except
    (with_client
       (response <- call (client_get C bio_link 15) ;;
        if (fst response =? 200)%Z then
          let content := snd response in
          let all_links :=
            (Re.findall false HREF_RE content
             ++ Re.findall false DATA_URL_RE content)%list in
          for_each (firstn 20 all_links) (probe_link bio_link)
        else ret false))
    (fun e => add_error ("Redirect chain check failed: " ++ e) ;;; ret false).

(** *** [detect_onlyfans] *)

(** [self.results = {...}]: a new dict with new lists. *)
Definition reset_results : M W unit :=
  fun st =>
    (Ret tt,
     mkState fresh_results (onlyfans_redirects st) false (links st) (world st)).

Definition get_results : M W Results :=
  fun st => (Ret (results st), st).

(** The three strategies in order; each [return self.results] inside the
    [try] leaves it at once. *)
Definition strategies (bio_link : string) : M W unit :=
  direct <- _check_direct_links bio_link ;;
  if direct then ret tt
  else
    interactive <- _check_interactive_page bio_link ;;
    if interactive then ret tt
    else
      _check_redirect_chains bio_link ;;; ret tt.

Definition detect_onlyfans (bio_link : string) : M W Results :=
  reset_results ;;;
  try_except (strategies bio_link)
    (fun e => add_error ("Detection failed: " ++ e)) ;;;
  get_results.

(** [OnlyFansDetector(headless)]: a detector with fresh results and no
    local list yet. *)
Definition new_detector (w : W) : state W :=
  mkState fresh_results [] false [] w.

(** The module-level [detect_onlyfans_in_bio_link]. *)
Definition detect_onlyfans_in_bio_link (bio_link : string)
  : W -> outcome Results * state W :=
  fun w => detect_onlyfans bio_link (new_detector w).

End Detector.

(** ** A reference instance of the two [urllib.parse] functions

    The theorems below hold for every [urljoin] and [netloc]; the worked
    examples use this instance, which agrees with the library on URLs of
    the form scheme://host/path and on references without dot segments. *)

Module Lib.

Definition is_delim (c : ascii) : bool :=
  Ascii.eqb c "/" || Ascii.eqb c "?" || Ascii.eqb c "#".

(** The longest prefix without a character of [p], and the rest. *)
Fixpoint span_until (p : ascii -> bool) (s : string) : string * string :=
  match s with
  | EmptyString => (EmptyString, EmptyString)
  | String c s' =>
      if p c then (EmptyString, s)
      else let (a, b) := span_until p s' in (String c a, b)
  end.

(** scheme, host and the rest of a URL written scheme://host... *)
Definition split_url (u : string) : option (string * string * string) :=
  match String.index 0 "://" u with
  | Some i =>
      let after := String.substring (i + 3) (String.length u - (i + 3)) u in
      let (host, rest) := span_until is_delim after in
      Some (String.substring 0 i u, host, rest)
  | None => None
  end.

Definition netloc (u : string) : outcome string :=
  match split_url u with
  | Some (_, host, _) => Ret host
  | None => Ret EmptyString
  end.

(** The path up to and with its last slash. *)
Fixpoint dir_of (path : string) : string :=
  match path with
  | EmptyString => EmptyString
  | String c p' =>
      if Str.contains "/" p' then String c (dir_of p')
      else if Ascii.eqb c "/" then "/" else EmptyString
  end.

Definition urljoin (base url : string) : outcome string :=
  if negb (Str.truthy url) then Ret base
  else if Str.contains "://" url then Ret url
  else
    match split_url base with
    | Some (scheme, host, rest) =>
        if Str.startswith url "//" then Ret (scheme ++ ":" ++ url)
        else if Str.startswith url "/" then Ret (scheme ++ "://" ++ host ++ url)
        else
          let path := fst (span_until (fun c => Ascii.eqb c "?" || Ascii.eqb c "#") rest) in
          let dir := dir_of path in
          Ret (scheme ++ "://" ++ host
               ++ (if Str.truthy dir then dir else "/") ++ url)
    | None => Ret url
    end.

End Lib.

(** ** A scripted world

    The world is the log of the operations performed so far, newest last;
    what the operations answer is fixed by a [site].  It plays the mocked
    collaborators of the test scenarios. *)

Module Mock.

Record site : Type := mkSite {
  get_answer : string -> outcome (Z * string);
  head_answer : string -> outcome (Z * option string);
  goto_answer : outcome unit;
  goto_responses : list response;
  count_of : string -> nat;
  attribute_of : string -> nat -> string -> outcome (option string);
  markup : outcome string;
  current_url : string;
  close_answer : outcome unit
}.

(** A log entry: the operation, and the exception it raised if any. *)
Definition entry {A} (name : string) (a : outcome A) : string :=
  match a with
  | Ret _ => name
  | Raise e => name ++ " raised: " ++ e
  end.

Definition log {A} (name : string) (a : outcome A) : op (list string) A :=
  fun w => (a, (w ++ [entry name a])%list).

Definition plog {A} (name : string) (a : outcome A) (evs : list response)
  : page_op (list string) A :=
  fun w => (a, evs, (w ++ [entry name a])%list).

Definition world_of (s : site) : collaborators (list string) :=
  {| client_enter := log "client" (Ret tt);
     client_exit := log "client.close" (Ret tt);
     client_get := fun url _ => log ("GET " ++ url) (get_answer s url);
     client_head := fun url _ => log ("HEAD " ++ url) (head_answer s url);
     playwright_enter := log "playwright" (Ret tt);
     playwright_exit := log "playwright.stop" (Ret tt);
     launch := fun _ => log "launch" (Ret tt);
     new_context := log "new_context" (Ret tt);
     new_page := log "new_page" (Ret tt);
     page_goto := fun url _ => plog ("goto " ++ url) (goto_answer s) (goto_responses s);
     page_wait := fun _ => plog "wait" (Ret tt) [];
     loc_count := fun sel => plog ("count " ++ sel) (Ret (count_of s sel)) [];
     loc_click := fun sel _ => plog ("click " ++ sel) (Ret tt) [];
     loc_get_attribute := fun sel i name =>
       plog ("get_attribute " ++ sel) (attribute_of s sel i name) [];
     page_content := plog "content" (markup s) [];
     page_url := fun _ => current_url s;
     browser_close := plog "close" (close_answer s) [];
     urljoin := Lib.urljoin;
     netloc := Lib.netloc |}.

(** A site that serves [text] at every URL and shows an empty page. *)
Definition static (text : string) : site :=
  {| get_answer := fun _ => Ret (200%Z, text);
     head_answer := fun _ => Ret (200%Z, None);
     goto_answer := Ret tt;
     goto_responses := [];
     count_of := fun _ => 0;
     attribute_of := fun _ _ _ => Ret None;
     markup := Ret EmptyString;
     current_url := "about:blank";
     close_answer := Ret tt |}.

Definition init : state (list string) := new_detector [].

(** One call of [detect_onlyfans] on a site: the returned record and the
    log of the operations it performed. *)
Definition detect (s : site) (bio_link : string)
  : outcome Results * list string :=
  let (r, st) := detect_onlyfans (world_of s) true bio_link init in
  (r, world st).

End Mock.

(** ** What a strategy may store

    [assigned urls method]: the pairs a strategy hands to [set_found], with
    what the guards before the assignment establish. *)

(** A str that [lower()] leaves as it is. *)
Definition lower_case (u : string) : Prop := Str.lower u = u.

Inductive assigned : list string -> string -> Prop :=
| assigned_direct (urls : list string) :
    urls <> [] -> Forall lower_case urls ->
    Forall (fun u => excluded u = false) urls ->
    assigned urls "direct_html_scan"
| assigned_extraction (urls : list string) :
    urls <> [] -> NoDup urls -> Forall (fun u => of_link u = true) urls ->
    assigned urls "interactive_link_extraction"
| assigned_linkme (u : string) :
    click_target u = true -> assigned [u] "linkme_interactive"
| assigned_linktree (u : string) :
    click_target u = true -> assigned [u] "linktree_direct"
| assigned_generic (u : string) :
    click_target u = true -> assigned [u] "generic_platform"
| assigned_chain (u : string) :
    of_link u = true -> assigned [u] "redirect_chain".

(** ** A program logic for the monad

    [steps R m st]: running [m] from [st] ends in a state related to [st]
    by [R].  For a preorder [R] that every primitive respects, every
    program built from the primitives respects it. *)

Definition steps {W A} (R : state W -> state W -> Prop) (m : M W A)
  (st : state W) : Prop :=
  R st (snd (m st)).

(** ** Invariants, scenarios and the claims as the specification states them *)

(** A character that [str.lower()] leaves as it is. *)
Definition fixed_char (c : ascii) : bool := Ascii.eqb (Str.lower_char c) c.

(** The captured group, if any, is made of characters that satisfy [p]. *)
Definition cap_ok (p : ascii -> bool) (cap : option string) : Prop :=
  match cap with
  | Some g => Str.all p g = true
  | None => True
  end.

(** What the continuation is called with keeps the property of the
    input: the rest of the input and the captured group are made of
    characters of the input. *)
Definition cont_ok (p : ascii -> bool) {R} (Q : R -> Prop)
  (k : option string -> string -> option R) : Prop :=
  forall cap rest res,
    Str.all p rest = true -> cap_ok p cap -> k cap rest = Some res -> Q res.

(** The relations the primitives respect. *)
Record respected {W} (R : state W -> state W -> Prop) : Prop := {
  resp_pre : PreOrder R;
  resp_world : forall st w, R st (set_world w st);
  resp_deliver : forall st evs, R st (deliver evs st);
  resp_links : forall st l,
    R st (mkState (results st) (onlyfans_redirects st) (aliased st) l (world st));
  resp_error : forall msg st, steps R (add_error msg) st;
  resp_debug : forall msg st, steps R (add_debug msg) st;
  resp_new_redirects : forall st, steps R new_redirects st;
  resp_found : forall urls method st,
    assigned urls method -> steps R (set_found urls method) st;
  resp_found_redirects : forall st,
    onlyfans_redirects st <> [] ->
    steps R (set_found_redirects "redirect_capture") st
}.

(** The state [detect_onlyfans] starts its strategies from. *)
Definition reset_state {W} (st : state W) : state W :=
  mkState fresh_results (onlyfans_redirects st) false (links st) (world st).

(** The three fields of a record agree; on a state, the list shared with
    the listener is moreover non-empty. *)
Definition consistent (r : Results) : Prop :=
  (has_onlyfans r = true <-> onlyfans_urls r <> [])
  /\ (onlyfans_urls r <> [] <-> detection_method r <> None).

Definition consistent_state {W} (st : state W) : Prop :=
  consistent (results st)
  /\ (aliased st = true -> onlyfans_urls (results st) <> []).

(** The relation of an invariant: if it holds before, it holds after. *)
Definition keeps {W} (I : state W -> Prop) (st st' : state W) : Prop :=
  I st -> I st'.

(** A record filled by the direct scan holds lower-case URLs, and its list
    is not the one the listener appends to. *)
Definition direct_lower {W} (st : state W) : Prop :=
  (aliased st = true ->
   detection_method (results st) <> Some "direct_html_scan")
  /\ (detection_method (results st) = Some "direct_html_scan" ->
      Forall lower_case (onlyfans_urls (results st))).

(** [errors] is only ever appended to. *)
Definition errors_grow {W} (st st' : state W) : Prop :=
  exists l, errors (results st') = (errors (results st) ++ l)%list.

(** The page shows the link in mixed case; the record reports it in lower
    case. *)
Definition mixed_case_site : Mock.site :=
  Mock.static "<a href='https://OnlyFans.com/CreatorName'>me</a>".

(** Scenario 1 of the specification: the markup holds the link, and the
    only operations performed are those of the direct scan. *)
Definition scenario1 : Mock.site :=
  Mock.static "see https://onlyfans.com/creatorname now".

(** The state scenario 1 ends in. *)
Definition scenario1_final : state (list string) :=
  mkState
    (mkResults true ["https://onlyfans.com/creatorname"]
       (Some "direct_html_scan") [] ["Found 1 direct OnlyFans links"])
    [] false [] ["client"; "GET https://linktr.ee/u"; "client.close"].

(** [head_requests C k w w']: the world [w'] is reached from [w] by
    exactly [k] HEAD requests and nothing else. *)
Inductive head_requests {W} (C : collaborators W) : nat -> W -> W -> Prop :=
| head_requests_none (w : W) : head_requests C 0 w w
| head_requests_more (k : nat) (url : string) (w w' w'' : W) :
    w' = snd (client_head C url 10 w) ->
    head_requests C k w' w'' ->
    head_requests C (S k) w w''.

(** A site whose every URL redirects to itself. *)
Definition cyclic_site : Mock.site :=
  {| Mock.get_answer := fun _ => Ret (200%Z, EmptyString);
     Mock.head_answer := fun url => Ret (302%Z, Some url);
     Mock.goto_answer := Ret tt;
     Mock.goto_responses := [];
     Mock.count_of := fun _ => 0;
     Mock.attribute_of := fun _ _ _ => Ret None;
     Mock.markup := Ret EmptyString;
     Mock.current_url := "about:blank";
     Mock.close_answer := Ret tt |}.

(** The chain returned by a run of [_follow_redirects]. *)
Definition chain_of {W} (x : outcome (string * list string) * state W)
  : list string :=
  match fst x with
  | Ret (_, chain) => chain
  | Raise _ => []
  end.

(** Scenario 3 of the specification: [/go/of] redirects through a short
    link to the profile. *)
Definition scenario3 : Mock.site :=
  {| Mock.get_answer := fun _ => Ret (200%Z, "<a href='/go/of'>my page</a>");
     Mock.head_answer := fun url =>
       if String.eqb url "https://bio.example/go/of"
       then Ret (302%Z, Some "/x")
       else if String.eqb url "https://bio.example/x"
       then Ret (301%Z, Some "https://onlyfans.com/creatorname")
       else Ret (200%Z, None);
     Mock.goto_answer := Ret tt;
     Mock.goto_responses := [];
     Mock.count_of := fun _ => 0;
     Mock.attribute_of := fun _ _ _ => Ret None;
     Mock.markup := Ret EmptyString;
     Mock.current_url := "https://bio.example/u";
     Mock.close_answer := Ret tt |}.

(** C6 as the specification states it: the Location, absolute or
    relative, is resolved against the current URL before it is appended
    to the chain. *)
Definition C6_as_stated : Prop :=
  forall (W : Type) (C : collaborators W) (url : string) (n : nat)
         (st : state W) (code : Z) (loc u : string),
    fst (client_head C url 10 (world st)) = Ret (code, Some loc) ->
    is_redirect_status code = true ->
    Str.truthy loc = true ->
    urljoin C url loc = Ret u ->
    exists rest,
      chain_of (_follow_redirects C url (S n) st) = url :: u :: rest.

(** A Location relative to the current document is not resolved. *)
Definition relative_location_site : Mock.site :=
  {| Mock.get_answer := fun _ => Ret (200%Z, EmptyString);
     Mock.head_answer := fun url =>
       if String.eqb url "https://a.com/x"
       then Ret (302%Z, Some "next")
       else Ret (200%Z, None);
     Mock.goto_answer := Ret tt;
     Mock.goto_responses := [];
     Mock.count_of := fun _ => 0;
     Mock.attribute_of := fun _ _ _ => Ret None;
     Mock.markup := Ret EmptyString;
     Mock.current_url := "about:blank";
     Mock.close_answer := Ret tt |}.

(** C7 as the specification states it: a domain that matches none of the
    named platforms is handed to the generic strategy. *)
Definition C7_as_stated : Prop :=
  forall domain : string,
    Str.contains "link.me" domain = false ->
    Str.contains "linktr.ee" domain = false ->
    Str.contains "beacons.ai" domain = false ->
    select_strategy domain = Generic.

(** A Linktree page whose only button links to a public-asset path. *)
Definition public_linktree : Mock.site :=
  {| Mock.get_answer := fun _ => Ret (200%Z, "<html>links</html>");
     Mock.head_answer := fun _ => Ret (200%Z, None);
     Mock.goto_answer := Ret tt;
     Mock.goto_responses := [];
     Mock.count_of := fun sel =>
       if String.eqb sel "[data-testid*='LinkButton']" then 1 else 0;
     Mock.attribute_of := fun sel _ _ =>
       if String.eqb sel "[data-testid*='LinkButton']"
       then Ret (Some "https://onlyfans.com/public/x")
       else Ret None;
     Mock.markup := Ret "<html>links</html>";
     Mock.current_url := "https://linktr.ee/u";
     Mock.close_answer := Ret tt |}.

(** The same through the response listener. *)
Definition public_redirect : Mock.site :=
  {| Mock.get_answer := fun _ => Ret (200%Z, "<html>links</html>");
     Mock.head_answer := fun _ => Ret (200%Z, None);
     Mock.goto_answer := Ret tt;
     Mock.goto_responses :=
       [mkResponse 302 "https://onlyfans.com/public/x"];
     Mock.count_of := fun _ => 0;
     Mock.attribute_of := fun _ _ _ => Ret None;
     Mock.markup := Ret "<html>links</html>";
     Mock.current_url := "https://bio.example/u";
     Mock.close_answer := Ret tt |}.

(** A page that shows the same link in an attribute and in its text. *)
Definition twice_site : Mock.site :=
  Mock.static
    "<a href='https://onlyfans.com/a'>https://onlyfans.com/a</a>".

(** Scenario 5 of the specification: every fetch of the bio link times
    out. *)
Definition scenario5 : Mock.site :=
  {| Mock.get_answer := fun _ => Raise "timed out";
     Mock.head_answer := fun _ => Raise "timed out";
     Mock.goto_answer := Raise "Timeout 30000ms exceeded";
     Mock.goto_responses := [];
     Mock.count_of := fun _ => 0;
     Mock.attribute_of := fun _ _ _ => Ret None;
     Mock.markup := Ret EmptyString;
     Mock.current_url := "about:blank";
     Mock.close_answer := Ret tt |}.

(** C4 as the specification states it, on the scripted worlds: whenever
    an operation of a collaborator raised during the call, the record has
    [has_onlyfans = False], and an entry of [errors] tells the failure. *)
Definition C4_not_found_as_stated : Prop :=
  forall (s : Mock.site) (bio_link : string) (operation : string) (e : exn),
    In (operation ++ " raised: " ++ e) (snd (Mock.detect s bio_link)) ->
    exists r,
      fst (Mock.detect s bio_link) = Ret r /\ has_onlyfans r = false.

(** The second half of the claim: the failure is recorded. *)
Definition C4_recorded_as_stated : Prop :=
  forall (s : Mock.site) (bio_link : string) (operation : string) (e : exn),
    In (operation ++ " raised: " ++ e) (snd (Mock.detect s bio_link)) ->
    exists r,
      fst (Mock.detect s bio_link) = Ret r
      /\ exists msg, In msg (errors r) /\ Str.contains e msg = true.

(** [errors] as it was. *)
Definition same_errors {W} (st st' : state W) : Prop :=
  errors (results st') = errors (results st).

(** A block that swallows its failures: it ends normally whatever the
    collaborators do, and leaves [errors] as it was. *)
Definition swallows {W A} (m : M W A) : Prop :=
  forall st, exists a st',
    m st = (Ret a, st') /\ errors (results st') = errors (results st).

(** A page whose first anchor went stale and whose second anchor is the
    profile link. *)
Definition stale_anchor_site : Mock.site :=
  {| Mock.get_answer := fun _ => Ret (200%Z, "<html>links</html>");
     Mock.head_answer := fun _ => Ret (200%Z, None);
     Mock.goto_answer := Ret tt;
     Mock.goto_responses := [];
     Mock.count_of := fun sel => if String.eqb sel "a[href]" then 2 else 0;
     Mock.attribute_of := fun sel i _ =>
       if String.eqb sel "a[href]" then
         match i with
         | 0 => Raise "stale element"
         | _ => Ret (Some "https://onlyfans.com/creatorname")
         end
       else Ret None;
     Mock.markup := Ret "<html>links</html>";
     Mock.current_url := "https://bio.example/u";
     Mock.close_answer := Ret tt |}.

(** [u] is in the list [links] of [_extract_all_links]. *)
Definition has_link {W} (u : string) (st : state W) : Prop :=
  In u (links st).

(** A page with one anchor. *)
Definition one_anchor (href : string) : Mock.site :=
  {| Mock.get_answer := fun _ => Ret (200%Z, EmptyString);
     Mock.head_answer := fun _ => Ret (200%Z, None);
     Mock.goto_answer := Ret tt;
     Mock.goto_responses := [];
     Mock.count_of := fun sel => if String.eqb sel "a[href]" then 1 else 0;
     Mock.attribute_of := fun sel _ _ =>
       if String.eqb sel "a[href]" then Ret (Some href) else Ret None;
     Mock.markup := Ret EmptyString;
     Mock.current_url := "https://bio.example/u";
     Mock.close_answer := Ret tt |}.

(** References and the anchors of the claim. *)
Definition is_alpha (c : ascii) : bool :=
  Str.in_range 65 90 c || Str.in_range 97 122 c.

Definition scheme_char (c : ascii) : bool :=
  is_alpha c || Str.in_range 48 57 c
  || Ascii.eqb c "+" || Ascii.eqb c "-" || Ascii.eqb c ".".

Fixpoint scheme_rest (s : string) : bool :=
  match s with
  | EmptyString => false
  | String c s' =>
      Ascii.eqb c ":" || (scheme_char c && scheme_rest s')
  end.

(** A reference is relative when it does not start with a scheme. *)
Definition is_relative (href : string) : bool :=
  match href with
  | EmptyString => false
  | String c s' => negb (is_alpha c && scheme_rest s')
  end.

(** C9 as the specification states it: every relative href within the
    bound is resolved against [base_url] and returned. *)
Definition C9_as_stated : Prop :=
  forall (W : Type) (C : collaborators W) (base_url : string) (st : state W)
         (n i : nat) (href u : string),
    (forall w, fst (fst (loc_count C "a[href]" w)) = Ret n) ->
    i < Nat.min n 100 ->
    (forall w, fst (fst (loc_get_attribute C "a[href]" i "href" w))
               = Ret (Some href)) ->
    is_relative href = true ->
    urljoin C base_url href = Ret u ->
    exists l st', _extract_all_links C base_url st = (Ret l, st') /\ In u l.

(** What the anchor pass keeps of one anchor, from the answer of
    [get_attribute]: the resolved URL for an href that starts with a
    slash, the href itself for one that starts with http, nothing for any
    other href and nothing when the attribute or the resolution fails. *)
Definition anchor_kept {W} (C : collaborators W) (base_url : string)
  (answer : outcome (option string)) : list string :=
  match answer with
  | Ret (Some href) =>
      if Str.startswith href "/" then
        match urljoin C base_url href with
        | Ret u => [u]
        | Raise _ => []
        end
      else if Str.startswith href "http" then [href]
      else []
  | Ret None => []
  | Raise _ => []
  end.

(** The same for one element of the data-attribute pass. *)
Definition data_kept {W} (C : collaborators W) (base_url : string)
  (answer : outcome (option string)) : list string :=
  match answer with
  | Ret (Some value) =>
      if Str.contains "http" value || Str.contains "/" value then
        if Str.startswith value "http" then [value]
        else if Str.startswith value "/" then
          match urljoin C base_url value with
          | Ret u => [u]
          | Raise _ => []
          end
        else []
      else []
  | Ret None => []
  | Raise _ => []
  end.

(** A page that answers the same whatever was done before: [count sel]
    elements for a selector, [attribute sel i name] for an attribute of
    element [i], [text] for its markup. *)
Definition static_page {W} (C : collaborators W) (count : string -> nat)
  (attribute : string -> nat -> string -> outcome (option string))
  (text : outcome string) : Prop :=
  (forall sel w, fst (fst (loc_count C sel w)) = Ret (count sel))
  /\ (forall sel i name w,
         fst (fst (loc_get_attribute C sel i name w)) = attribute sel i name)
  /\ (forall w, fst (fst (page_content C w)) = text).

(** The contribution of each of the three passes on such a page. *)
Definition anchor_links {W} (C : collaborators W) (base_url : string)
  (count : string -> nat)
  (attribute : string -> nat -> string -> outcome (option string))
  : list string :=
  flat_map (fun i => anchor_kept C base_url (attribute "a[href]" i "href"))
    (seq 0 (Nat.min (count "a[href]") 100)).

Definition data_links {W} (C : collaborators W) (base_url : string)
  (count : string -> nat)
  (attribute : string -> nat -> string -> outcome (option string))
  : list string :=
  flat_map
    (fun attr =>
       flat_map
         (fun i => data_kept C base_url (attribute ("[" ++ attr ++ "]") i attr))
         (seq 0 (Nat.min (count ("[" ++ attr ++ "]")) 50)))
    data_attrs.

Definition markup_links (text : outcome string) : list string :=
  match text with
  | Ret page_text => Re.findall true URL_RE page_text
  | Raise _ => []
  end.

(** A page with three anchors: a path, a document-relative reference and
    a reference of another scheme. *)
Definition three_anchors : Mock.site :=
  {| Mock.get_answer := fun _ => Ret (200%Z, EmptyString);
     Mock.head_answer := fun _ => Ret (200%Z, None);
     Mock.goto_answer := Ret tt;
     Mock.goto_responses := [];
     Mock.count_of := fun sel => if String.eqb sel "a[href]" then 3 else 0;
     Mock.attribute_of := fun sel i _ =>
       if String.eqb sel "a[href]" then
         match i with
         | 0 => Ret (Some "/about/me")
         | 1 => Ret (Some "about/me")
         | _ => Ret (Some "ftp://files.example/x")
         end
       else Ret None;
     Mock.markup := Ret EmptyString;
     Mock.current_url := "https://bio.example/u";
     Mock.close_answer := Ret tt |}.

(** The two exclusion tests as properties of a reported URL. *)
Definition no_files (u : string) : Prop := has_files u = false.
Definition no_public (u : string) : Prop := has_public u = false.

(** The three strategies that test both substrings. *)
Definition filters_public (method : string) : Prop :=
  method = "direct_html_scan" \/ method = "interactive_link_extraction"
  \/ method = "redirect_chain".

(** No reported and no captured URL contains [/files]; a record filled by
    a strategy that tests both substrings holds no URL with [/public]. *)
Definition filtered {W} (st : state W) : Prop :=
  Forall no_files (onlyfans_urls (results st))
  /\ Forall no_files (onlyfans_redirects st)
  /\ (forall method,
         detection_method (results st) = Some method ->
         filters_public method ->
         aliased st = false /\ Forall no_public (onlyfans_urls (results st))).

(** ** The language of a pattern

    [lang ic r s]: the str [s] as a whole matches [r]; the matcher is sound
    for it, which tells what a reported match looks like. *)

Inductive lang (ic : bool) : Re.regex -> string -> Prop :=
| lang_lit (c x : ascii) :
    Re.lit_eq ic c x = true -> lang ic (Re.Lit c) (String x EmptyString)
| lang_cls (p : ascii -> bool) (x : ascii) :
    p x = true -> lang ic (Re.Cls p) (String x EmptyString)
| lang_star (p : ascii -> bool) (s : string) :
    Str.all p s = true -> lang ic (Re.Star p) s
| lang_plus (p : ascii -> bool) (x : ascii) (s : string) :
    p x = true -> Str.all p s = true -> lang ic (Re.Plus p) (String x s)
| lang_opt_none (r : Re.regex) : lang ic (Re.Opt r) EmptyString
| lang_opt_some (r : Re.regex) (s : string) :
    lang ic r s -> lang ic (Re.Opt r) s
| lang_seq (r1 r2 : Re.regex) (s1 s2 : string) :
    lang ic r1 s1 -> lang ic r2 s2 -> lang ic (Re.Seq r1 r2) (s1 ++ s2)
| lang_group (r : Re.regex) (s : string) :
    lang ic r s -> lang ic (Re.Group r) s.

Fixpoint has_group (r : Re.regex) : bool :=
  match r with
  | Re.Opt r1 => has_group r1
  | Re.Seq r1 r2 => has_group r1 || has_group r2
  | Re.Group _ => true
  | _ => false
  end.

(** The target signature: onlyfans.com, whatever the letter case. *)
Definition matches_target (u : string) : Prop :=
  Str.contains "onlyfans.com" (Str.lower u) = true.

(** ** What each strategy stores, exactly

    [stored urls method] names the very list each assignment site of the
    detector builds. *)

Definition not_excluded (url : string) : bool :=
  negb (has_files url) && negb (has_public url).

Inductive stored : list string -> string -> Prop :=
| stored_direct (text : string) :
    filter not_excluded (Re.findall true URL_RE (Str.lower text)) <> [] ->
    stored (filter not_excluded (Re.findall true URL_RE (Str.lower text)))
      "direct_html_scan"
| stored_extraction (l : list string) :
    NoDup l -> filter of_link l <> [] ->
    stored (filter of_link l) "interactive_link_extraction"
| stored_linkme (u : string) :
    click_target u = true -> stored [u] "linkme_interactive"
| stored_linktree (u : string) :
    click_target u = true -> stored [u] "linktree_direct"
| stored_generic (u : string) :
    click_target u = true -> stored [u] "generic_platform"
| stored_chain (u : string) :
    of_link u = true -> stored [u] "redirect_chain".

(** The relations the primitives respect, [set_found] being used on
    stored lists only. *)
Record respected_stored {W} (R : state W -> state W -> Prop) : Prop := {
  rs_pre : PreOrder R;
  rs_world : forall st w, R st (set_world w st);
  rs_deliver : forall st evs, R st (deliver evs st);
  rs_links : forall st l,
    R st (mkState (results st) (onlyfans_redirects st) (aliased st) l (world st));
  rs_error : forall msg st, steps R (add_error msg) st;
  rs_debug : forall msg st, steps R (add_debug msg) st;
  rs_new_redirects : forall st, steps R new_redirects st;
  rs_found : forall urls method st,
    stored urls method -> steps R (set_found urls method) st;
  rs_found_redirects : forall st,
    onlyfans_redirects st <> [] ->
    steps R (set_found_redirects "redirect_capture") st
}.

(** Every reported and every captured URL carries the target signature. *)
Definition on_target {W} (st : state W) : Prop :=
  Forall matches_target (onlyfans_urls (results st))
  /\ Forall matches_target (onlyfans_redirects st).

(** The shape of a URL the direct scan reports. *)
Definition direct_url (u : string) : Prop :=
  (Str.startswith u "http://" = true \/ Str.startswith u "https://" = true)
  /\ Str.contains "onlyfans.com" u = true
  /\ Str.all url_char u = true.

Definition direct_shape {W} (st : state W) : Prop :=
  (aliased st = true ->
   detection_method (results st) <> Some "direct_html_scan")
  /\ (detection_method (results st) = Some "direct_html_scan" ->
      Forall direct_url (onlyfans_urls (results st))).

(** The methods that report a single URL. *)
Definition single_url_method (method : string) : Prop :=
  method = "linkme_interactive" \/ method = "linktree_direct"
  \/ method = "generic_platform" \/ method = "redirect_chain".

(** A record filled by the link extraction holds no URL twice, and one
    filled by a click strategy or the redirect probe holds one URL. *)
Definition contribution_shape {W} (st : state W) : Prop :=
  (aliased st = true ->
   detection_method (results st) = Some "redirect_capture")
  /\ (detection_method (results st) = Some "interactive_link_extraction" ->
      NoDup (onlyfans_urls (results st)))
  /\ (forall method,
         detection_method (results st) = Some method ->
         single_url_method method ->
         List.length (onlyfans_urls (results st)) = 1).

(** A page that shows a public-asset link and a profile link. *)
Definition two_paths_site : Mock.site :=
  Mock.static
    "https://onlyfans.com/public/x and https://onlyfans.com/creatorname".

(** The record of a run on a scripted site. *)
Definition record_of (s : Mock.site) (bio_link : string) : Results :=
  results (snd (detect_onlyfans (Mock.world_of s) true bio_link Mock.init)).

(** The collaborators [C] with another answer to [count()]. *)
Definition with_count {W} (C : collaborators W)
  (count : string -> page_op W nat) : collaborators W :=
  {| client_enter := client_enter C;
     client_exit := client_exit C;
     client_get := client_get C;
     client_head := client_head C;
     playwright_enter := playwright_enter C;
     playwright_exit := playwright_exit C;
     launch := launch C;
     new_context := new_context C;
     new_page := new_page C;
     page_goto := page_goto C;
     page_wait := page_wait C;
     loc_count := count;
     loc_click := loc_click C;
     loc_get_attribute := loc_get_attribute C;
     page_content := page_content C;
     page_url := page_url C;
     browser_close := browser_close C;
     urljoin := urljoin C;
     netloc := netloc C |}.

(** A page whose locators fail. *)
Definition closed_page : collaborators (list string) :=
  with_count (Mock.world_of (Mock.static EmptyString))
    (fun sel => Mock.plog ("count " ++ sel) (Raise "Target closed") []).

(** A page that shows the link in its markup only. *)
Definition markup_only_site : Mock.site :=
  {| Mock.get_answer := fun _ => Ret (200%Z, "<html>loading</html>");
     Mock.head_answer := fun _ => Ret (200%Z, None);
     Mock.goto_answer := Ret tt;
     Mock.goto_responses := [];
     Mock.count_of := fun _ => 0;
     Mock.attribute_of := fun _ _ _ => Ret None;
     Mock.markup :=
       Ret "<script>go('https://OnlyFans.com/CreatorName')</script>";
     Mock.current_url := "https://bio.example/u";
     Mock.close_answer := Ret tt |}.

(** A browser whose [new_context()] fails. *)
Definition no_context : collaborators (list string) :=
  let C := Mock.world_of (Mock.static EmptyString) in
  {| client_enter := client_enter C;
     client_exit := client_exit C;
     client_get := client_get C;
     client_head := client_head C;
     playwright_enter := playwright_enter C;
     playwright_exit := playwright_exit C;
     launch := launch C;
     new_context := Mock.log "new_context" (Raise "Browser closed");
     new_page := new_page C;
     page_goto := page_goto C;
     page_wait := page_wait C;
     loc_count := loc_count C;
     loc_click := loc_click C;
     loc_get_attribute := loc_get_attribute C;
     page_content := page_content C;
     page_url := page_url C;
     browser_close := browser_close C;
     urljoin := urljoin C;
     netloc := netloc C |}.

(** ** The batch endpoint of the API server ([api_server.py])

    A request body is a JSON value; [request.get_json()] either returns it
    or raises.  The detection function the server imports is a parameter:
    it takes the bio link and the headless flag as the JSON values found
    in the request, and either returns a result record or raises.  [JNum]
    stands for every number: only its being zero matters here. *)

#[warnings="-register-all"]
Inductive json : Type :=
| JNull
| JBool (b : bool)
| JNum (n : Z)
| JStr (s : string)
| JArr (items : list json)
| JObj (members : list (string * json)).

(** Truthiness of a JSON value as Python sees the decoded object. *)
Definition json_truthy (v : json) : bool :=
  match v with
  | JNull => false
  | JBool b => b
  | JNum n => negb (n =? 0)%Z
  | JStr s => Str.truthy s
  | JArr items => nonempty items
  | JObj members => nonempty members
  end.

(** [d.get(key)] on a decoded object: of two members with the same key the
    later one is kept by the decoder. *)
Fixpoint obj_get (key : string) (members : list (string * json))
  : option json :=
  match members with
  | [] => None
  | (k, v) :: rest =>
      match obj_get key rest with
      | Some v' => Some v'
      | None => if String.eqb k key then Some v else None
      end
  end.

Definition is_str (key : string) (v : json) : bool :=
  match v with
  | JStr s => String.eqb s key
  | _ => false
  end.

(** One entry of [batch_results]: a result record with its bio link, or
    the error of a detection that raised. *)
Inductive entry : Type :=
| Detected (r : Results) (bio_link : json)
| Failed (bio_link : json) (error : exn).

Definition entry_link (e : entry) : json :=
  match e with
  | Detected _ b => b
  | Failed b _ => b
  end.

(** ['error' not in r] *)
Definition is_detected (e : entry) : bool :=
  match e with
  | Detected _ _ => true
  | Failed _ _ => false
  end.

Inductive body : Type :=
| ErrorBody (error : string) (usage : option string)
| FailureBody (error : string) (message : exn)
| BatchBody (batch_results : list entry) (total_processed successful : nat).

(** A reply: the body handed to [jsonify] and the status code. *)
Definition reply : Type := (body * Z)%type.

Definition reply_status (r : reply) : Z := snd r.

Section ApiServer.
Context {W : Type}.
(** [asyncio.run(detect_onlyfans_in_bio_link(bio_link, headless))] *)
Variable detect : json -> json -> W -> outcome Results * W.
(** [str(e)] of the [TypeError] raised by [key in v] when [v] is a number
    or a boolean, and by [v[key]] when [v] is a list or a str. *)
Variable not_iterable : json -> exn.
Variable bad_index : json -> exn.

(** ['bio_links' not in data], negated. *)
Definition has_key (key : string) (data : json) : outcome bool :=
  match data with
  | JObj members =>
      Ret (match obj_get key members with Some _ => true | None => false end)
  | JArr items => Ret (existsb (is_str key) items)
  | JStr s => Ret (Str.contains key s)
  | _ => Raise (not_iterable data)
  end.

(** [data['bio_links']], reached once the key test passed. *)
Definition subscript (key : string) (data : json) : outcome json :=
  match data with
  | JObj members =>
      match obj_get key members with
      | Some v => Ret v
      | None => Raise key
      end
  | _ => Raise (bad_index data)
  end.

(** The loop over the links: one entry per link, a detection that raises
    giving an error entry. *)
Fixpoint run_batch (headless : json) (bio_links : list json) (w : W)
  : list entry * W :=
  match bio_links with
  | [] => ([], w)
  | bio_link :: rest =>
      let (r, w1) := detect bio_link headless w in
      let e := match r with
               | Ret result => Detected result bio_link
               | Raise err => Failed bio_link err
               end in
      let (es, w2) := run_batch headless rest w1 in
      (e :: es, w2)
  end.

(** The usage note of the reply to a request without [bio_links]; it
    quotes a JSON example. *)
Definition batch_usage : string :=
  let q := String dquote EmptyString in
  "Send POST with JSON: {" ++ q ++ "bio_links" ++ q ++ ": [" ++ q ++ "url1"
  ++ q ++ ", " ++ q ++ "url2" ++ q ++ "]}".

Definition missing_bio_links : body :=
  ErrorBody "Missing bio_links parameter" (Some batch_usage).

Definition batch_detect (request_json : outcome json) (w : W) : reply * W :=
  let failed e := ((FailureBody "Batch detection failed" e, 500%Z), w) in
  match request_json with
  | Raise e => failed e
  | Ret data =>
      if negb (json_truthy data) then ((missing_bio_links, 400%Z), w)
      else
        match has_key "bio_links" data with
        | Raise e => failed e
        | Ret false => ((missing_bio_links, 400%Z), w)
        | Ret true =>
            match subscript "bio_links" data with
            | Raise e => failed e
            | Ret bio_links =>
                let headless :=
                  match data with
                  | JObj members =>
                      match obj_get "headless" members with
                      | Some v => v
                      | None => JBool true
                      end
                  | _ => JBool true
                  end in
                match bio_links with
                | JArr items =>
                    if (List.length items =? 0)%nat then
                      ((ErrorBody "bio_links must be a non-empty array" None,
                        400%Z), w)
                    else if (10 <? List.length items)%nat then
                      ((ErrorBody "Maximum 10 bio links per batch" None, 400%Z),
                       w)
                    else
                      let (results, w') := run_batch headless items w in
                      ((BatchBody results (List.length results)
                          (List.length (filter is_detected results)),
                        200%Z), w')
                | _ =>
                    ((ErrorBody "bio_links must be a non-empty array" None,
                      400%Z), w)
                end
            end
        end
  end.

End ApiServer.

(** A detection for the examples: it counts its calls, returns a record
    for a str and raises for any other value. *)
Definition demo_detect (bio_link headless : json) (calls : nat)
  : outcome Results * nat :=
  match bio_link with
  | JStr _ => (Ret fresh_results, S calls)
  | _ => (Raise "bio_link must be a str", S calls)
  end.

Definition demo_type_error (v : json) : exn := "TypeError".

(** A batch of a link and of a number. *)
Definition mixed_batch : list json :=
  [JStr "https://linktr.ee/a"; JNum 5].

(** A batch of eleven links. *)
Definition oversize_batch : list json :=
  repeat (JStr "https://linktr.ee/a") 11.

(** [requests C g h w w']: the world [w'] is reached from [w] by
    operations of the HTTP client only, among them exactly [g] GET and
    [h] HEAD requests. *)
Inductive requests {W} (C : collaborators W) : nat -> nat -> W -> W -> Prop :=
| requests_none (w : W) : requests C 0 0 w w
| requests_enter (g h : nat) (w w' : W) :
    requests C g h (snd (client_enter C w)) w' -> requests C g h w w'
| requests_exit (g h : nat) (w w' : W) :
    requests C g h (snd (client_exit C w)) w' -> requests C g h w w'
| requests_get (g h : nat) (url : string) (w w' : W) :
    requests C g h (snd (client_get C url 15 w)) w' ->
    requests C (S g) h w w'
| requests_head (g h : nat) (url : string) (w w' : W) :
    requests C g h (snd (client_head C url 10 w)) w' ->
    requests C g (S h) w w'.

Section Logic.
Context {W : Type}.
Variable R : state W -> state W -> Prop.
Context {R_pre : PreOrder R}.

Lemma steps_ret {A} (a : A) st : steps R (ret a) st.
Proof. unfold steps, ret; simpl. reflexivity. Qed.

Lemma steps_pure_call {A} (o : outcome A) st : steps R (pure_call o) st.
Proof. unfold steps, pure_call; simpl. reflexivity. Qed.

Lemma steps_bind {A B} (m : M W A) (f : A -> M W B) st :
  steps R m st ->
  (forall a st', m st = (Ret a, st') -> steps R (f a) st') ->
  steps R (bind m f) st.
Proof.
  unfold steps, bind. intros Hm Hf.
  destruct (m st) as [[a | e] st'] eqn:E; simpl in *.
  - etransitivity; [exact Hm | apply (Hf a st' eq_refl)].
  - exact Hm.
Qed.

Lemma steps_try_except {A} (body : M W A) (h : exn -> M W A) st :
  steps R body st ->
  (forall e st', body st = (Raise e, st') -> steps R (h e) st') ->
  steps R (try_except body h) st.
Proof.
  unfold steps, try_except. intros Hm Hh.
  destruct (body st) as [[a | e] st'] eqn:E; simpl in *.
  - exact Hm.
  - etransitivity; [exact Hm | apply (Hh e st' eq_refl)].
Qed.

Lemma steps_try_finally {A} (body : M W A) (fin : M W unit) st :
  steps R body st ->
  (forall r st', body st = (r, st') -> steps R fin st') ->
  steps R (try_finally body fin) st.
Proof.
  unfold steps, try_finally. intros Hm Hf.
  destruct (body st) as [r st'] eqn:E; simpl in *.
  specialize (Hf r st' eq_refl).
  destruct (fin st') as [[u | e] st''] eqn:E'; simpl in *;
    etransitivity; eassumption.
Qed.

Lemma steps_async_with {A} (enter leave : M W unit) (body : M W A) st :
  steps R enter st ->
  (forall st', enter st = (Ret tt, st') -> steps R body st') ->
  (forall st', steps R leave st') ->
  steps R (async_with enter leave body) st.
Proof.
  intros He Hb Hl. unfold async_with.
  apply steps_bind; [exact He |].
  intros [] st' E. apply steps_try_finally; [apply (Hb st' E) |].
  intros; apply Hl.
Qed.

Lemma steps_for_each {A} (l : list A) (body : A -> M W bool) :
  (forall x st, In x l -> steps R (body x) st) ->
  forall st, steps R (for_each l body) st.
Proof.
  induction l as [| x l IH]; intros Hb st; simpl.
  - apply steps_ret.
  - apply steps_bind; [apply Hb; left; reflexivity |].
    intros [] st' _.
    + apply steps_ret.
    + apply IH. intros y st'' Hy. apply Hb. right; exact Hy.
Qed.

End Logic.

(** Running a sequence whose first part is known, handlers that return,
    and loops whose body never leaves them. *)

Lemma bind_run {W A B} (m : M W A) (f : A -> M W B) (st : state W)
  (a : A) (st' : state W) :
  m st = (Ret a, st') -> bind m f st = f a st'.
Proof. intros H. unfold bind. rewrite H. reflexivity. Qed.

Lemma try_except_returns {W A} (body : M W A) (h : exn -> M W A) :
  (forall e st, exists a st', h e st = (Ret a, st')) ->
  forall st, exists a st', try_except body h st = (Ret a, st').
Proof.
  intros Hh st. unfold try_except.
  destruct (body st) as [[a | e] st1]; [eauto | apply Hh].
Qed.

Lemma note_and_fail {W} (msg : string) (e : exn) (st : state W) :
  exists (a : bool) st', (add_error (msg ++ e) ;;; ret false) st = (Ret a, st').
Proof. eexists _, _. reflexivity. Qed.

Lemma for_each_never_leaves {W A} (l : list A) (body : A -> M W bool) :
  (forall x st, fst (body x st) = Ret false) ->
  forall st, fst (for_each l body st) = Ret false.
Proof.
  intros Hb. induction l as [| x l IH]; intros st; simpl; [reflexivity |].
  unfold bind. specialize (Hb x st).
  destruct (body x st) as [r st1]; simpl in Hb; subst r. apply IH.
Qed.

(** ** Facts about strings and the matcher *)

Lemma all_take (p : ascii -> bool) (n : nat) (s : string) :
  Str.all p s = true -> Str.all p (Str.take n s) = true.
Proof.
  revert n; induction s as [| c s IH]; intros [| n] H; simpl in *; auto.
  apply andb_true_iff in H as [Hc Hs]. rewrite Hc; simpl. auto.
Qed.

Lemma lower_char_idem (c : ascii) :
  Str.lower_char (Str.lower_char c) = Str.lower_char c.
Proof.
  destruct c as [[] [] [] [] [] [] [] []]; vm_compute; reflexivity.
Qed.

Lemma all_fixed_lower (s : string) : Str.all fixed_char (Str.lower s) = true.
Proof.
  induction s as [| c s IH]; simpl; auto.
  rewrite IH, andb_true_r. unfold fixed_char.
  rewrite lower_char_idem. apply Ascii.eqb_refl.
Qed.

Lemma all_fixed_lower_case (s : string) :
  Str.all fixed_char s = true -> lower_case s.
Proof.
  unfold lower_case. induction s as [| c s IH]; simpl; auto.
  intros H. apply andb_true_iff in H as [Hc Hs].
  apply Ascii.eqb_eq in Hc. rewrite Hc, (IH Hs). reflexivity.
Qed.

Section MatcherFacts.
Variable p : ascii -> bool.
Variable ic : bool.

Lemma star_ok {R} (Q : R -> Prop) (q : ascii -> bool) (s : string)
  (cap : option string) (k : option string -> string -> option R) (res : R) :
  Str.all p s = true -> cap_ok p cap -> cont_ok p Q k ->
  Re.star q s cap k = Some res -> Q res.
Proof.
  intros Hs Hc Hk. induction s as [| c s IH]; simpl.
  - intros H. apply (Hk cap EmptyString res); auto.
  - pose proof Hs as Hs'. simpl in Hs'.
    apply andb_true_iff in Hs' as [_ Hs'].
    destruct (q c).
    + destruct (Re.star q s cap k) as [r |] eqn:E.
      * intros H; inversion H; subst. apply IH; auto.
      * intros H. apply (Hk cap (String c s) res); auto.
    + intros H. apply (Hk cap (String c s) res); auto.
Qed.

Lemma rmatch_ok {R} (Q : R -> Prop) (r : Re.regex) :
  forall (s : string) (cap : option string)
         (k : option string -> string -> option R) (res : R),
    Str.all p s = true -> cap_ok p cap -> cont_ok p Q k ->
    Re.rmatch ic r s cap k = Some res -> Q res.
Proof.
  induction r as [c | q | q | q | r IH | r1 IH1 r2 IH2 | r IH];
    intros s cap k res Hs Hc Hk; simpl.
  - destruct s as [| x s]; [discriminate |].
    simpl in Hs. apply andb_true_iff in Hs as [_ Hs].
    destruct (Re.lit_eq ic c x); [| discriminate].
    intros H. apply (Hk cap s res); auto.
  - destruct s as [| x s]; [discriminate |].
    simpl in Hs. apply andb_true_iff in Hs as [_ Hs].
    destruct (q x); [| discriminate].
    intros H. apply (Hk cap s res); auto.
  - apply star_ok; auto.
  - destruct s as [| x s]; [discriminate |].
    simpl in Hs. apply andb_true_iff in Hs as [_ Hs].
    destruct (q x); [| discriminate].
    apply star_ok; auto.
  - destruct (Re.rmatch ic r s cap k) as [r0 |] eqn:E.
    + intros H; inversion H; subst. apply (IH s cap k res); auto.
    + intros H. apply (Hk cap s res); auto.
  - apply IH1; auto.
    intros cap' rest res' Hrest Hcap'. apply IH2; auto.
  - apply IH; auto.
    intros cap' rest res' Hrest Hcap'. apply Hk; auto.
    simpl. apply all_take; exact Hs.
Qed.

Lemma match_here_ok (r : Re.regex) (s : string) (m : nat * option string) :
  Str.all p s = true -> Re.match_here ic r s = Some m ->
  Str.all p (Re.item s m) = true.
Proof.
  intros Hs H. unfold Re.match_here in H.
  apply (rmatch_ok (fun m => Str.all p (Re.item s m) = true)) in H; auto.
  - exact I.
  - intros cap rest res Hrest Hcap E. inversion E; subst.
    unfold Re.item; simpl. destruct cap as [g |]; simpl in *; auto.
    apply all_take; exact Hs.
Qed.

Lemma findall_from_ok (r : Re.regex) (s : string) :
  Str.all p s = true ->
  forall skip, Forall (fun u => Str.all p u = true) (Re.findall_from ic r s skip).
Proof.
  induction s as [| c s IH]; intros Hs skip; simpl.
  - destruct skip; [| constructor].
    destruct (Re.match_here ic r EmptyString) as [m |] eqn:E; constructor.
    + apply (match_here_ok r EmptyString m); auto.
    + constructor.
  - pose proof Hs as Hs'. simpl in Hs'.
    apply andb_true_iff in Hs' as [_ Hs'].
    destruct skip; [| apply IH; exact Hs'].
    destruct (Re.match_here ic r (String c s)) as [m |] eqn:E.
    + constructor; [apply (match_here_ok r (String c s) m); auto |].
      apply IH; exact Hs'.
    + apply IH; exact Hs'.
Qed.

End MatcherFacts.

(** The matches found in lower-cased text are lower-case. *)
Lemma findall_lower (ic : bool) (r : Re.regex) (text : string) :
  Forall lower_case (Re.findall ic r (Str.lower text)).
Proof.
  unfold Re.findall.
  eapply Forall_impl; [| apply (findall_from_ok fixed_char ic r)].
  - intros u; apply all_fixed_lower_case.
  - apply all_fixed_lower.
Qed.

Lemma nonempty_true {A} (l : list A) : nonempty l = true -> l <> [].
Proof. destruct l; [discriminate | intros _ H; discriminate]. Qed.

(** ** Every relation the primitives respect is respected by the pipeline *)

Section Pipeline.
Context {W : Type}.
Variable C : collaborators W.
Variable headless : bool.
Variable R : state W -> state W -> Prop.
Context {R_pre : PreOrder R}.

Hypothesis R_world : forall st w, R st (set_world w st).
Hypothesis R_deliver : forall st evs, R st (deliver evs st).
Hypothesis R_links : forall st l,
  R st (mkState (results st) (onlyfans_redirects st) (aliased st) l (world st)).
Hypothesis R_error : forall msg st, steps R (add_error msg) st.
Hypothesis R_debug : forall msg st, steps R (add_debug msg) st.
Hypothesis R_new_redirects : forall st, steps R new_redirects st.
Hypothesis R_found : forall urls method st,
  assigned urls method -> steps R (set_found urls method) st.
Hypothesis R_found_redirects : forall st,
  onlyfans_redirects st <> [] ->
  steps R (set_found_redirects "redirect_capture") st.

Lemma steps_call {A} (o : op W A) st : steps R (call o) st.
Proof.
  unfold steps, call. destruct (o (world st)) as [r w]; simpl.
  apply R_world.
Qed.

Lemma steps_page_call {A} (o : page_op W A) st : steps R (page_call o) st.
Proof.
  unfold steps, page_call. destruct (o (world st)) as [[r evs] w]; simpl.
  etransitivity; [apply (R_world st w) | apply R_deliver].
Qed.

Lemma steps_get_redirects st : steps R get_redirects st.
Proof. unfold steps; simpl. reflexivity. Qed.

Lemma steps_get_links st : steps R get_links st.
Proof. unfold steps; simpl. reflexivity. Qed.

Lemma steps_read_url st : steps R (read_url C) st.
Proof. unfold steps; simpl. reflexivity. Qed.

Lemma steps_new_links st : steps R new_links st.
Proof. unfold steps, new_links; simpl. apply R_links. Qed.

Lemma steps_append_links l st : steps R (append_links l) st.
Proof. unfold steps, append_links; simpl. apply R_links. Qed.

Ltac step :=
  cbv zeta;
  match goal with
  | |- steps _ (bind _ _) _ => apply (steps_bind R); [| intros ? ? ?]
  | |- steps _ (try_except _ _) _ => apply (steps_try_except R); [| intros ? ? ?]
  | |- steps _ (try_finally _ _) _ => apply (steps_try_finally R); [| intros ? ? ?]
  | |- steps _ (async_with _ _ _) _ =>
      apply (steps_async_with R); [| intros ? ? | intros ?]
  | |- steps _ (with_client _ _) _ => unfold with_client
  | |- steps _ (for_each _ _) _ => apply (steps_for_each R); intros ? ? ?
  | |- steps _ (ret _) _ => apply (steps_ret R)
  | |- steps _ (pure_call _) _ => apply (steps_pure_call R)
  | |- steps _ (call _) _ => apply steps_call
  | |- steps _ (page_call _) _ => apply steps_page_call
  | |- steps _ get_redirects _ => apply steps_get_redirects
  | |- steps _ get_links _ => apply steps_get_links
  | |- steps _ (read_url _) _ => apply steps_read_url
  | |- steps _ new_links _ => apply steps_new_links
  | |- steps _ (append_links _) _ => apply steps_append_links
  | |- steps _ new_redirects _ => apply R_new_redirects
  | |- steps _ (add_error _) _ => apply R_error
  | |- steps _ (add_debug _) _ => apply R_debug
  | |- steps _ (set_found _ _) _ => apply R_found
  | |- steps _ (if ?b then _ else _) _ => destruct b eqn:?
  end.

Lemma steps_follow_step current st : steps R (follow_step C current) st.
Proof. unfold follow_step. repeat step. Qed.

Lemma steps_follow_loop n : forall current chain st,
  steps R (follow_loop C n current chain) st.
Proof.
  induction n as [| n IH]; intros current chain st; simpl.
  - step.
  - step; [apply steps_follow_step |].
    destruct a; [apply IH | step].
Qed.

Lemma steps_follow_redirects url n st :
  steps R (_follow_redirects C url n) st.
Proof. apply steps_follow_loop. Qed.

Lemma filter_not_excluded (l : list string) :
  Forall (fun u => excluded u = false)
    (filter (fun url => negb (has_files url) && negb (has_public url)) l).
Proof.
  apply Forall_forall. intros u Hu. apply filter_In in Hu as [_ Hu].
  unfold excluded. apply andb_true_iff in Hu as [H1 H2].
  apply negb_true_iff in H1, H2. rewrite H1, H2. reflexivity.
Qed.

Lemma steps_check_direct_links bio_link st :
  steps R (_check_direct_links C bio_link) st.
Proof.
  unfold _check_direct_links. repeat step.
  apply assigned_direct.
  - apply nonempty_true; assumption.
  - apply incl_Forall with (l1 := Re.findall true URL_RE (Str.lower (snd a))).
    + apply incl_filter.
    + apply findall_lower.
  - apply filter_not_excluded.
Qed.

Lemma steps_extract_all_links base_url st :
  steps R (_extract_all_links C base_url) st.
Proof.
  unfold _extract_all_links, anchor_pass, data_pass, content_pass,
    anchor_step, data_step.
  repeat step.
Qed.

Lemma steps_href_step selector method note i st :
  (forall u, click_target u = true -> assigned [u] method) ->
  steps R (href_step C selector method note i) st.
Proof.
  intros Hm. unfold href_step. repeat step.
  apply Hm.
  match goal with
  | Hg : (_ && click_target _)%bool = true |- _ =>
      apply andb_true_iff in Hg as [_ Hct]; exact Hct
  end.
Qed.

Lemma steps_try_interactive_clicks base_url st :
  steps R (_try_interactive_clicks C base_url) st.
Proof.
  unfold _try_interactive_clicks. step; [| repeat step].
  step; [step |].
  destruct (select_strategy (Str.lower a)); simpl.
  - unfold _handle_linkme_clicks, linkme_step. repeat step.
    apply assigned_linkme; assumption.
  - unfold _handle_linktree_clicks. repeat step.
    apply steps_href_step. apply assigned_linktree.
  - unfold _handle_generic_clicks. repeat step.
    apply steps_href_step. apply assigned_generic.
  - step.
Qed.

(** [_extract_all_links] never raises and returns its list without
    repetition. *)
Lemma extract_all_links_returns base_url st :
  exists st',
    _extract_all_links C base_url st = (Ret (list_set (links st')), st').
Proof.
  unfold _extract_all_links.
  set (body := try_except _ _).
  unfold bind, new_links, get_links, ret.
  destruct (body _) as [[[] | e] st1] eqn:E.
  - eexists; reflexivity.
  - exfalso. unfold body, try_except, add_error in E.
    match type of E with
    | (match ?b ?s with _ => _ end) = _ => destruct (b s) as [[[] | e'] st2]
    end; discriminate.
Qed.

Lemma extract_all_links_nodup base_url st l st' :
  _extract_all_links C base_url st = (Ret l, st') -> NoDup l.
Proof.
  intros H. destruct (extract_all_links_returns base_url st) as [st1 E].
  rewrite E in H. inversion H; subst. apply NoDup_nodup.
Qed.

Lemma steps_accept_cookies st : steps R (accept_cookies C) st.
Proof. unfold accept_cookies. repeat step. Qed.

Lemma steps_interactive_body bio_link st :
  steps R (interactive_body C bio_link) st.
Proof.
  unfold interactive_body.
  step; [step |]. step; [step |]. step; [apply steps_accept_cookies |].
  step; [apply steps_extract_all_links |].
  match goal with
  | E : _extract_all_links _ _ _ = _ |- _ =>
      apply extract_all_links_nodup in E; rename E into Hnd
  end.
  step.
  - repeat step. apply assigned_extraction.
    + apply nonempty_true; assumption.
    + apply NoDup_filter; exact Hnd.
    + apply Forall_forall. intros u Hu. apply filter_In in Hu as [_ Hu].
      exact Hu.
  - step; [apply steps_try_interactive_clicks |].
    step; [repeat step |].
    step; [step |].
    match goal with
    | E : get_redirects _ = _ |- _ =>
        unfold get_redirects in E; inversion E; subst; clear E
    end.
    step; [| step].
    step; [apply R_found_redirects; apply nonempty_true; assumption |].
    repeat step.
Qed.

Lemma steps_check_interactive_page bio_link st :
  steps R (_check_interactive_page C headless bio_link) st.
Proof.
  unfold _check_interactive_page.
  step; [| repeat step].
  step; [step | | step].
  do 4 (step; [step |]).
  step; [| step].
  step; [apply steps_interactive_body | repeat step].
Qed.

Lemma steps_probe_link bio_link link st :
  steps R (probe_link C bio_link link) st.
Proof.
  unfold probe_link. step; [step |].
  step; [| step].
  step; [repeat step |].
  step; [apply steps_follow_redirects |].
  repeat step. apply assigned_chain; assumption.
Qed.

Lemma steps_check_redirect_chains bio_link st :
  steps R (_check_redirect_chains C bio_link) st.
Proof.
  unfold _check_redirect_chains.
  step; [| repeat step].
  step. step; [step | | step].
  step; [step |]. step; [| step].
  step. apply steps_probe_link.
Qed.

Lemma steps_strategies bio_link st :
  steps R (strategies C headless bio_link) st.
Proof.
  unfold strategies.
  step; [apply steps_check_direct_links |].
  step; [step |].
  step; [apply steps_check_interactive_page |].
  step; [step |].
  step; [apply steps_check_redirect_chains | step].
Qed.

End Pipeline.

(** ** The call as a whole *)

Section Whole.
Context {W : Type}.
Variable C : collaborators W.
Variable headless : bool.

(** [detect_onlyfans] never raises: it returns [self.results] as the
    strategies left it, and every respected relation holds between the
    reset state and the final one. *)
Lemma detect_onlyfans_returns bio_link st :
  exists st',
    detect_onlyfans C headless bio_link st = (Ret (results st'), st')
    /\ forall R, respected R -> R (reset_state st) st'.
Proof.
  unfold detect_onlyfans.
  set (run := try_except _ _).
  assert (Hrun : forall s, exists s', run s = (Ret tt, s')
            /\ forall R, respected R -> R s s').
  { intros s.
    assert (HR : forall R, respected R -> R s (snd (run s))).
    { intros R [].
      apply (steps_try_except R);
        [apply (steps_strategies C headless R); assumption |].
      intros; apply resp_error0. }
    unfold run, try_except, add_error in *.
    destruct (strategies C headless bio_link s) as [[[] | e] s1];
      simpl in *; eexists; (split; [reflexivity | exact HR]). }
  unfold bind at 1. unfold reset_results.
  fold (reset_state st).
  destruct (Hrun (reset_state st)) as [s' [E HR]].
  exists s'. unfold bind, get_results. rewrite E. split; [reflexivity | exact HR].
Qed.

End Whole.

(** *** Consistency of the record *)

Lemma keeps_pre {W} (I : state W -> Prop) : PreOrder (keeps I).
Proof.
  split; unfold keeps; [intros st H; exact H |].
  intros a b c H1 H2 H; auto.
Qed.

Lemma assigned_nonempty urls method : assigned urls method -> urls <> [].
Proof. intros []; try assumption; discriminate. Qed.

Lemma found_consistent (urls : list string) (method : string)
  (errs dbg : list string) :
  urls <> [] -> consistent (mkResults true urls (Some method) errs dbg).
Proof.
  intros H. unfold consistent; simpl. repeat split; auto; discriminate.
Qed.

Lemma respected_consistent {W} : respected (keeps (@consistent_state W)).
Proof.
  split; unfold steps, keeps, consistent_state; simpl.
  - apply keeps_pre.
  - auto.
  - intros st evs [Hc Ha]. destruct (aliased st) eqn:E; simpl; [| auto].
    specialize (Ha eq_refl).
    assert (Hne : (onlyfans_urls (results st)
                   ++ map location (filter is_of_redirect evs))%list <> []).
    { intros H. apply app_eq_nil in H as [H _]. auto. }
    split; [| auto].
    destruct Hc as [[H1 H2] [H3 H4]].
    unfold consistent; simpl. repeat split; auto.
  - auto.
  - intros msg st H; exact H.
  - intros msg st H; exact H.
  - intros st [Hc _]. split; [exact Hc | discriminate].
  - intros urls method st Ha _. split; [| discriminate].
    apply found_consistent. eapply assigned_nonempty; eassumption.
  - intros st Hne _. split; [| auto].
    apply found_consistent; exact Hne.
Qed.

(** *** Lower case of the direct matches *)

Lemma assigned_direct_lower urls :
  assigned urls "direct_html_scan" -> Forall lower_case urls.
Proof. intros H. inversion H; subst. assumption. Qed.

Lemma respected_direct_lower {W} : respected (keeps (@direct_lower W)).
Proof.
  split; unfold steps, keeps, direct_lower; simpl.
  - apply keeps_pre.
  - auto.
  - intros st evs [Ha Hd]. destruct (aliased st) eqn:E; simpl; [| auto].
    split; [auto |]. intros H. destruct (Ha eq_refl H).
  - auto.
  - intros msg st H; exact H.
  - intros msg st H; exact H.
  - intros st [_ Hd]. split; [discriminate | exact Hd].
  - intros urls method st Ha _. split; [discriminate |].
    intros H. inversion H; subst. apply assigned_direct_lower; exact Ha.
  - intros st _ _. split; [intros _ H | intros H]; discriminate.
Qed.

(** *** The errors only grow *)

Lemma respected_errors_grow {W} : respected (@errors_grow W).
Proof.
  split; unfold steps, errors_grow; simpl.
  - split.
    + intros st. exists []. rewrite app_nil_r. reflexivity.
    + intros a b c [l1 H1] [l2 H2]. exists (l1 ++ l2)%list.
      rewrite H2, H1, app_assoc. reflexivity.
  - intros st w. exists []. rewrite app_nil_r. reflexivity.
  - intros st evs. exists []. rewrite app_nil_r.
    destruct (aliased st); reflexivity.
  - intros st l. exists []. rewrite app_nil_r. reflexivity.
  - intros msg st. exists [msg]. reflexivity.
  - intros msg st. exists []. rewrite app_nil_r. reflexivity.
  - intros st. exists []. rewrite app_nil_r. reflexivity.
  - intros urls method st _. exists []. rewrite app_nil_r. reflexivity.
  - intros st _. exists []. rewrite app_nil_r. reflexivity.
Qed.

(** ** The claims *)

(** C3: for every input and every behaviour of the collaborators,
    [detect_onlyfans] returns a record in which [has_onlyfans] is true if
    and only if [onlyfans_urls] is non-empty, if and only if
    [detection_method] is set. *)
Theorem C3_result_consistent {W} (C : collaborators W) (headless : bool)
  (bio_link : string) (st : state W) :
  exists r st',
    detect_onlyfans C headless bio_link st = (Ret r, st')
    /\ (has_onlyfans r = true <-> onlyfans_urls r <> [])
    /\ (onlyfans_urls r <> [] <-> detection_method r <> None).
Proof.
  destruct (detect_onlyfans_returns C headless bio_link st) as [st' [E HR]].
  exists (results st'), st'. split; [exact E |].
  assert (H : consistent_state st').
  { apply (HR _ respected_consistent).
    unfold consistent_state, consistent, reset_state; simpl.
    repeat split; intros H; try discriminate; destruct H; reflexivity. }
  exact (proj1 H).
Qed.

(** C10: when the record returned by [detect_onlyfans] was filled by the
    direct HTML scan, every URL in [onlyfans_urls] is lower-case: the
    matches are taken from the lower-cased page text. *)
Theorem C10_direct_urls_lower {W} (C : collaborators W) (headless : bool)
  (bio_link : string) (st : state W) (r : Results) (st' : state W) :
  detect_onlyfans C headless bio_link st = (Ret r, st') ->
  detection_method r = Some "direct_html_scan" ->
  Forall lower_case (onlyfans_urls r).
Proof.
  intros E Hm.
  destruct (detect_onlyfans_returns C headless bio_link st) as [st1 [E1 HR]].
  rewrite E1 in E. inversion E; subst.
  assert (H : direct_lower st').
  { apply (HR _ respected_direct_lower).
    unfold direct_lower, reset_state; simpl. split; discriminate. }
  exact (proj2 H Hm).
Qed.

Lemma C10_direct_urls_lower_witness :
  onlyfans_urls
    (results (snd (detect_onlyfans (Mock.world_of mixed_case_site) true
                     "https://linktr.ee/u" Mock.init)))
  = ["https://onlyfans.com/creatorname"]
  /\ Forall lower_case ["https://onlyfans.com/creatorname"].
Proof.
  split; [vm_compute; reflexivity |].
  apply (C10_direct_urls_lower (Mock.world_of mixed_case_site) true
           "https://linktr.ee/u" Mock.init
           (mkResults true ["https://onlyfans.com/creatorname"]
              (Some "direct_html_scan") []
              ["Found 1 direct OnlyFans links"])
           (mkState
              (mkResults true ["https://onlyfans.com/creatorname"]
                 (Some "direct_html_scan") []
                 ["Found 1 direct OnlyFans links"])
              [] false []
              ["client"; "GET https://linktr.ee/u"; "client.close"]));
    vm_compute; reflexivity.
Defined.



(** *** The redirect follower *)

Lemma follow_step_returns {W} (C : collaborators W) (current : string)
  (st : state W) :
  exists next,
    follow_step C current st
    = (Ret next, set_world (snd (client_head C current 10 (world st))) st).
Proof.
  unfold follow_step, try_except, bind, call, pure_call, ret.
  destruct (client_head C current 10 (world st)) as [[[code loc] | e] w];
    simpl; [| eexists; reflexivity].
  destruct (is_redirect_status code); [| eexists; reflexivity].
  destruct (truthy_opt loc); [| eexists; reflexivity].
  destruct (Str.startswith _ "/"); [| eexists; reflexivity].
  destruct (urljoin C current _); eexists; reflexivity.
Qed.

Lemma last_default {A} (l : list A) (d d' : A) :
  l <> [] -> last l d = last l d'.
Proof.
  induction l as [| x l IH]; [intros H; destruct H; reflexivity |].
  intros _. destruct l as [| y l]; [reflexivity |].
  simpl in *. apply IH. discriminate.
Qed.

Lemma follow_loop_returns {W} (C : collaborators W) (n : nat) :
  forall (current : string) (chain : list string) (st : state W),
    last chain current = current ->
    exists current' ext st' k,
      follow_loop C n current chain st
      = (Ret (current', chain ++ ext)%list, st')
      /\ last (chain ++ ext)%list current = current'
      /\ List.length ext <= n
      /\ k <= n
      /\ head_requests C k (world st) (world st')
      /\ results st' = results st.
Proof.
  induction n as [| n IH]; intros current chain st Hlast; simpl.
  - exists current, [], st, 0. rewrite app_nil_r.
    repeat split; auto. constructor.
  - destruct (follow_step_returns C current st) as [next E].
    unfold bind. rewrite E.
    set (st1 := set_world _ st).
    destruct next as [u |].
    + destruct (IH u (chain ++ [u])%list st1 (last_last chain u u))
        as [current' [ext [st' [k [E' [Hl [Hlen [Hk [Hh Hr]]]]]]]]].
      exists current', (u :: ext), st', (S k).
      rewrite <- app_assoc in E', Hl. simpl in E', Hl.
      repeat split; auto.
      * rewrite <- Hl. apply last_default.
        intros H. apply app_eq_nil in H as [_ H]. discriminate.
      * simpl; lia.
      * lia.
      * econstructor; [reflexivity | exact Hh].
    + exists current, [], st1, 1. rewrite app_nil_r.
      repeat split; auto; try (simpl; lia).
      econstructor; [reflexivity | constructor].
Qed.


Example follow_cycle :
  let run := _follow_redirects (Mock.world_of cyclic_site) "https://a.com/x"
               default_max_redirects Mock.init in
  fst run = Ret ("https://a.com/x",
                 ["https://a.com/x"; "https://a.com/x"; "https://a.com/x";
                  "https://a.com/x"; "https://a.com/x"; "https://a.com/x"])
  /\ List.length (world (snd run)) = 5.
Proof. vm_compute. split; reflexivity. Qed.

(** *** Resolution of the Location header *)

Lemma follow_step_redirect {W} (C : collaborators W) (url : string)
  (st : state W) (code : Z) (loc : string) :
  fst (client_head C url 10 (world st)) = Ret (code, Some loc) ->
  is_redirect_status code = true ->
  Str.truthy loc = true ->
  exists st1,
    (Str.startswith loc "/" = false ->
     follow_step C url st = (Ret (Some loc), st1))
    /\ (Str.startswith loc "/" = true ->
        forall u, urljoin C url loc = Ret u ->
                  follow_step C url st = (Ret (Some u), st1)).
Proof.
  intros Hh Hc Ht.
  unfold follow_step, try_except, bind, call, pure_call, ret.
  destruct (client_head C url 10 (world st)) as [r w]; simpl in Hh; subst r.
  simpl. rewrite Hc. simpl. rewrite Ht.
  exists (set_world w st). split.
  - intros Hs. rewrite Hs. reflexivity.
  - intros Hs u Hu. rewrite Hs, Hu. reflexivity.
Qed.

Lemma follow_loop_chain {W} (C : collaborators W) (n : nat) (u : string)
  (chain : list string) (st : state W) :
  exists rest,
    chain_of (follow_loop C n u (chain ++ [u])%list st)
    = (chain ++ u :: rest)%list.
Proof.
  destruct (follow_loop_returns C n u (chain ++ [u])%list st
              (last_last chain u u))
    as [current [ext [st' [k [E _]]]]].
  exists ext. unfold chain_of. rewrite E. simpl.
  rewrite <- app_assoc. reflexivity.
Qed.




Example relative_location_chain :
  fst (_follow_redirects (Mock.world_of relative_location_site)
         "https://a.com/x" 5 Mock.init)
  = Ret ("next", ["https://a.com/x"; "next"]).
Proof. vm_compute; reflexivity. Qed.

(** *** Dispatch of the click strategies *)

Lemma C7_counterexample : ~ C7_as_stated.
Proof.
  intros H. specialize (H "example.com" eq_refl eq_refl eq_refl).
  vm_compute in H. discriminate.
Qed.

(** A handler that notes the failure and answers [False] leaves nothing
    to the [try] block around the call. *)
Lemma try_except_transparent {W A} (body : M W A) (h : exn -> M W A)
  (st : state W) :
  (exists a st', body st = (Ret a, st')) -> try_except body h st = body st.
Proof. intros [a [st' E]]. unfold try_except. rewrite E. reflexivity. Qed.

Lemma run_strategy_returns {W} (C : collaborators W) (s : strategy)
  (st : state W) :
  exists b st', run_strategy C s st = (Ret b, st').
Proof.
  destruct s; simpl;
    try (apply try_except_returns; intros e st0; apply note_and_fail).
  eexists _, _. reflexivity.
Qed.

(** With the network location at hand, [_try_interactive_clicks] is the
    strategy the table selects. *)
Lemma try_interactive_clicks_runs {W} (C : collaborators W)
  (base_url domain : string) (st : state W) :
  netloc C base_url = Ret domain ->
  _try_interactive_clicks C base_url st
  = run_strategy C (select_strategy (Str.lower domain)) st.
Proof.
  intros Hn. unfold _try_interactive_clicks.
  rewrite try_except_transparent;
    rewrite (bind_run (pure_call (netloc C base_url)) _ st domain st)
      by (unfold pure_call; rewrite Hn; reflexivity).
  - reflexivity.
  - apply run_strategy_returns.
Qed.

(** C7, as the code has it: the table is read in order on the lower-cased
    network location.  A location that contains link.me selects the
    Link.me strategy; otherwise one that contains linktr.ee selects the
    Linktree strategy; otherwise one that contains beacons.ai or
    getmysocial.com selects the generic strategy, and the generic strategy
    is selected for these locations only; [_try_interactive_clicks] then
    is the selected handler.  For a location that matches no entry no
    click strategy runs: [_try_interactive_clicks] returns [False] and
    performs no operation. *)
Theorem C7_dispatch {W} (C : collaborators W) (base_url domain : string)
  (st : state W) :
  (select_strategy domain = Generic <->
   Str.contains "link.me" domain = false
   /\ Str.contains "linktr.ee" domain = false
   /\ (Str.contains "beacons.ai" domain = true
       \/ Str.contains "getmysocial.com" domain = true))
  /\ (netloc C base_url = Ret domain ->
      Str.contains "link.me" (Str.lower domain) = false ->
      Str.contains "linktr.ee" (Str.lower domain) = false ->
      Str.contains "beacons.ai" (Str.lower domain) = false ->
      Str.contains "getmysocial.com" (Str.lower domain) = false ->
      _try_interactive_clicks C base_url st = (Ret false, st))
  /\ (select_strategy domain = LinkMe <->
      Str.contains "link.me" domain = true)
  /\ (select_strategy domain = Linktree <->
      Str.contains "link.me" domain = false
      /\ Str.contains "linktr.ee" domain = true)
  /\ (select_strategy domain = NoStrategy <->
      Str.contains "link.me" domain = false
      /\ Str.contains "linktr.ee" domain = false
      /\ Str.contains "beacons.ai" domain = false
      /\ Str.contains "getmysocial.com" domain = false)
  /\ (netloc C base_url = Ret domain ->
      (Str.contains "link.me" (Str.lower domain) = true ->
       _try_interactive_clicks C base_url st = _handle_linkme_clicks C st)
      /\ (Str.contains "link.me" (Str.lower domain) = false ->
          Str.contains "linktr.ee" (Str.lower domain) = true ->
          _try_interactive_clicks C base_url st
          = _handle_linktree_clicks C st)
      /\ (Str.contains "link.me" (Str.lower domain) = false ->
          Str.contains "linktr.ee" (Str.lower domain) = false ->
          Str.contains "beacons.ai" (Str.lower domain) = true
          \/ Str.contains "getmysocial.com" (Str.lower domain) = true ->
          _try_interactive_clicks C base_url st
          = _handle_generic_clicks C st)).
Proof.
  split; [| split; [| split; [| split; [| split]]]].
  - unfold select_strategy.
    destruct (Str.contains "link.me" domain);
      destruct (Str.contains "linktr.ee" domain);
      destruct (Str.contains "beacons.ai" domain);
      destruct (Str.contains "getmysocial.com" domain); simpl;
      split; try discriminate; try tauto;
      intros [H1 [H2 [H3 | H3]]]; discriminate.
  - intros Hn H1 H2 H3 H4.
    unfold _try_interactive_clicks, try_except, bind, pure_call,
      select_strategy.
    rewrite Hn, H1, H2, H3, H4. reflexivity.
  - unfold select_strategy.
    destruct (Str.contains "link.me" domain);
      destruct (Str.contains "linktr.ee" domain);
      destruct (Str.contains "beacons.ai" domain);
      destruct (Str.contains "getmysocial.com" domain); simpl;
      split; intros H; try discriminate; reflexivity.
  - unfold select_strategy.
    destruct (Str.contains "link.me" domain);
      destruct (Str.contains "linktr.ee" domain);
      destruct (Str.contains "beacons.ai" domain);
      destruct (Str.contains "getmysocial.com" domain); simpl;
      split; try discriminate; try tauto; intros [H1 H2]; discriminate.
  - unfold select_strategy.
    destruct (Str.contains "link.me" domain);
      destruct (Str.contains "linktr.ee" domain);
      destruct (Str.contains "beacons.ai" domain);
      destruct (Str.contains "getmysocial.com" domain); simpl;
      split; try discriminate; try tauto;
      intros [H1 [H2 [H3 H4]]]; discriminate.
  - intros Hn. rewrite (try_interactive_clicks_runs C base_url domain st Hn).
    unfold select_strategy. repeat split.
    + intros H1. rewrite H1. reflexivity.
    + intros H1 H2. rewrite H1, H2. reflexivity.
    + intros H1 H2 H3. rewrite H1, H2.
      destruct H3 as [H3 | H3]; rewrite H3;
        [| rewrite orb_true_r]; reflexivity.
Qed.

Lemma C7_dispatch_witness :
  _try_interactive_clicks (Mock.world_of (Mock.static EmptyString))
    "https://example.com/u" Mock.init
  = (Ret false, Mock.init)
  /\ _try_interactive_clicks (Mock.world_of public_linktree)
       "https://linktr.ee/u" Mock.init
     = _handle_linktree_clicks (Mock.world_of public_linktree) Mock.init
  /\ _try_interactive_clicks (Mock.world_of (Mock.static EmptyString))
       "https://Beacons.AI/u" Mock.init
     = _handle_generic_clicks (Mock.world_of (Mock.static EmptyString))
         Mock.init.
Proof.
  split; [| split].
  - apply (proj1 (proj2 (C7_dispatch (Mock.world_of (Mock.static EmptyString))
                           "https://example.com/u" "example.com" Mock.init)));
      vm_compute; reflexivity.
  - apply (proj1 (proj2
             (proj2 (proj2 (proj2 (proj2 (proj2
                (C7_dispatch (Mock.world_of public_linktree)
                   "https://linktr.ee/u" "linktr.ee" Mock.init)))))
                eq_refl)));
      vm_compute; reflexivity.
  - apply (proj2 (proj2
             (proj2 (proj2 (proj2 (proj2 (proj2
                (C7_dispatch (Mock.world_of (Mock.static EmptyString))
                   "https://Beacons.AI/u" "Beacons.AI" Mock.init)))))
                eq_refl)));
      [vm_compute; reflexivity | vm_compute; reflexivity |].
    left. vm_compute; reflexivity.
Defined.

(** The Linktree handler runs on a Linktree location and stores what it
    finds there. *)
Example linktree_dispatched :
  fst (_try_interactive_clicks (Mock.world_of public_linktree)
         "https://linktr.ee/u" Mock.init) = Ret true
  /\ detection_method
       (results (snd (_try_interactive_clicks (Mock.world_of public_linktree)
                        "https://linktr.ee/u" Mock.init)))
     = Some "linktree_direct".
Proof. vm_compute. split; reflexivity. Qed.

(** *** The exclusion filter *)

(** C1 at its failing input: the Linktree strategy tests only the
    substring [/files], so a URL under [/public] is reported as a match. *)
Theorem C1_public_url_reported :
  fst (Mock.detect public_linktree "https://linktr.ee/u")
  = Ret (mkResults true ["https://onlyfans.com/public/x"]
           (Some "linktree_direct") [] ["Found OnlyFans link in Linktree"])
  /\ has_public "https://onlyfans.com/public/x" = true.
Proof. vm_compute. split; reflexivity. Qed.

Example public_redirect_captured :
  fst (Mock.detect public_redirect "https://bio.example/u")
  = Ret (mkResults true ["https://onlyfans.com/public/x"]
           (Some "redirect_capture") [] ["Captured 1 OnlyFans redirects"]).
Proof. vm_compute; reflexivity. Qed.

(** The direct scan on the same URL filters it, as does the link
    extraction test. *)
Example public_filtered_by_direct_scan :
  fst (Mock.detect (Mock.static "go to https://onlyfans.com/public/x")
         "https://bio.example/u")
  = Ret fresh_results
  /\ of_link "https://onlyfans.com/public/x" = false
  /\ click_target "https://onlyfans.com/public/x" = true.
Proof. vm_compute. repeat split; reflexivity. Qed.

(** *** Repeated matches *)

(** C8 at its failing input: a page that shows the link twice gets it
    reported twice by the direct scan. *)
Theorem C8_direct_scan_repeats :
  fst (Mock.detect twice_site "https://bio.example/u")
  = Ret (mkResults true ["https://onlyfans.com/a"; "https://onlyfans.com/a"]
           (Some "direct_html_scan") [] ["Found 2 direct OnlyFans links"])
  /\ ~ NoDup ["https://onlyfans.com/a"; "https://onlyfans.com/a"].
Proof.
  split; [vm_compute; reflexivity |].
  intros H. inversion H as [| x l Hin _]; subst. apply Hin. left; reflexivity.
Qed.

(** *** Failures of the collaborators *)

Lemma respected_interactive {W} (C : collaborators W) (headless : bool)
  (R : state W -> state W -> Prop) (bio_link : string) (st : state W) :
  respected R -> steps R (_check_interactive_page C headless bio_link) st.
Proof. intros []. apply steps_check_interactive_page; assumption. Qed.

Lemma respected_redirect_chains {W} (C : collaborators W)
  (R : state W -> state W -> Prop) (bio_link : string) (st : state W) :
  respected R -> steps R (_check_redirect_chains C bio_link) st.
Proof. intros []. apply steps_check_redirect_chains; assumption. Qed.

Lemma errors_grow_trans {W} (a b c : state W) :
  errors_grow a b -> errors_grow b c -> errors_grow a c.
Proof.
  intros [l1 H1] [l2 H2]. exists (l1 ++ l2)%list.
  rewrite H2, H1, app_assoc. reflexivity.
Qed.

Lemma errors_grow_add_error {W} (msg : string) (st : state W) :
  errors_grow st (snd (add_error msg st)).
Proof. exists [msg]. reflexivity. Qed.

(** The direct scan when its GET raises and the client closes normally. *)
Lemma direct_get_raises {W} (C : collaborators W) (bio_link : string)
  (st : state W) (e : exn) (w1 w2 w3 : W) :
  client_enter C (world st) = (Ret tt, w1) ->
  client_get C bio_link 15 w1 = (Raise e, w2) ->
  client_exit C w2 = (Ret tt, w3) ->
  _check_direct_links C bio_link st
  = (Ret false,
     snd (add_error ("Direct link check failed: " ++ e) (set_world w3 st))).
Proof.
  intros H1 H2 H3.
  unfold _check_direct_links, with_client, async_with, try_except,
    try_finally, bind, call.
  rewrite H1. simpl. rewrite H2. simpl. rewrite H3. reflexivity.
Qed.

(** The redirect probe when its GET raises and the client closes
    normally. *)
Lemma chain_get_raises {W} (C : collaborators W) (bio_link : string)
  (st : state W) (e : exn) (w1 w2 w3 : W) :
  client_enter C (world st) = (Ret tt, w1) ->
  client_get C bio_link 15 w1 = (Raise e, w2) ->
  client_exit C w2 = (Ret tt, w3) ->
  _check_redirect_chains C bio_link st
  = (Ret false,
     snd (add_error ("Redirect chain check failed: " ++ e)
            (set_world w3 st))).
Proof.
  intros H1 H2 H3.
  unfold _check_redirect_chains, with_client, async_with, try_except,
    try_finally, bind, call.
  rewrite H1. simpl. rewrite H2. simpl. rewrite H3. reflexivity.
Qed.

(** The interactive strategy when the browser cannot be launched. *)
Lemma launch_raises {W} (C : collaborators W) (headless : bool)
  (bio_link : string) (st : state W) (e : exn) (w1 w2 w3 : W) :
  playwright_enter C (world st) = (Ret tt, w1) ->
  launch C headless w1 = (Raise e, w2) ->
  playwright_exit C w2 = (Ret tt, w3) ->
  _check_interactive_page C headless bio_link st
  = (Ret false,
     snd (add_error ("Playwright setup failed: " ++ e) (set_world w3 st))).
Proof.
  intros H1 H2 H3.
  unfold _check_interactive_page, async_with, try_except, try_finally, bind,
    call.
  rewrite H1. simpl. rewrite H2. simpl. rewrite H3. reflexivity.
Qed.

(** The interactive strategy when its inner block raises: the handler of
    the block notes the failure, the browser is closed and the strategy
    answers [False]. *)
Lemma interactive_body_raises {W} (C : collaborators W) (headless : bool)
  (bio_link : string) (st st3 : state W) (e : exn) (w1 w2 w3 w4 w5 w6 : W)
  (evs : list response) :
  playwright_enter C (world st) = (Ret tt, w1) ->
  launch C headless w1 = (Ret tt, w2) ->
  new_context C w2 = (Ret tt, w3) ->
  new_page C w3 = (Ret tt, w4) ->
  interactive_body C bio_link (mkState (results st) [] false (links st) w4)
  = (Raise e, st3) ->
  browser_close C (world st3) = (Ret tt, evs, w5) ->
  playwright_exit C w5 = (Ret tt, w6) ->
  exists st4,
    _check_interactive_page C headless bio_link st = (Ret false, st4)
    /\ errors (results st4)
       = (errors (results st3)
          ++ [("Interactive page check failed: " ++ e)%string])%list.
Proof.
  intros H1 H2 H3 H4 Hb H5 H6.
  unfold _check_interactive_page, async_with, try_except, try_finally.
  rewrite (bind_run (call (playwright_enter C)) _ st tt (set_world w1 st))
    by (unfold call; rewrite H1; reflexivity).
  rewrite (bind_run (call (launch C headless)) _ (set_world w1 st) tt
             (set_world w2 st))
    by (unfold call; simpl; rewrite H2; reflexivity).
  rewrite (bind_run (call (new_context C)) _ (set_world w2 st) tt
             (set_world w3 st))
    by (unfold call; simpl; rewrite H3; reflexivity).
  rewrite (bind_run (call (new_page C)) _ (set_world w3 st) tt
             (set_world w4 st))
    by (unfold call; simpl; rewrite H4; reflexivity).
  rewrite (bind_run new_redirects _ (set_world w4 st) tt
             (mkState (results st) [] false (links st) w4))
    by reflexivity.
  rewrite Hb.
  unfold bind, add_error, ret, page_call, call, set_results; cbn [world].
  rewrite H5. cbn [world deliver set_world]. rewrite H6.
  eexists. split; [reflexivity |].
  cbn. destruct (aliased st3); reflexivity.
Qed.

(** What the final record holds of the errors noted on the way. *)
Lemma in_errors_grow {W} (msg : string) (a b : state W) :
  errors_grow a b -> In msg (errors (results a)) ->
  In msg (errors (results b)).
Proof.
  intros [l Hl] H. rewrite Hl. apply in_or_app. left. exact H.
Qed.

Lemma errors_grow_refl {W} (a : state W) : errors_grow a a.
Proof. exists []. rewrite app_nil_r. reflexivity. Qed.

Lemma detect_after_chains {W} (C : collaborators W) (headless : bool)
  (bio_link : string) (st st1 st2 st3 st' : state W) (r : Results)
  (b : bool) :
  detect_onlyfans C headless bio_link st = (Ret r, st') ->
  _check_direct_links C bio_link (reset_state st) = (Ret false, st1) ->
  _check_interactive_page C headless bio_link st1 = (Ret false, st2) ->
  _check_redirect_chains C bio_link st2 = (Ret b, st3) ->
  r = results st3.
Proof.
  intros E Hd Hi Hc.
  unfold detect_onlyfans, strategies, bind, try_except, reset_results,
    get_results, ret in E.
  fold (reset_state st) in E. rewrite Hd, Hi, Hc in E.
  inversion E; subst. reflexivity.
Qed.

Lemma detect_after_interactive {W} (C : collaborators W) (headless : bool)
  (bio_link : string) (st st1 st2 st' : state W) (r : Results) (b : bool) :
  detect_onlyfans C headless bio_link st = (Ret r, st') ->
  _check_direct_links C bio_link (reset_state st) = (Ret false, st1) ->
  _check_interactive_page C headless bio_link st1 = (Ret b, st2) ->
  exists st3, r = results st3 /\ errors_grow st2 st3.
Proof.
  intros E Hd Hi.
  pose proof (respected_redirect_chains C errors_grow bio_link st2
                respected_errors_grow) as Hc.
  unfold steps in Hc.
  unfold detect_onlyfans, strategies, bind, try_except, reset_results,
    get_results, ret in E.
  fold (reset_state st) in E. rewrite Hd, Hi in E.
  destruct b.
  - inversion E; subst. exists st'. split; [reflexivity |].
    apply errors_grow_refl.
  - destruct (_check_redirect_chains C bio_link st2) as [[b3 | e3] st3];
      simpl in Hc.
    + inversion E; subst. exists st'. split; [reflexivity | exact Hc].
    + exists (snd (add_error ("Detection failed: " ++ e3) st3)). split.
      * inversion E; subst. reflexivity.
      * refine (errors_grow_trans _ _ _ Hc _). apply errors_grow_add_error.
Qed.

Lemma detect_after_direct {W} (C : collaborators W) (headless : bool)
  (bio_link : string) (st st1 st' : state W) (r : Results) :
  detect_onlyfans C headless bio_link st = (Ret r, st') ->
  _check_direct_links C bio_link (reset_state st) = (Ret false, st1) ->
  exists st3, r = results st3 /\ errors_grow st1 st3.
Proof.
  intros E Hd.
  pose proof (respected_interactive C headless errors_grow bio_link st1
                respected_errors_grow) as Hi.
  unfold steps in Hi.
  destruct (_check_interactive_page C headless bio_link st1)
    as [[b | e] st2] eqn:Ei; simpl in Hi.
  - destruct (detect_after_interactive C headless bio_link st st1 st2 st' r b
                E Hd Ei) as [st3 [Hr Hg]].
    exists st3. split; [exact Hr | exact (errors_grow_trans _ _ _ Hi Hg)].
  - unfold detect_onlyfans, strategies, bind, try_except, reset_results,
      get_results, ret in E.
    fold (reset_state st) in E. rewrite Hd, Ei in E.
    exists (snd (add_error ("Detection failed: " ++ e) st2)). split.
    + inversion E; subst. reflexivity.
    + refine (errors_grow_trans _ _ _ Hi _). apply errors_grow_add_error.
Qed.

(** *** The handlers of the helpers *)

Lemma extract_count_raises {W} (C : collaborators W) (base_url : string)
  (st : state W) (e : exn) (evs : list response) (w : W) :
  loc_count C "a[href]" (world st) = (Raise e, evs, w) ->
  fst (_extract_all_links C base_url st) = Ret []
  /\ errors (results (snd (_extract_all_links C base_url st)))
     = (errors (results st)
        ++ [("Link extraction failed: " ++ e)%string])%list.
Proof.
  intros H.
  unfold _extract_all_links, anchor_pass, bind, try_except, new_links,
    page_call, get_links, add_error, ret. simpl.
  rewrite H. simpl. split; [reflexivity |].
  destruct (aliased st); reflexivity.
Qed.

Lemma netloc_raises {W} (C : collaborators W) (base_url : string)
  (st : state W) (e : exn) :
  netloc C base_url = Raise e ->
  fst (_try_interactive_clicks C base_url st) = Ret false
  /\ errors (results (snd (_try_interactive_clicks C base_url st)))
     = (errors (results st)
        ++ [("Interactive clicks failed: " ++ e)%string])%list.
Proof.
  intros H.
  unfold _try_interactive_clicks, try_except, bind, pure_call, add_error,
    ret.
  rewrite H. simpl. split; reflexivity.
Qed.

Lemma linkme_count_raises {W} (C : collaborators W) (st : state W) (e : exn)
  (evs : list response) (w : W) :
  loc_count C linkme_container (world st) = (Raise e, evs, w) ->
  fst (_handle_linkme_clicks C st) = Ret false
  /\ errors (results (snd (_handle_linkme_clicks C st)))
     = (errors (results st) ++ [("Link.me clicks failed: " ++ e)%string])%list.
Proof.
  intros H.
  unfold _handle_linkme_clicks, try_except, bind, page_call, add_error, ret.
  rewrite H. simpl. split; [reflexivity |].
  destruct (aliased st); reflexivity.
Qed.

Lemma linktree_count_raises {W} (C : collaborators W) (st : state W)
  (e : exn) (evs : list response) (w : W) :
  loc_count C "[data-testid*='LinkButton']" (world st) = (Raise e, evs, w) ->
  fst (_handle_linktree_clicks C st) = Ret false
  /\ errors (results (snd (_handle_linktree_clicks C st)))
     = (errors (results st)
        ++ [("Linktree clicks failed: " ++ e)%string])%list.
Proof.
  intros H.
  unfold _handle_linktree_clicks, try_except, bind, page_call, add_error,
    ret.
  rewrite H. simpl. split; [reflexivity |].
  destruct (aliased st); reflexivity.
Qed.

Lemma generic_count_raises {W} (C : collaborators W) (st : state W)
  (e : exn) (evs : list response) (w : W) :
  loc_count C ".link-button" (world st) = (Raise e, evs, w) ->
  fst (_handle_generic_clicks C st) = Ret false
  /\ errors (results (snd (_handle_generic_clicks C st)))
     = (errors (results st) ++ [("Generic clicks failed: " ++ e)%string])%list.
Proof.
  intros H.
  assert (E : _handle_generic_clicks C st
              = (Ret false,
                 snd (add_error ("Generic clicks failed: " ++ e)
                        (deliver evs (set_world w st))))).
  { unfold _handle_generic_clicks, button_selectors, try_except.
    cbn [for_each]. unfold bind, page_call. rewrite H. reflexivity. }
  rewrite E. simpl. split; [reflexivity |].
  destruct (aliased st); reflexivity.
Qed.

(** *** The handlers that note nothing *)

Section Swallowed.
Context {W : Type}.
Variable C : collaborators W.
Variable R : state W -> state W -> Prop.
Context {R_pre : PreOrder R}.
Hypothesis R_world : forall st w, R st (set_world w st).
Hypothesis R_deliver : forall st evs, R st (deliver evs st).
Hypothesis R_append : forall l st, steps R (append_links l) st.
Hypothesis R_debug : forall msg st, steps R (add_debug msg) st.
Hypothesis R_found : forall urls method st,
  steps R (set_found urls method) st.

Lemma sw_call {A} (o : op W A) st : steps R (call o) st.
Proof.
  unfold steps, call. destruct (o (world st)) as [r w]; simpl.
  apply R_world.
Qed.

Lemma sw_page_call {A} (o : page_op W A) st : steps R (page_call o) st.
Proof.
  unfold steps, page_call. destruct (o (world st)) as [[r evs] w]; simpl.
  etransitivity; [apply (R_world st w) | apply R_deliver].
Qed.

Lemma sw_read_url st : steps R (read_url C) st.
Proof. unfold steps; simpl. reflexivity. Qed.

Ltac wstep :=
  cbv zeta;
  match goal with
  | |- steps _ (bind _ _) _ => apply (steps_bind R); [| intros ? ? ?]
  | |- steps _ (try_except _ _) _ =>
      apply (steps_try_except R); [| intros ? ? ?]
  | |- steps _ (for_each _ _) _ => apply (steps_for_each R); intros ? ? ?
  | |- steps _ (ret _) _ => apply (steps_ret R)
  | |- steps _ (pure_call _) _ => apply (steps_pure_call R)
  | |- steps _ (call _) _ => apply sw_call
  | |- steps _ (page_call _) _ => apply sw_page_call
  | |- steps _ (read_url _) _ => apply sw_read_url
  | |- steps _ (append_links _) _ => apply R_append
  | |- steps _ (add_debug _) _ => apply R_debug
  | |- steps _ (set_found _ _) _ => apply R_found
  | |- steps _ (if ?b then _ else _) _ => destruct b eqn:?
  end.

Lemma sw_accept_cookies st : steps R (accept_cookies C) st.
Proof. unfold accept_cookies. repeat wstep. Qed.

Lemma sw_anchor_step base_url i st : steps R (anchor_step C base_url i) st.
Proof. unfold anchor_step. repeat wstep. Qed.

Lemma sw_data_step base_url attr i st :
  steps R (data_step C base_url attr i) st.
Proof. unfold data_step. repeat wstep. Qed.

Lemma sw_content_pass st : steps R (content_pass C) st.
Proof. unfold content_pass. repeat wstep. Qed.

Lemma sw_linkme_step selector st : steps R (linkme_step C selector) st.
Proof. unfold linkme_step. repeat wstep. Qed.

Lemma sw_href_step selector method note i st :
  steps R (href_step C selector method note i) st.
Proof. unfold href_step. repeat wstep. Qed.

Lemma sw_follow_step current st : steps R (follow_step C current) st.
Proof. unfold follow_step. repeat wstep. Qed.

Lemma sw_follow_loop n : forall current chain st,
  steps R (follow_loop C n current chain) st.
Proof.
  induction n as [| n IH]; intros current chain st; simpl.
  - wstep.
  - wstep; [apply sw_follow_step |].
    destruct a; [apply IH | wstep].
Qed.

Lemma sw_probe_link bio_link link st :
  steps R (probe_link C bio_link link) st.
Proof.
  unfold probe_link. wstep; [wstep |].
  wstep; [| wstep].
  wstep; [repeat wstep |].
  wstep; [apply sw_follow_loop |].
  repeat wstep.
Qed.

End Swallowed.

Lemma same_errors_pre {W} : PreOrder (@same_errors W).
Proof.
  split; unfold same_errors.
  - intros st. reflexivity.
  - intros a b c H1 H2. rewrite H2, H1. reflexivity.
Qed.

Lemma same_errors_world {W} (st : state W) (w : W) :
  same_errors st (set_world w st).
Proof. reflexivity. Qed.

Lemma same_errors_deliver {W} (st : state W) (evs : list response) :
  same_errors st (deliver evs st).
Proof. unfold same_errors, deliver. destruct (aliased st); reflexivity. Qed.

Lemma same_errors_append {W} (l : list string) (st : state W) :
  steps same_errors (append_links l) st.
Proof. reflexivity. Qed.

Lemma same_errors_debug {W} (msg : string) (st : state W) :
  steps same_errors (add_debug msg) st.
Proof. reflexivity. Qed.

Lemma same_errors_found {W} (urls : list string) (method : string)
  (st : state W) :
  steps same_errors (set_found urls method) st.
Proof. reflexivity. Qed.

(** A [try] block whose handler only goes on swallows its failures, when
    nothing in it notes an error. *)
Lemma swallows_handled {W A} (body : M W A) (x : A) :
  (forall st, steps same_errors (try_except body (fun _ => ret x)) st) ->
  swallows (try_except body (fun _ => ret x)).
Proof.
  intros Hs st.
  destruct (try_except_returns body (fun _ => ret x)
              (fun e st0 => ex_intro _ x (ex_intro _ st0 eq_refl)) st)
    as [a [st' E]].
  exists a, st'. split; [exact E |].
  specialize (Hs st). unfold steps, same_errors in Hs. rewrite E in Hs.
  exact Hs.
Qed.

Lemma swallows_accept_cookies {W} (C : collaborators W) :
  swallows (accept_cookies C).
Proof.
  apply swallows_handled. intros st.
  apply (sw_accept_cookies C same_errors (R_pre := same_errors_pre)
           same_errors_world same_errors_deliver).
Qed.

Lemma swallows_anchor_step {W} (C : collaborators W) (base_url : string)
  (i : nat) :
  swallows (anchor_step C base_url i).
Proof.
  apply swallows_handled. intros st.
  apply (sw_anchor_step C same_errors (R_pre := same_errors_pre)
           same_errors_world same_errors_deliver same_errors_append).
Qed.

Lemma swallows_data_step {W} (C : collaborators W) (base_url attr : string)
  (i : nat) :
  swallows (data_step C base_url attr i).
Proof.
  apply swallows_handled. intros st.
  apply (sw_data_step C same_errors (R_pre := same_errors_pre)
           same_errors_world same_errors_deliver same_errors_append).
Qed.

Lemma swallows_content_pass {W} (C : collaborators W) :
  swallows (content_pass C).
Proof.
  apply swallows_handled. intros st.
  apply (sw_content_pass C same_errors (R_pre := same_errors_pre)
           same_errors_world same_errors_deliver same_errors_append).
Qed.

Lemma swallows_linkme_step {W} (C : collaborators W) (selector : string) :
  swallows (linkme_step C selector).
Proof.
  apply swallows_handled. intros st.
  apply (sw_linkme_step C same_errors (R_pre := same_errors_pre)
           same_errors_world same_errors_deliver same_errors_debug
           same_errors_found).
Qed.

Lemma swallows_href_step {W} (C : collaborators W)
  (selector method note : string) (i : nat) :
  swallows (href_step C selector method note i).
Proof.
  apply swallows_handled. intros st.
  apply (sw_href_step C same_errors (R_pre := same_errors_pre)
           same_errors_world same_errors_deliver same_errors_debug
           same_errors_found).
Qed.

Lemma swallows_follow_redirects {W} (C : collaborators W) (url : string)
  (max_redirects : nat) :
  swallows (_follow_redirects C url max_redirects).
Proof.
  intros st. unfold _follow_redirects.
  destruct (follow_loop_returns C max_redirects url [url] st eq_refl)
    as [current [ext [st' [k [E [_ [_ [_ [_ Hr]]]]]]]]].
  eexists _, st'. split; [exact E |]. rewrite Hr. reflexivity.
Qed.

Lemma swallows_probe_link {W} (C : collaborators W) (bio_link link : string) :
  swallows (probe_link C bio_link link).
Proof.
  assert (Hs : forall st, steps same_errors (probe_link C bio_link link) st).
  { intros st.
    apply (sw_probe_link C same_errors (R_pre := same_errors_pre)
             same_errors_world same_errors_debug same_errors_found). }
  unfold probe_link in *.
  destruct (negb (Str.truthy link) || Str.startswith link "#"
            || Str.startswith link "mailto:")%bool.
  - intros st. exists false, st. split; reflexivity.
  - apply swallows_handled. exact Hs.
Qed.


Example scenario5_result :
  fst (Mock.detect scenario5 "https://bio.example/u")
  = Ret (mkResults false [] None
           ["Direct link check failed: timed out";
            "Interactive page check failed: Timeout 30000ms exceeded";
            "Redirect chain check failed: timed out"] []).
Proof. vm_compute; reflexivity. Qed.


(** The failure is met, the call still finds the link, and nothing is
    recorded in [errors]. *)
Example stale_anchor_result :
  fst (Mock.detect stale_anchor_site "https://bio.example/u")
  = Ret (mkResults true ["https://onlyfans.com/creatorname"]
           (Some "interactive_link_extraction") []
           ["Found 1 OnlyFans links via interactive extraction"])
  /\ In "get_attribute a[href] raised: stale element"
       (snd (Mock.detect stale_anchor_site "https://bio.example/u")).
Proof.
  split; [vm_compute; reflexivity |].
  vm_compute. tauto.
Qed.


(** *** The anchor pass of the link extractor *)

Section Extraction.
Context {W : Type}.
Variable C : collaborators W.
Variable R : state W -> state W -> Prop.
Context {R_pre : PreOrder R}.
Hypothesis R_world : forall st w, R st (set_world w st).
Hypothesis R_deliver : forall st evs, R st (deliver evs st).
Hypothesis R_append : forall l st, steps R (append_links l) st.

Lemma ext_page_call {A} (o : page_op W A) st : steps R (page_call o) st.
Proof.
  unfold steps, page_call. destruct (o (world st)) as [[r evs] w]; simpl.
  etransitivity; [apply (R_world st w) | apply R_deliver].
Qed.

Ltac estep :=
  cbv zeta;
  match goal with
  | |- steps _ (bind _ _) _ => apply (steps_bind R); [| intros ? ? ?]
  | |- steps _ (try_except _ _) _ =>
      apply (steps_try_except R); [| intros ? ? ?]
  | |- steps _ (for_each _ _) _ => apply (steps_for_each R); intros ? ? ?
  | |- steps _ (ret _) _ => apply (steps_ret R)
  | |- steps _ (pure_call _) _ => apply (steps_pure_call R)
  | |- steps _ (page_call _) _ => apply ext_page_call
  | |- steps _ (append_links _) _ => apply R_append
  | |- steps _ (if ?b then _ else _) _ => destruct b eqn:?
  end.

Lemma ext_anchor_step base_url i st : steps R (anchor_step C base_url i) st.
Proof. unfold anchor_step. repeat estep. Qed.

Lemma ext_data_pass base_url st : steps R (data_pass C base_url) st.
Proof. unfold data_pass, data_step. repeat estep. Qed.

Lemma ext_content_pass st : steps R (content_pass C) st.
Proof. unfold content_pass. repeat estep. Qed.

End Extraction.

Lemma anchor_step_returns {W} (C : collaborators W) (base_url : string)
  (i : nat) (st : state W) :
  fst (anchor_step C base_url i st) = Ret false.
Proof.
  unfold anchor_step, try_except, bind, page_call, pure_call, append_links,
    ret.
  destruct (loc_get_attribute C "a[href]" i "href" (world st))
    as [[[href | e] evs] w]; simpl; [| reflexivity].
  destruct (truthy_opt href); simpl; [| reflexivity].
  destruct (Str.startswith _ "/"); simpl.
  - destruct (urljoin C base_url _); reflexivity.
  - destruct (Str.startswith _ "http"); reflexivity.
Qed.

(** What one turn of the anchor loop adds for an anchor whose href the
    page reports. *)
Lemma anchor_step_adds {W} (C : collaborators W) (base_url : string)
  (i : nat) (href : string) (st : state W) :
  fst (fst (loc_get_attribute C "a[href]" i "href" (world st)))
  = Ret (Some href) ->
  Str.truthy href = true ->
  (Str.startswith href "/" = true ->
   forall u, urljoin C base_url href = Ret u ->
             has_link u (snd (anchor_step C base_url i st)))
  /\ (Str.startswith href "/" = false ->
      Str.startswith href "http" = true ->
      has_link href (snd (anchor_step C base_url i st))).
Proof.
  intros Ha Ht.
  unfold anchor_step, try_except, bind, page_call, pure_call, append_links,
    ret, has_link.
  destruct (loc_get_attribute C "a[href]" i "href" (world st))
    as [[r evs] w]; simpl in Ha; subst r. simpl. rewrite Ht. split.
  - intros Hs u Hu. rewrite Hs, Hu. simpl.
    apply in_or_app. right. left. reflexivity.
  - intros Hs Hh. rewrite Hs, Hh. simpl.
    apply in_or_app. right. left. reflexivity.
Qed.

Lemma keeps_link_world {W} (u : string) (st : state W) (w : W) :
  keeps (has_link u) st (set_world w st).
Proof. unfold keeps, has_link; simpl; auto. Qed.

Lemma keeps_link_deliver {W} (u : string) (st : state W) evs :
  keeps (has_link u) st (deliver evs st).
Proof. unfold keeps, has_link; simpl; auto. Qed.

Lemma keeps_link_append {W} (u : string) l (st : state W) :
  steps (keeps (has_link u)) (append_links l) st.
Proof.
  unfold steps, keeps, has_link; simpl. intros H.
  apply in_or_app. left. exact H.
Qed.

(** A loop of anchor turns keeps what one of its turns added. *)
Lemma anchor_loop_adds {W} (C : collaborators W) (base_url u : string)
  (i : nat) (l : list nat) :
  In i l ->
  (forall st, has_link u (snd (anchor_step C base_url i st))) ->
  forall st,
    fst (for_each l (anchor_step C base_url) st) = Ret false
    /\ has_link u (snd (for_each l (anchor_step C base_url) st)).
Proof.
  intros Hi Hadd.
  assert (Hkeep : forall (l : list nat) st,
             fst (for_each l (anchor_step C base_url) st) = Ret false
             /\ (has_link u st ->
                 has_link u (snd (for_each l (anchor_step C base_url) st)))).
  { clear. intros l. induction l as [| x l IH]; intros st; simpl.
    - split; [reflexivity | auto].
    - unfold bind.
      pose proof (anchor_step_returns C base_url x st) as Hr.
      pose proof (ext_anchor_step C (keeps (has_link u))
                    (R_pre := keeps_pre _)
                    (keeps_link_world u) (keeps_link_deliver u)
                    (keeps_link_append u) base_url x st) as Hk.
      unfold steps in Hk.
      destruct (anchor_step C base_url x st) as [r st1]; simpl in *.
      subst r. destruct (IH st1) as [H1 H2].
      split; [exact H1 |]. intros H. apply H2. apply Hk. exact H. }
  induction l as [| x l IH]; intros st; [destruct Hi |].
  simpl. unfold bind.
  pose proof (anchor_step_returns C base_url x st) as Hr.
  destruct Hi as [Hx | Hi].
  - subst x. specialize (Hadd st).
    destruct (anchor_step C base_url i st) as [r st1]; simpl in *.
    subst r. destruct (Hkeep l st1) as [H1 H2]. split; auto.
  - destruct (anchor_step C base_url x st) as [r st1]; simpl in *.
    subst r. apply (IH Hi st1).
Qed.

Lemma anchor_pass_adds {W} (C : collaborators W) (base_url u : string)
  (n i : nat) :
  (forall w, fst (fst (loc_count C "a[href]" w)) = Ret n) ->
  i < Nat.min n 100 ->
  (forall st, has_link u (snd (anchor_step C base_url i st))) ->
  forall st, exists st',
    anchor_pass C base_url st = (Ret tt, st') /\ has_link u st'.
Proof.
  intros Hn Hi Hadd st.
  unfold anchor_pass, bind, page_call.
  specialize (Hn (world st)).
  destruct (loc_count C "a[href]" (world st)) as [[r evs] w];
    simpl in Hn; subst r.
  assert (Hin : In i (seq 0 (Nat.min n 100))) by (apply in_seq; lia).
  destruct (anchor_loop_adds C base_url u i _ Hin Hadd
              (deliver evs (set_world w st))) as [H1 H2].
  destruct (for_each (seq 0 (Nat.min n 100)) (anchor_step C base_url)
              (deliver evs (set_world w st))) as [r st1]; simpl in *.
  subst r. exists st1. split; [reflexivity | exact H2].
Qed.

Lemma extract_keeps_anchor {W} (C : collaborators W) (base_url u : string)
  (n i : nat) :
  (forall w, fst (fst (loc_count C "a[href]" w)) = Ret n) ->
  i < Nat.min n 100 ->
  (forall st, has_link u (snd (anchor_step C base_url i st))) ->
  forall st, exists l st',
    _extract_all_links C base_url st = (Ret l, st') /\ In u l.
Proof.
  intros Hn Hi Hadd st.
  unfold _extract_all_links.
  rewrite (bind_run new_links _ st tt _ eq_refl).
  set (st0 := mkState _ _ _ [] _).
  destruct (anchor_pass_adds C base_url u n i Hn Hi Hadd st0)
    as [st1 [Ea Hl1]].
  pose proof (steps_bind (keeps (has_link u)) (R_pre := keeps_pre _)
                (data_pass C base_url) (fun _ => content_pass C) st1
                (ext_data_pass C _ (R_pre := keeps_pre _)
                   (keeps_link_world u) (keeps_link_deliver u)
                   (keeps_link_append u) base_url st1)
                (fun _ st' _ =>
                   ext_content_pass C _ (R_pre := keeps_pre _)
                     (keeps_link_world u) (keeps_link_deliver u)
                     (keeps_link_append u) st')) as Hrest.
  unfold steps, keeps in Hrest. specialize (Hrest Hl1).
  set (body := try_except _ _).
  assert (Ht : exists st2, body st0 = (Ret tt, st2) /\ has_link u st2).
  { unfold body, try_except. rewrite (bind_run _ _ _ _ _ Ea).
    destruct ((data_pass C base_url;;; content_pass C) st1)
      as [[[] | e] st2]; simpl in *.
    - exists st2. split; [reflexivity | exact Hrest].
    - eexists. split; [reflexivity | exact Hrest]. }
  destruct Ht as [st2 [Et Hl2]].
  rewrite (bind_run body _ st0 tt st2 Et).
  exists (list_set (links st2)), st2. split; [reflexivity |].
  apply nodup_In. exact Hl2.
Qed.

(** *** What the three passes add, exactly *)

Lemma for_each_links {W A} (body : A -> M W bool) (kept : A -> list string) :
  (forall x st,
      fst (body x st) = Ret false
      /\ links (snd (body x st)) = (links st ++ kept x)%list) ->
  forall l st,
    fst (for_each l body st) = Ret false
    /\ links (snd (for_each l body st)) = (links st ++ flat_map kept l)%list.
Proof.
  intros Hb l. induction l as [| x l IH]; intros st; simpl.
  - rewrite app_nil_r. split; reflexivity.
  - unfold bind. destruct (Hb x st) as [H1 H2].
    destruct (body x st) as [r st1]; simpl in *. subst r.
    destruct (IH st1) as [H3 H4]. split; [exact H3 |].
    rewrite H4, H2, app_assoc. reflexivity.
Qed.

Lemma falsy_empty (s : string) : Str.truthy s = false -> s = EmptyString.
Proof. destruct s; [reflexivity | discriminate]. Qed.

(** One turn of the anchor loop appends what [anchor_kept] tells, and
    nothing else. *)
Lemma anchor_step_links {W} (C : collaborators W) (base_url : string)
  (i : nat) (st : state W) :
  links (snd (anchor_step C base_url i st))
  = (links st
     ++ anchor_kept C base_url
          (fst (fst (loc_get_attribute C "a[href]" i "href" (world st)))))%list.
Proof.
  unfold anchor_step, try_except, bind, page_call, pure_call, append_links,
    ret, anchor_kept.
  destruct (loc_get_attribute C "a[href]" i "href" (world st))
    as [[[[h |] | e] evs] w]; cbn [fst snd truthy_opt];
    try (cbn; rewrite app_nil_r; reflexivity).
  destruct (Str.truthy h) eqn:Ht.
  - destruct (Str.startswith h "/").
    + destruct (urljoin C base_url h); cbn; rewrite ?app_nil_r; reflexivity.
    + destruct (Str.startswith h "http"); cbn; rewrite ?app_nil_r;
        reflexivity.
  - rewrite (falsy_empty h Ht). cbn. rewrite app_nil_r. reflexivity.
Qed.

Lemma data_step_links {W} (C : collaborators W) (base_url attr : string)
  (i : nat) (st : state W) :
  fst (data_step C base_url attr i st) = Ret false
  /\ links (snd (data_step C base_url attr i st))
     = (links st
        ++ data_kept C base_url
             (fst (fst (loc_get_attribute C ("[" ++ attr ++ "]") i attr
                          (world st)))))%list.
Proof.
  unfold data_step, try_except, bind, page_call, pure_call, append_links,
    ret, data_kept.
  destruct (loc_get_attribute C ("[" ++ attr ++ "]") i attr (world st))
    as [[[[v |] | e] evs] w]; cbn [fst snd truthy_opt];
    try (cbn; rewrite app_nil_r; split; reflexivity).
  destruct (Str.truthy v) eqn:Ht.
  - destruct (Str.contains "http" v || Str.contains "/" v)%bool;
      [| cbn; rewrite app_nil_r; split; reflexivity].
    destruct (Str.startswith v "http");
      [cbn; split; reflexivity |].
    destruct (Str.startswith v "/");
      [| cbn; rewrite app_nil_r; split; reflexivity].
    destruct (urljoin C base_url v); cbn; rewrite ?app_nil_r;
      split; reflexivity.
  - rewrite (falsy_empty v Ht). cbn. rewrite app_nil_r. split; reflexivity.
Qed.

Section StaticPage.
Context {W : Type}.
Variable C : collaborators W.
Variable base_url : string.
Variable count : string -> nat.
Variable attribute : string -> nat -> string -> outcome (option string).
Variable text : outcome string.
Hypothesis page : static_page C count attribute text.

Lemma anchor_pass_links st :
  exists st',
    anchor_pass C base_url st = (Ret tt, st')
    /\ links st' = (links st ++ anchor_links C base_url count attribute)%list.
Proof.
  destruct page as [Hc [Ha _]].
  unfold anchor_pass, bind, page_call. specialize (Hc "a[href]" (world st)).
  destruct (loc_count C "a[href]" (world st)) as [[r evs] w];
    simpl in Hc; subst r.
  destruct (for_each_links (anchor_step C base_url)
              (fun i => anchor_kept C base_url (attribute "a[href]" i "href"))
              (fun i st0 =>
                 conj (anchor_step_returns C base_url i st0)
                   (eq_trans (anchor_step_links C base_url i st0)
                      (f_equal (fun a => (links st0
                                          ++ anchor_kept C base_url a)%list)
                         (Ha "a[href]" i "href" (world st0)))))
              (seq 0 (Nat.min (count "a[href]") 100))
              (deliver evs (set_world w st))) as [H1 H2].
  destruct (for_each _ _ _) as [r st1]; simpl in H1, H2. subst r.
  exists st1. split; [reflexivity | exact H2].
Qed.

Lemma data_pass_links st :
  exists st',
    data_pass C base_url st = (Ret tt, st')
    /\ links st' = (links st ++ data_links C base_url count attribute)%list.
Proof.
  destruct page as [Hc [Ha _]].
  unfold data_pass, data_links.
  set (body := fun attr : string => bind _ _).
  assert (Hb : forall attr st0,
             fst (body attr st0) = Ret false
             /\ links (snd (body attr st0))
                = (links st0
                   ++ flat_map
                        (fun i => data_kept C base_url
                                    (attribute ("[" ++ attr ++ "]") i attr))
                        (seq 0 (Nat.min (count ("[" ++ attr ++ "]")) 50)))%list).
  { intros attr st0. unfold body, bind, page_call.
    specialize (Hc ("[" ++ attr ++ "]") (world st0)).
    destruct (loc_count C ("[" ++ attr ++ "]") (world st0)) as [[r evs] w];
      simpl in Hc; subst r.
    apply (for_each_links (data_step C base_url attr)
             (fun i => data_kept C base_url
                         (attribute ("[" ++ attr ++ "]") i attr))
             (fun i st1 =>
                conj (proj1 (data_step_links C base_url attr i st1))
                  (eq_trans (proj2 (data_step_links C base_url attr i st1))
                     (f_equal (fun a => (links st1
                                         ++ data_kept C base_url a)%list)
                        (Ha ("[" ++ attr ++ "]") i attr (world st1)))))
             (seq 0 (Nat.min (count ("[" ++ attr ++ "]")) 50))
             (deliver evs (set_world w st0))). }
  destruct (for_each_links body _ Hb data_attrs st) as [H1 H2].
  unfold bind. destruct (for_each data_attrs body st) as [r st1];
    simpl in H1, H2. subst r.
  exists st1. split; [reflexivity | exact H2].
Qed.

Lemma content_pass_links st :
  exists st',
    content_pass C st = (Ret tt, st')
    /\ links st' = (links st ++ markup_links text)%list.
Proof.
  destruct page as [_ [_ Ht]].
  unfold content_pass, try_except, bind, page_call, append_links, ret,
    markup_links.
  specialize (Ht (world st)).
  destruct (page_content C (world st)) as [[r evs] w]; simpl in Ht; subst r.
  destruct text as [page_text | e]; eexists; (split; [reflexivity |]); simpl;
    rewrite ?app_nil_r; reflexivity.
Qed.

Lemma extract_all_links_exact st :
  exists st',
    _extract_all_links C base_url st
    = (Ret (list_set (anchor_links C base_url count attribute
                      ++ data_links C base_url count attribute
                      ++ markup_links text)), st').
Proof.
  unfold _extract_all_links.
  rewrite (bind_run new_links _ st tt _ eq_refl).
  set (st0 := mkState _ _ _ [] _).
  destruct (anchor_pass_links st0) as [st1 [E1 L1]].
  destruct (data_pass_links st1) as [st2 [E2 L2]].
  destruct (content_pass_links st2) as [st3 [E3 L3]].
  assert (Eb : try_except
                 (anchor_pass C base_url;;; data_pass C base_url;;;
                  content_pass C)
                 (fun e => add_error ("Link extraction failed: " ++ e)) st0
               = (Ret tt, st3)).
  { unfold try_except.
    rewrite (bind_run _ _ _ _ _ E1), (bind_run _ _ _ _ _ E2), E3.
    reflexivity. }
  rewrite (bind_run _ _ _ _ _ Eb).
  exists st3. unfold bind, get_links, ret. rewrite L3, L2, L1.
  unfold st0; simpl. rewrite <- app_assoc. reflexivity.
Qed.

End StaticPage.



Example document_relative_dropped :
  fst (_extract_all_links (Mock.world_of (one_anchor "about/me"))
         "https://bio.example/u" Mock.init) = Ret [].
Proof. vm_compute; reflexivity. Qed.


(** *** Where the exclusion filter is applied *)

Lemma click_target_no_files u : click_target u = true -> no_files u.
Proof.
  unfold click_target, no_files. intros H.
  apply andb_true_iff in H as [_ H]. apply negb_true_iff in H. exact H.
Qed.

Lemma of_link_filtered u : of_link u = true -> no_files u /\ no_public u.
Proof.
  unfold of_link, no_files, no_public. intros H.
  apply andb_true_iff in H as [H H2]. apply andb_true_iff in H as [_ H1].
  apply negb_true_iff in H1, H2. split; assumption.
Qed.

Lemma assigned_no_files urls method :
  assigned urls method -> Forall no_files urls.
Proof.
  intros [l _ _ H | l _ _ H | u H | u H | u H | u H].
  - eapply Forall_impl; [| exact H]. unfold excluded, no_files.
    intros u Hu. apply orb_false_iff in Hu as [Hu _]. exact Hu.
  - eapply Forall_impl; [| exact H]. intros u Hu.
    apply (proj1 (of_link_filtered u Hu)).
  - constructor; [apply click_target_no_files; exact H | constructor].
  - constructor; [apply click_target_no_files; exact H | constructor].
  - constructor; [apply click_target_no_files; exact H | constructor].
  - constructor; [apply (proj1 (of_link_filtered u H)) | constructor].
Qed.

Lemma assigned_no_public urls method :
  assigned urls method -> filters_public method -> Forall no_public urls.
Proof.
  intros [l _ _ H | l _ _ H | u H | u H | u H | u H] Hm.
  - eapply Forall_impl; [| exact H]. unfold excluded, no_public.
    intros u Hu. apply orb_false_iff in Hu as [_ Hu]. exact Hu.
  - eapply Forall_impl; [| exact H]. intros u Hu.
    apply (proj2 (of_link_filtered u Hu)).
  - destruct Hm as [Hm | [Hm | Hm]]; discriminate.
  - destruct Hm as [Hm | [Hm | Hm]]; discriminate.
  - destruct Hm as [Hm | [Hm | Hm]]; discriminate.
  - constructor; [apply (proj2 (of_link_filtered u H)) | constructor].
Qed.

Lemma delivered_no_files evs :
  Forall no_files (map location (filter is_of_redirect evs)).
Proof.
  apply Forall_forall. intros u Hu. apply in_map_iff in Hu as [r [Hr Hin]].
  apply filter_In in Hin as [_ Hin]. subst u.
  unfold is_of_redirect in Hin. apply andb_true_iff in Hin as [_ Hin].
  apply negb_true_iff in Hin. exact Hin.
Qed.

Lemma respected_filtered {W} : respected (keeps (@filtered W)).
Proof.
  split; unfold steps, keeps, filtered; simpl.
  - apply keeps_pre.
  - auto.
  - intros st evs [Hu [Hr Hp]]. split; [| split].
    + destruct (aliased st); simpl; [| exact Hu].
      apply Forall_app. split; [exact Hu | apply delivered_no_files].
    + apply Forall_app. split; [exact Hr | apply delivered_no_files].
    + intros method Hm Hf. destruct (aliased st) eqn:Ea; simpl in *.
      * destruct (Hp method Hm Hf) as [Hc _]. discriminate.
      * apply (Hp method Hm Hf).
  - auto.
  - intros msg st H; exact H.
  - intros msg st H; exact H.
  - intros st [Hu [_ Hp]]. split; [exact Hu | split; [constructor |]].
    intros method Hm Hf. split; [reflexivity |]. apply (Hp method Hm Hf).
  - intros urls method st Ha [_ [Hr _]].
    split; [eapply assigned_no_files; eassumption | split; [exact Hr |]].
    intros m Hm Hf. inversion Hm; subst. split; [reflexivity |].
    eapply assigned_no_public; eassumption.
  - intros st _ [_ [Hr _]]. split; [exact Hr | split; [exact Hr |]].
    intros m Hm [Hf | [Hf | Hf]]; inversion Hm; subst; discriminate.
Qed.

(** What holds of C1 on every path: no URL that contains [/files] is ever
    reported, and the direct scan, the link extraction and the redirect
    probe report no URL that contains [/public] either. *)
Lemma exclusion_applied {W} (C : collaborators W) (headless : bool)
  (bio_link : string) (w : W) (r : Results) (st' : state W) :
  detect_onlyfans_in_bio_link C headless bio_link w = (Ret r, st') ->
  Forall no_files (onlyfans_urls r)
  /\ (forall method,
         detection_method r = Some method -> filters_public method ->
         Forall no_public (onlyfans_urls r)).
Proof.
  unfold detect_onlyfans_in_bio_link. intros E.
  destruct (detect_onlyfans_returns C headless bio_link (new_detector w))
    as [st1 [E1 HR]].
  rewrite E1 in E. inversion E; subst.
  assert (H : filtered st').
  { apply (HR _ respected_filtered).
    unfold filtered, reset_state, new_detector; simpl.
    split; [constructor | split; [constructor | discriminate]]. }
  destruct H as [Hu [_ Hp]]. split; [exact Hu |].
  intros method Hm Hf. apply (Hp method Hm Hf).
Qed.

(** ** Soundness of the matcher *)

Lemma str_app_assoc (a b c : string) : ((a ++ b) ++ c = a ++ (b ++ c))%string.
Proof. induction a as [| x a IH]; simpl; [reflexivity | rewrite IH; reflexivity]. Qed.

Lemma str_app_nil_r (a : string) : (a ++ EmptyString)%string = a.
Proof. induction a as [| x a IH]; simpl; [reflexivity | rewrite IH; reflexivity]. Qed.

Lemma str_app_length (a b : string) :
  String.length (a ++ b) = String.length a + String.length b.
Proof. induction a as [| x a IH]; simpl; [reflexivity | rewrite IH; reflexivity]. Qed.

Lemma take_app (a b : string) : Str.take (String.length a) (a ++ b) = a.
Proof. induction a as [| x a IH]; simpl; [destruct b; reflexivity | rewrite IH; reflexivity]. Qed.

Lemma star_sound {R} (p : ascii -> bool) (s : string) (cap : option string)
  (k : option string -> string -> option R) (res : R) :
  Re.star p s cap k = Some res ->
  exists pre rest,
    s = (pre ++ rest)%string /\ Str.all p pre = true /\ k cap rest = Some res.
Proof.
  induction s as [| c s IH]; simpl.
  - intros H. exists EmptyString, EmptyString. auto.
  - destruct (p c) eqn:Hc.
    + destruct (Re.star p s cap k) as [r |] eqn:E.
      * intros H; inversion H; subst.
        destruct (IH eq_refl) as [pre [rest [Hs [Hp Hk]]]].
        exists (String c pre), rest. simpl. rewrite Hc, Hp, <- Hs. auto.
      * intros H. exists EmptyString, (String c s). auto.
    + intros H. exists EmptyString, (String c s). auto.
Qed.

Lemma rmatch_sound {R} (ic : bool) (r : Re.regex) :
  forall (s : string) (cap : option string)
         (k : option string -> string -> option R) (res : R),
    Re.rmatch ic r s cap k = Some res ->
    exists pre rest cap',
      s = (pre ++ rest)%string /\ lang ic r pre /\ k cap' rest = Some res
      /\ (has_group r = false -> cap' = cap).
Proof.
  induction r as [c | q | q | q | r IH | r1 IH1 r2 IH2 | r IH];
    intros s cap k res; simpl.
  - destruct s as [| x s]; [discriminate |].
    destruct (Re.lit_eq ic c x) eqn:E; [| discriminate].
    intros H. exists (String x EmptyString), s, cap.
    repeat split; auto. constructor; exact E.
  - destruct s as [| x s]; [discriminate |].
    destruct (q x) eqn:E; [| discriminate].
    intros H. exists (String x EmptyString), s, cap.
    repeat split; auto. constructor; exact E.
  - intros H. apply star_sound in H as [pre [rest [Hs [Hp Hk]]]].
    exists pre, rest, cap. repeat split; auto. constructor; exact Hp.
  - destruct s as [| x s]; [discriminate |].
    destruct (q x) eqn:E; [| discriminate].
    intros H. apply star_sound in H as [pre [rest [Hs [Hp Hk]]]].
    exists (String x pre), rest, cap. simpl. rewrite <- Hs.
    repeat split; auto. constructor; assumption.
  - destruct (Re.rmatch ic r s cap k) as [r0 |] eqn:E.
    + intros H; inversion H; subst.
      destruct (IH _ _ _ _ E) as [pre [rest [cap' [Hs [Hl [Hk Hc]]]]]].
      exists pre, rest, cap'. repeat split; auto. constructor; exact Hl.
    + intros H. exists EmptyString, s, cap. repeat split; auto. constructor.
  - intros H.
    destruct (IH1 _ _ _ _ H) as [pre1 [rest1 [cap1 [Hs1 [Hl1 [Hk1 Hc1]]]]]].
    destruct (IH2 _ _ _ _ Hk1) as [pre2 [rest2 [cap2 [Hs2 [Hl2 [Hk2 Hc2]]]]]].
    exists (pre1 ++ pre2)%string, rest2, cap2.
    rewrite str_app_assoc, <- Hs2. repeat split; auto.
    + constructor; assumption.
    + intros Hg. apply orb_false_iff in Hg as [Hg1 Hg2].
      rewrite (Hc2 Hg2). apply (Hc1 Hg1).
  - intros H.
    destruct (IH _ _ _ _ H) as [pre [rest [cap' [Hs [Hl [Hk _]]]]]].
    exists pre, rest, (Some (Str.take (String.length s - String.length rest) s)).
    repeat split; auto; [constructor; exact Hl | discriminate].
Qed.

(** A match without a group is reported as the matched text itself. *)
Lemma match_here_sound (ic : bool) (r : Re.regex) (s : string)
  (m : nat * option string) :
  has_group r = false ->
  Re.match_here ic r s = Some m -> lang ic r (Re.item s m).
Proof.
  intros Hg H. unfold Re.match_here in H.
  apply rmatch_sound in H as [pre [rest [cap' [Hs [Hl [Hk Hc]]]]]].
  inversion Hk; subst. rewrite (Hc Hg). unfold Re.item; simpl.
  rewrite str_app_length, Nat.add_sub, take_app. exact Hl.
Qed.

Lemma findall_from_sound (ic : bool) (r : Re.regex) (s : string) :
  has_group r = false ->
  forall skip, Forall (lang ic r) (Re.findall_from ic r s skip).
Proof.
  intros Hg. induction s as [| c s IH]; intros skip; simpl.
  - destruct skip; [| constructor].
    destruct (Re.match_here ic r EmptyString) as [m |] eqn:E; constructor.
    + apply (match_here_sound ic r EmptyString m Hg E).
    + constructor.
  - destruct skip; [| apply IH].
    destruct (Re.match_here ic r (String c s)) as [m |] eqn:E; [| apply IH].
    constructor; [apply (match_here_sound ic r _ m Hg E) | apply IH].
Qed.

(** ** What a match of the detector's patterns looks like *)

Lemma lower_app (a b : string) :
  Str.lower (a ++ b) = (Str.lower a ++ Str.lower b)%string.
Proof. induction a as [| x a IH]; simpl; [reflexivity | rewrite IH; reflexivity]. Qed.

Lemma startswith_app (n c : string) : Str.startswith (n ++ c) n = true.
Proof.
  induction n as [| x n IH]; simpl; [destruct c; reflexivity |].
  rewrite Ascii.eqb_refl, IH. reflexivity.
Qed.

Lemma contains_app_r (n a b : string) :
  Str.contains n b = true -> Str.contains n (a ++ b) = true.
Proof.
  intros H. induction a as [| x a IH]; simpl; [exact H |].
  rewrite IH. apply orb_true_r.
Qed.

Lemma startswith_contains (n hay : string) :
  Str.startswith hay n = true -> Str.contains n hay = true.
Proof. intros H. destruct hay; cbn [Str.contains]; rewrite H; reflexivity. Qed.

Lemma contains_mid (n a c : string) : Str.contains n (a ++ n ++ c) = true.
Proof.
  apply contains_app_r. apply startswith_contains. apply startswith_app.
Qed.

Lemma lit_eq_lower (c x : ascii) :
  Re.lit_eq true c x = true -> Str.lower_char x = Str.lower_char c.
Proof. unfold Re.lit_eq. intros H. apply Ascii.eqb_eq in H. auto. Qed.

(** A case-insensitive literal matches exactly the texts that lower to
    it. *)
Lemma lang_lits (p : string) (r : Re.regex) :
  forall s, lang true (Re.lits p r) s ->
  exists a b,
    s = (a ++ b)%string /\ Str.lower a = Str.lower p /\ lang true r b.
Proof.
  induction p as [| c p IH]; intros s H; simpl in *.
  - exists EmptyString, s. auto.
  - inversion H as [| | | | | | r1 r2 s1 s2 H1 H2 |]; subst.
    inversion H1 as [c' x Hx | | | | | | |]; subst.
    destruct (IH _ H2) as [a [b [Hs [Ha Hb]]]]. subst s2.
    exists (String x a), b. simpl.
    rewrite (lit_eq_lower _ _ Hx), Ha. auto.
Qed.

Lemma match_here_lang (ic : bool) (r : Re.regex) (s : string)
  (m : nat * option string) :
  Re.match_here ic r s = Some m ->
  exists pre rest, s = (pre ++ rest)%string /\ lang ic r pre.
Proof.
  unfold Re.match_here. intros H.
  apply rmatch_sound in H as [pre [rest [cap' [Hs [Hl _]]]]].
  exists pre, rest. auto.
Qed.

Lemma search_sound (ic : bool) (r : Re.regex) (s : string) :
  Re.search ic r s = true ->
  exists a pre rest, s = (a ++ pre ++ rest)%string /\ lang ic r pre.
Proof.
  induction s as [| c s IH]; simpl.
  - destruct (Re.match_here ic r EmptyString) as [m |] eqn:E; [| discriminate].
    intros _. apply match_here_lang in E as [pre [rest [Hs Hl]]].
    exists EmptyString, pre, rest. auto.
  - destruct (Re.match_here ic r (String c s)) as [m |] eqn:E.
    + intros _. apply match_here_lang in E as [pre [rest [Hs Hl]]].
      exists EmptyString, pre, rest. auto.
    + intros H. destruct (IH H) as [a [pre [rest [Hs Hl]]]].
      exists (String c a), pre, rest. simpl. rewrite Hs. auto.
Qed.

Lemma lang_of_regex (s : string) :
  lang true OF_REGEX s -> Str.lower s = "onlyfans.com".
Proof.
  intros H. unfold OF_REGEX in H.
  apply lang_lits in H as [a [b [Hs [Ha Hb]]]].
  inversion Hb as [c x Hx | | | | | | |]; subst.
  rewrite lower_app, Ha. simpl. rewrite (lit_eq_lower _ _ Hx). reflexivity.
Qed.

Lemma search_matches_target (u : string) :
  Re.search true OF_REGEX u = true -> matches_target u.
Proof.
  intros H. apply search_sound in H as [a [pre [rest [Hs Hl]]]].
  apply lang_of_regex in Hl. unfold matches_target. subst u.
  rewrite !lower_app, Hl. apply contains_mid.
Qed.

Lemma of_link_matches_target (u : string) :
  of_link u = true -> matches_target u.
Proof.
  unfold of_link. intros H.
  apply andb_true_iff in H as [H _]. apply andb_true_iff in H as [H _].
  apply search_matches_target; exact H.
Qed.

Lemma click_target_matches_target (u : string) :
  click_target u = true -> matches_target u.
Proof.
  unfold click_target, matches_target. intros H.
  apply andb_true_iff in H as [H _]. exact H.
Qed.

(** A match of the URL pattern, lower-cased: the scheme, a run of URL
    characters, the signature, a run of URL characters. *)
Lemma lang_url_re (u : string) :
  lang true URL_RE u ->
  exists o m1 m2,
    Str.lower u
    = ("http" ++ o ++ "://" ++ Str.lower m1 ++ "onlyfans.com" ++ Str.lower m2)%string
    /\ (o = EmptyString \/ o = "s")
    /\ Str.all url_char m1 = true /\ Str.all url_char m2 = true.
Proof.
  intros H. unfold URL_RE in H.
  apply (lang_lits "http") in H as [a1 [b1 [Hs1 [Ha1 H]]]].
  inversion H as [| | | | | | r1 r2 o b2 Ho H2 |]; subst.
  apply (lang_lits "://") in H2 as [a2 [b3 [Hs2 [Ha2 H3]]]].
  inversion H3 as [| | | | | | r1 r2 m1 b4 Hm1 H4 |]; subst.
  apply (lang_lits "onlyfans.com") in H4 as [a3 [m2 [Hs3 [Ha3 Hm2]]]]. subst.
  inversion Hm1 as [| | p1 s1 Hp1 | | | | |]; subst.
  inversion Hm2 as [| | p2 s2 Hp2 | | | | |]; subst.
  exists (Str.lower o), m1, m2.
  rewrite !lower_app, Ha1, Ha2, Ha3.
  repeat split; auto.
  inversion Ho as [| | | | r | r s Hs | |]; subst; [left; reflexivity |].
  inversion Hs as [c x Hx | | | | | | |]; subst.
  right. simpl. rewrite (lit_eq_lower _ _ Hx). reflexivity.
Qed.

Lemma url_re_no_group : has_group URL_RE = false.
Proof. reflexivity. Qed.

Lemma url_match_matches_target (u : string) :
  lang true URL_RE u -> matches_target u.
Proof.
  intros H. apply lang_url_re in H as [o [m1 [m2 [E _]]]].
  unfold matches_target. rewrite E.
  rewrite <- !str_app_assoc. rewrite str_app_assoc.
  apply contains_mid.
Qed.

(** ** The pipeline over the stored lists *)

Section Sharper.
Context {W : Type}.
Variable C : collaborators W.
Variable headless : bool.
Variable R : state W -> state W -> Prop.
Context {R_pre : PreOrder R}.
Hypothesis HR : respected_stored R.

Lemma sh_call {A} (o : op W A) st : steps R (call o) st.
Proof. destruct HR. apply steps_call; assumption. Qed.

Lemma sh_page_call {A} (o : page_op W A) st : steps R (page_call o) st.
Proof. destruct HR. apply steps_page_call; assumption. Qed.

Lemma sh_follow_redirects url n st : steps R (_follow_redirects C url n) st.
Proof. destruct HR. apply steps_follow_redirects; assumption. Qed.

Lemma sh_extract_all_links base_url st :
  steps R (_extract_all_links C base_url) st.
Proof. destruct HR. apply steps_extract_all_links; assumption. Qed.

Lemma sh_accept_cookies st : steps R (accept_cookies C) st.
Proof. destruct HR. apply steps_accept_cookies; assumption. Qed.

Ltac sstep :=
  cbv zeta;
  match goal with
  | |- steps _ (bind _ _) _ => apply (steps_bind R); [| intros ? ? ?]
  | |- steps _ (try_except _ _) _ =>
      apply (steps_try_except R); [| intros ? ? ?]
  | |- steps _ (try_finally _ _) _ =>
      apply (steps_try_finally R); [| intros ? ? ?]
  | |- steps _ (async_with _ _ _) _ =>
      apply (steps_async_with R); [| intros ? ? | intros ?]
  | |- steps _ (with_client _ _) _ => unfold with_client
  | |- steps _ (for_each _ _) _ => apply (steps_for_each R); intros ? ? ?
  | |- steps _ (ret _) _ => apply (steps_ret R)
  | |- steps _ (pure_call _) _ => apply (steps_pure_call R)
  | |- steps _ (call _) _ => apply sh_call
  | |- steps _ (page_call _) _ => apply sh_page_call
  | |- steps _ get_redirects _ => unfold steps; simpl; reflexivity
  | |- steps _ (read_url _) _ => unfold steps; simpl; reflexivity
  | |- steps _ new_redirects _ => apply (rs_new_redirects R HR)
  | |- steps _ (add_error _) _ => apply (rs_error R HR)
  | |- steps _ (add_debug _) _ => apply (rs_debug R HR)
  | |- steps _ (set_found _ _) _ => apply (rs_found R HR)
  | |- steps _ (if ?b then _ else _) _ => destruct b eqn:?
  end.

Lemma sh_check_direct_links bio_link st :
  steps R (_check_direct_links C bio_link) st.
Proof.
  unfold _check_direct_links. repeat sstep.
  apply stored_direct. apply nonempty_true; assumption.
Qed.

Lemma sh_href_step selector method note i st :
  (forall u, click_target u = true -> stored [u] method) ->
  steps R (href_step C selector method note i) st.
Proof.
  intros Hm. unfold href_step. repeat sstep.
  apply Hm.
  match goal with
  | Hg : (_ && click_target _)%bool = true |- _ =>
      apply andb_true_iff in Hg as [_ Hct]; exact Hct
  end.
Qed.

Lemma sh_try_interactive_clicks base_url st :
  steps R (_try_interactive_clicks C base_url) st.
Proof.
  unfold _try_interactive_clicks. sstep; [| repeat sstep].
  sstep; [sstep |].
  destruct (select_strategy (Str.lower a)); simpl.
  - unfold _handle_linkme_clicks, linkme_step. repeat sstep.
    apply stored_linkme; assumption.
  - unfold _handle_linktree_clicks. repeat sstep.
    apply sh_href_step. apply stored_linktree.
  - unfold _handle_generic_clicks. repeat sstep.
    apply sh_href_step. apply stored_generic.
  - sstep.
Qed.

Lemma sh_interactive_body bio_link st :
  steps R (interactive_body C bio_link) st.
Proof.
  unfold interactive_body.
  sstep; [sstep |]. sstep; [sstep |]. sstep; [apply sh_accept_cookies |].
  sstep; [apply sh_extract_all_links |].
  match goal with
  | E : _extract_all_links _ _ _ = _ |- _ =>
      apply extract_all_links_nodup in E; rename E into Hnd
  end.
  sstep.
  - repeat sstep. apply stored_extraction; [exact Hnd |].
    apply nonempty_true; assumption.
  - sstep; [apply sh_try_interactive_clicks |].
    sstep; [repeat sstep |].
    sstep; [sstep |].
    match goal with
    | E : get_redirects _ = _ |- _ =>
        unfold get_redirects in E; inversion E; subst; clear E
    end.
    sstep; [| sstep].
    sstep; [apply (rs_found_redirects R HR); apply nonempty_true; assumption |].
    repeat sstep.
Qed.

Lemma sh_check_interactive_page bio_link st :
  steps R (_check_interactive_page C headless bio_link) st.
Proof.
  unfold _check_interactive_page.
  sstep; [| repeat sstep].
  sstep; [sstep | | sstep].
  do 4 (sstep; [sstep |]).
  sstep; [| sstep].
  sstep; [apply sh_interactive_body | repeat sstep].
Qed.

Lemma sh_probe_link bio_link link st :
  steps R (probe_link C bio_link link) st.
Proof.
  unfold probe_link. sstep; [sstep |].
  sstep; [| sstep].
  sstep; [repeat sstep |].
  sstep; [apply sh_follow_redirects |].
  repeat sstep. apply stored_chain; assumption.
Qed.

Lemma sh_check_redirect_chains bio_link st :
  steps R (_check_redirect_chains C bio_link) st.
Proof.
  unfold _check_redirect_chains.
  sstep; [| repeat sstep].
  sstep. sstep; [sstep | | sstep].
  sstep; [sstep |]. sstep; [| sstep].
  sstep. apply sh_probe_link.
Qed.

Lemma sh_strategies bio_link st :
  steps R (strategies C headless bio_link) st.
Proof.
  unfold strategies.
  sstep; [apply sh_check_direct_links |].
  sstep; [sstep |].
  sstep; [apply sh_check_interactive_page |].
  sstep; [sstep |].
  sstep; [apply sh_check_redirect_chains | sstep].
Qed.

End Sharper.

(** [detect_onlyfans] returns [self.results], and every relation respected
    on the stored lists holds between the reset state and the final one. *)
Lemma detect_onlyfans_stored {W} (C : collaborators W) (headless : bool)
  (bio_link : string) (st : state W) :
  exists st',
    detect_onlyfans C headless bio_link st = (Ret (results st'), st')
    /\ forall R, respected_stored R -> R (reset_state st) st'.
Proof.
  unfold detect_onlyfans.
  set (run := try_except _ _).
  assert (Hrun : forall s, exists s', run s = (Ret tt, s')
            /\ forall R, respected_stored R -> R s s').
  { intros s.
    assert (Hs : forall R, respected_stored R -> R s (snd (run s))).
    { intros R HR. pose proof (rs_pre R HR) as Hpre.
      apply (steps_try_except R);
        [apply (sh_strategies C headless R (R_pre := Hpre) HR) |].
      intros; apply (rs_error R HR). }
    unfold run, try_except, add_error in *.
    destruct (strategies C headless bio_link s) as [[[] | e] s1];
      simpl in *; eexists; (split; [reflexivity | exact Hs]). }
  unfold bind at 1. unfold reset_results.
  fold (reset_state st).
  destruct (Hrun (reset_state st)) as [s' [E Hs]].
  exists s'. unfold bind, get_results. rewrite E. split; [reflexivity | exact Hs].
Qed.

(** ** Invariants over the stored lists *)

Lemma is_of_redirect_matches_target (r : response) :
  is_of_redirect r = true -> matches_target (location r).
Proof.
  unfold is_of_redirect, matches_target. intros H.
  apply andb_true_iff in H as [H _]. apply andb_true_iff in H as [_ H].
  exact H.
Qed.

Lemma delivered_on_target evs :
  Forall matches_target (map location (filter is_of_redirect evs)).
Proof.
  apply Forall_forall. intros u Hu. apply in_map_iff in Hu as [r [Hr Hin]].
  apply filter_In in Hin as [_ Hin]. subst u.
  apply is_of_redirect_matches_target; exact Hin.
Qed.

Lemma direct_matches_lang (text : string) :
  Forall (lang true URL_RE) (Re.findall true URL_RE (Str.lower text)).
Proof. apply findall_from_sound. apply url_re_no_group. Qed.

Lemma stored_on_target urls method :
  stored urls method -> Forall matches_target urls.
Proof.
  intros [text _ | l _ _ | u H | u H | u H | u H].
  - apply incl_Forall with (l1 := Re.findall true URL_RE (Str.lower text));
      [apply incl_filter |].
    eapply Forall_impl; [| apply direct_matches_lang].
    apply url_match_matches_target.
  - apply Forall_forall. intros u Hu. apply filter_In in Hu as [_ Hu].
    apply of_link_matches_target; exact Hu.
  - constructor; [apply click_target_matches_target; exact H | constructor].
  - constructor; [apply click_target_matches_target; exact H | constructor].
  - constructor; [apply click_target_matches_target; exact H | constructor].
  - constructor; [apply of_link_matches_target; exact H | constructor].
Qed.

Lemma respected_on_target {W} : respected_stored (keeps (@on_target W)).
Proof.
  split; unfold steps, keeps, on_target; simpl.
  - apply keeps_pre.
  - auto.
  - intros st evs [Hu Hr]. split.
    + destruct (aliased st); simpl; [| exact Hu].
      apply Forall_app. split; [exact Hu | apply delivered_on_target].
    + apply Forall_app. split; [exact Hr | apply delivered_on_target].
  - auto.
  - intros msg st H; exact H.
  - intros msg st H; exact H.
  - intros st [Hu _]. split; [exact Hu | constructor].
  - intros urls method st Hs [_ Hr].
    split; [eapply stored_on_target; eassumption | exact Hr].
  - intros st _ [_ Hr]. split; exact Hr.
Qed.

Lemma all_app (p : ascii -> bool) (a b : string) :
  Str.all p (a ++ b) = Str.all p a && Str.all p b.
Proof.
  induction a as [| x a IH]; simpl; [reflexivity |].
  rewrite IH, andb_assoc. reflexivity.
Qed.

Lemma url_char_lower (c : ascii) :
  url_char c = true -> url_char (Str.lower_char c) = true.
Proof.
  destruct c as [[] [] [] [] [] [] [] []]; vm_compute; intros H;
    first [reflexivity | discriminate].
Qed.

Lemma all_url_char_lower (s : string) :
  Str.all url_char s = true -> Str.all url_char (Str.lower s) = true.
Proof.
  induction s as [| c s IH]; simpl; [reflexivity |].
  intros H. apply andb_true_iff in H as [Hc Hs].
  rewrite (url_char_lower c Hc), (IH Hs). reflexivity.
Qed.

(** A match of the URL pattern in lower-cased text. *)
Lemma direct_match_shape (u : string) :
  lang true URL_RE u -> lower_case u -> direct_url u.
Proof.
  intros Hl Hu. apply lang_url_re in Hl as [o [m1 [m2 [E [Ho [H1 H2]]]]]].
  rewrite Hu in E. unfold direct_url.
  apply all_url_char_lower in H1, H2.
  split; [| split].
  - destruct Ho; subst o; rewrite E; [left | right];
      [apply (startswith_app "http://") | apply (startswith_app "https://")].
  - rewrite E. rewrite <- !str_app_assoc. rewrite str_app_assoc.
    apply contains_mid.
  - rewrite E. rewrite !all_app, H1, H2.
    destruct Ho; subst o; reflexivity.
Qed.

Lemma stored_direct_shape urls :
  stored urls "direct_html_scan" -> Forall direct_url urls.
Proof.
  intros H. inversion H as [text Hne | | | | |]; subst.
  apply incl_Forall with (l1 := Re.findall true URL_RE (Str.lower text));
    [apply incl_filter |].
  apply Forall_forall. intros u Hu. apply direct_match_shape.
  - pose proof (direct_matches_lang text) as Hl.
    rewrite Forall_forall in Hl. apply Hl; exact Hu.
  - pose proof (findall_lower true URL_RE text) as Hl.
    rewrite Forall_forall in Hl. apply Hl; exact Hu.
Qed.

Lemma respected_direct_shape {W} : respected_stored (keeps (@direct_shape W)).
Proof.
  split; unfold steps, keeps, direct_shape; simpl.
  - apply keeps_pre.
  - auto.
  - intros st evs [Ha Hd]. destruct (aliased st) eqn:E; simpl; [| auto].
    split; [auto |]. intros H. destruct (Ha eq_refl H).
  - auto.
  - intros msg st H; exact H.
  - intros msg st H; exact H.
  - intros st [_ Hd]. split; [discriminate | exact Hd].
  - intros urls method st Hs _. split; [discriminate |].
    intros H. inversion H; subst. apply stored_direct_shape; exact Hs.
  - intros st _ _. split; [intros _ H | intros H]; discriminate.
Qed.

Lemma stored_contribution urls method :
  stored urls method ->
  (method = "interactive_link_extraction" -> NoDup urls)
  /\ (single_url_method method -> List.length urls = 1).
Proof.
  intros [text _ | l Hnd _ | u H | u H | u H | u H]; split;
    try discriminate; try reflexivity;
    try (intros [Hm | [Hm | [Hm | Hm]]]; discriminate).
  intros _. apply NoDup_filter; exact Hnd.
Qed.

Lemma respected_contribution {W} :
  respected_stored (keeps (@contribution_shape W)).
Proof.
  split; unfold steps, keeps, contribution_shape; simpl.
  - apply keeps_pre.
  - auto.
  - intros st evs [Ha [Hn Hs]]. destruct (aliased st) eqn:E; simpl; [| auto].
    specialize (Ha eq_refl). split; [auto | split].
    + intros H. rewrite Ha in H. discriminate.
    + intros method H [Hm | [Hm | [Hm | Hm]]]; rewrite Ha in H;
        inversion H; subst; discriminate.
  - auto.
  - intros msg st H; exact H.
  - intros msg st H; exact H.
  - intros st [_ H]. split; [discriminate | exact H].
  - intros urls method st Hst _. split; [discriminate |].
    destruct (stored_contribution urls method Hst) as [H1 H2]. split.
    + intros H. inversion H; subst. apply H1; reflexivity.
    + intros m H Hm. inversion H; subst. apply H2; exact Hm.
  - intros st _ _. split; [reflexivity | split].
    + discriminate.
    + intros method H [Hm | [Hm | [Hm | Hm]]]; inversion H; subst;
        discriminate.
Qed.

(** ** Further properties of the pipeline *)

(** X1: whatever the collaborators do, a call on a new detector returns a
    record none of whose URLs contains [/files]: every strategy, the
    response listener included, applies that test. *)
Theorem X1_files_never_reported {W} (C : collaborators W) (headless : bool)
  (bio_link : string) (w : W) :
  exists r st',
    detect_onlyfans_in_bio_link C headless bio_link w = (Ret r, st')
    /\ Forall no_files (onlyfans_urls r).
Proof.
  unfold detect_onlyfans_in_bio_link.
  destruct (detect_onlyfans_returns C headless bio_link (new_detector w))
    as [st' [E _]].
  exists (results st'), st'. split; [exact E |].
  apply (exclusion_applied C headless bio_link w (results st') st' E).
Qed.

(** X2: a record filled by the direct scan, the link extraction or the
    redirect probe holds no URL that contains [/public]. *)
Theorem X2_public_filtered {W} (C : collaborators W) (headless : bool)
  (bio_link : string) (w : W) (r : Results) (st' : state W)
  (method : string) :
  detect_onlyfans_in_bio_link C headless bio_link w = (Ret r, st') ->
  detection_method r = Some method ->
  filters_public method ->
  Forall no_public (onlyfans_urls r).
Proof.
  intros E Hm Hf.
  apply (proj2 (exclusion_applied C headless bio_link w r st' E) method Hm Hf).
Qed.

Lemma X2_public_filtered_witness :
  Forall no_public
    (onlyfans_urls (record_of two_paths_site "https://bio.example/u"))
  /\ onlyfans_urls (record_of two_paths_site "https://bio.example/u")
     = ["https://onlyfans.com/creatorname"].
Proof.
  split; [| vm_compute; reflexivity].
  refine (X2_public_filtered (Mock.world_of two_paths_site) true
            "https://bio.example/u" [] _ _ "direct_html_scan" _ _ _).
  - unfold record_of, detect_onlyfans_in_bio_link, Mock.init.
    vm_compute; reflexivity.
  - vm_compute; reflexivity.
  - left; reflexivity.
Defined.

(** X3: whatever the collaborators do, every URL in the record returned
    to a new detector contains onlyfans.com, in whatever letter case. *)
Theorem X3_reported_on_target {W} (C : collaborators W) (headless : bool)
  (bio_link : string) (w : W) :
  exists r st',
    detect_onlyfans_in_bio_link C headless bio_link w = (Ret r, st')
    /\ Forall matches_target (onlyfans_urls r).
Proof.
  unfold detect_onlyfans_in_bio_link.
  destruct (detect_onlyfans_stored C headless bio_link (new_detector w))
    as [st' [E HR]].
  exists (results st'), st'. split; [exact E |].
  assert (H : on_target st').
  { apply (HR _ respected_on_target).
    unfold on_target, reset_state, new_detector; simpl.
    split; constructor. }
  exact (proj1 H).
Qed.

(** X4: every URL of a record filled by the direct scan starts with
    http:// or https://, contains onlyfans.com in lower case and holds no
    white space, quote or angle bracket. *)
Theorem X4_direct_url_shape {W} (C : collaborators W) (headless : bool)
  (bio_link : string) (st : state W) (r : Results) (st' : state W) :
  detect_onlyfans C headless bio_link st = (Ret r, st') ->
  detection_method r = Some "direct_html_scan" ->
  Forall direct_url (onlyfans_urls r).
Proof.
  intros E Hm.
  destruct (detect_onlyfans_stored C headless bio_link st) as [st1 [E1 HR]].
  rewrite E1 in E. inversion E; subst.
  assert (H : direct_shape st').
  { apply (HR _ respected_direct_shape).
    unfold direct_shape, reset_state; simpl. split; discriminate. }
  exact (proj2 H Hm).
Qed.

Lemma X4_direct_url_shape_witness :
  Forall direct_url
    (onlyfans_urls (record_of two_paths_site "https://bio.example/u")).
Proof.
  refine (X4_direct_url_shape (Mock.world_of two_paths_site) true
            "https://bio.example/u" Mock.init _ _ _ _).
  - unfold record_of. vm_compute; reflexivity.
  - vm_compute; reflexivity.
Defined.

(** X5: a record filled by the interactive link extraction holds no URL
    twice, and a record filled by a click strategy or by the redirect
    probe holds exactly one URL. *)
Theorem X5_contribution_shape {W} (C : collaborators W) (headless : bool)
  (bio_link : string) (st : state W) (r : Results) (st' : state W) :
  detect_onlyfans C headless bio_link st = (Ret r, st') ->
  (detection_method r = Some "interactive_link_extraction" ->
   NoDup (onlyfans_urls r))
  /\ (forall method,
         detection_method r = Some method -> single_url_method method ->
         List.length (onlyfans_urls r) = 1).
Proof.
  intros E.
  destruct (detect_onlyfans_stored C headless bio_link st) as [st1 [E1 HR]].
  rewrite E1 in E. inversion E; subst.
  assert (H : contribution_shape st').
  { apply (HR _ respected_contribution).
    unfold contribution_shape, reset_state; simpl.
    repeat split; discriminate. }
  exact (proj2 H).
Qed.

Lemma X5_contribution_shape_witness :
  NoDup (onlyfans_urls (record_of stale_anchor_site "https://bio.example/u"))
  /\ List.length
       (onlyfans_urls (record_of public_linktree "https://linktr.ee/u")) = 1.
Proof.
  split.
  - refine (proj1 (X5_contribution_shape (Mock.world_of stale_anchor_site)
                     true "https://bio.example/u" Mock.init _ _ _) _).
    + unfold record_of. vm_compute; reflexivity.
    + vm_compute; reflexivity.
  - refine (proj2 (X5_contribution_shape (Mock.world_of public_linktree)
                     true "https://linktr.ee/u" Mock.init _ _ _)
              "linktree_direct" _ _).
    + unfold record_of. vm_compute; reflexivity.
    + vm_compute; reflexivity.
    + right; left; reflexivity.
Defined.

(** ** Further properties of the link extractor *)

(** X6: whatever the page does, [_extract_all_links] raises nothing and
    returns a list without repetition. *)
Theorem X6_extract_total_nodup {W} (C : collaborators W) (base_url : string)
  (st : state W) :
  exists l st',
    _extract_all_links C base_url st = (Ret l, st') /\ NoDup l.
Proof.
  destruct (extract_all_links_returns C base_url st) as [st' E].
  exists (list_set (links st')), st'. split; [exact E | apply NoDup_nodup].
Qed.

(** X7: when counting the anchors raises, [_extract_all_links] returns the
    empty list and notes the failure in [errors]; the attribute pass and
    the markup scan are not run, the count being the only operation
    performed. *)
Theorem X7_extract_count_raises {W} (C : collaborators W) (base_url : string)
  (st : state W) (e : exn) (evs : list response) (w' : W) :
  loc_count C "a[href]" (world st) = (Raise e, evs, w') ->
  exists st',
    _extract_all_links C base_url st = (Ret [], st')
    /\ world st' = w'
    /\ errors (results st')
       = (errors (results st)
          ++ [("Link extraction failed: " ++ e)%string])%list.
Proof.
  intros H.
  unfold _extract_all_links, anchor_pass, bind, try_except, new_links,
    page_call, get_links, add_error, ret. simpl.
  rewrite H. simpl. eexists. split; [reflexivity |]. split; [reflexivity |].
  destruct (aliased st); reflexivity.
Qed.

Lemma X7_extract_count_raises_witness :
  exists st',
    _extract_all_links closed_page "https://bio.example/u" Mock.init
    = (Ret [], st')
    /\ errors (results st') = ["Link extraction failed: Target closed"].
Proof.
  destruct (X7_extract_count_raises closed_page "https://bio.example/u"
              Mock.init "Target closed" []
              ["count a[href] raised: Target closed"] eq_refl)
    as [st' [E [_ He]]].
  exists st'. split; [exact E | exact He].
Defined.

Lemma data_step_returns {W} (C : collaborators W) (base_url attr : string)
  (i : nat) (st : state W) :
  fst (data_step C base_url attr i st) = Ret false.
Proof.
  unfold data_step, try_except, bind, page_call, pure_call, append_links,
    ret.
  destruct (loc_get_attribute C _ i attr (world st))
    as [[[value | e] evs] w]; simpl; [| reflexivity].
  destruct (truthy_opt value); simpl; [| reflexivity].
  destruct (_ || _); simpl; [| reflexivity].
  destruct (Str.startswith _ "http"); simpl; [reflexivity |].
  destruct (Str.startswith _ "/"); simpl; [| reflexivity].
  destruct (urljoin C base_url _); reflexivity.
Qed.

(** On a page whose element counts succeed, the two element passes end
    normally. *)
Lemma anchor_pass_returns {W} (C : collaborators W) (base_url : string) :
  (forall sel w, exists n, fst (fst (loc_count C sel w)) = Ret n) ->
  forall st, fst (anchor_pass C base_url st) = Ret tt.
Proof.
  intros Hn st. unfold anchor_pass, bind, page_call.
  destruct (Hn "a[href]" (world st)) as [n En].
  destruct (loc_count C "a[href]" (world st)) as [[r evs] w];
    simpl in En; subst r.
  pose proof (for_each_never_leaves (seq 0 (Nat.min n 100))
                (anchor_step C base_url) (anchor_step_returns C base_url)
                (deliver evs (set_world w st))) as Hf.
  destruct (for_each _ _ _) as [r st1]; simpl in Hf; subst r. reflexivity.
Qed.

Lemma data_pass_returns {W} (C : collaborators W) (base_url : string) :
  (forall sel w, exists n, fst (fst (loc_count C sel w)) = Ret n) ->
  forall st, fst (data_pass C base_url st) = Ret tt.
Proof.
  intros Hn st. unfold data_pass. unfold bind at 1.
  assert (Hb : forall attr st0,
             fst ((count <- page_call (loc_count C ("[" ++ attr ++ "]"));;
                   for_each (seq 0 (Nat.min count 50))
                     (data_step C base_url attr)) st0) = Ret false).
  { intros attr st0. unfold bind, page_call.
    destruct (Hn ("[" ++ attr ++ "]")%string (world st0)) as [n En].
    destruct (loc_count C _ (world st0)) as [[r evs] w];
      simpl in En; subst r.
    apply for_each_never_leaves. apply data_step_returns. }
  pose proof (for_each_never_leaves data_attrs _ Hb st) as Hf.
  destruct (for_each data_attrs _ st) as [r st1]; simpl in Hf; subst r.
  reflexivity.
Qed.

(** X8: on a page whose element counts succeed and whose markup can be
    read, every match of the URL pattern in the markup is in the list
    [_extract_all_links] returns, whatever the anchors and the data
    attributes hold. *)
Theorem X8_markup_links_returned {W} (C : collaborators W)
  (base_url text : string) (st : state W) (u : string) :
  (forall sel w, exists n, fst (fst (loc_count C sel w)) = Ret n) ->
  (forall w, fst (fst (page_content C w)) = Ret text) ->
  In u (Re.findall true URL_RE text) ->
  exists l st', _extract_all_links C base_url st = (Ret l, st') /\ In u l.
Proof.
  intros Hn Ht Hu.
  unfold _extract_all_links.
  rewrite (bind_run new_links _ st tt _ eq_refl).
  set (st0 := mkState _ _ _ [] _).
  set (body := try_except _ _).
  assert (Hb : exists st3, body st0 = (Ret tt, st3) /\ has_link u st3).
  { unfold body, try_except.
    pose proof (anchor_pass_returns C base_url Hn st0) as Ea.
    destruct (anchor_pass C base_url st0) as [ra st1] eqn:E1;
      simpl in Ea; subst ra.
    rewrite (bind_run _ _ _ _ _ E1).
    pose proof (data_pass_returns C base_url Hn st1) as Ed.
    destruct (data_pass C base_url st1) as [rd st2] eqn:E2;
      simpl in Ed; subst rd.
    rewrite (bind_run _ _ _ _ _ E2).
    unfold content_pass, try_except, bind, page_call, append_links.
    specialize (Ht (world st2)).
    destruct (page_content C (world st2)) as [[r evs] w];
      simpl in Ht; subst r. simpl.
    eexists. split; [reflexivity |].
    unfold has_link; simpl. apply in_or_app. right. exact Hu. }
  destruct Hb as [st3 [Eb Hl]].
  rewrite (bind_run body _ st0 tt st3 Eb).
  exists (list_set (links st3)), st3. split; [reflexivity |].
  apply nodup_In. exact Hl.
Qed.

Lemma X8_markup_links_returned_witness :
  exists l st',
    _extract_all_links (Mock.world_of markup_only_site)
      "https://bio.example/u" Mock.init = (Ret l, st')
    /\ In "https://OnlyFans.com/CreatorName" l.
Proof.
  apply (X8_markup_links_returned (Mock.world_of markup_only_site)
           "https://bio.example/u"
           "<script>go('https://OnlyFans.com/CreatorName')</script>"
           Mock.init "https://OnlyFans.com/CreatorName").
  - intros sel w. exists 0. reflexivity.
  - intros w. reflexivity.
  - vm_compute. left; reflexivity.
Defined.

(** ** Further properties of the redirect follower and of the strategies *)

Lemma follow_step_stops {W} (C : collaborators W) (url : string)
  (st : state W) :
  match fst (client_head C url 10 (world st)) with
  | Raise _ => True
  | Ret (code, loc) => is_redirect_status code = false \/ truthy_opt loc = false
  end ->
  follow_step C url st
  = (Ret None, set_world (snd (client_head C url 10 (world st))) st).
Proof.
  intros H.
  unfold follow_step, try_except, bind, call, pure_call, ret.
  destruct (client_head C url 10 (world st)) as [[[code loc] | e] w];
    simpl in *; [| reflexivity].
  destruct H as [H | H]; rewrite H; [reflexivity |].
  destruct (is_redirect_status code); reflexivity.
Qed.

(** X9: when the first HEAD request raises, or answers with a status that
    is no redirection, or with no Location or an empty one,
    [_follow_redirects] returns the origin URL with the one-entry chain
    after that single request. *)
Theorem X9_follow_stops {W} (C : collaborators W) (url : string) (n : nat)
  (st : state W) :
  match fst (client_head C url 10 (world st)) with
  | Raise _ => True
  | Ret (code, loc) => is_redirect_status code = false \/ truthy_opt loc = false
  end ->
  _follow_redirects C url (S n) st
  = (Ret (url, [url]), set_world (snd (client_head C url 10 (world st))) st).
Proof.
  intros H. unfold _follow_redirects; simpl.
  rewrite (bind_run _ _ _ _ _ (follow_step_stops C url st H)). reflexivity.
Qed.

Lemma X9_follow_stops_witness :
  _follow_redirects (Mock.world_of scenario5) "https://a.com/x" 5 Mock.init
  = (Ret ("https://a.com/x", ["https://a.com/x"]),
     set_world ["HEAD https://a.com/x raised: timed out"] Mock.init).
Proof.
  apply (X9_follow_stops (Mock.world_of scenario5) "https://a.com/x" 4
           Mock.init).
  exact I.
Defined.

(** X10: once the page exists, [browser.close()] is the last operation
    [_check_interactive_page] performs before it leaves the playwright
    context, on every path: success, failure and exception. *)
Theorem X10_browser_closed {W} (C : collaborators W) (headless : bool)
  (bio_link : string) (st : state W) (wa wb wc wd : W) :
  playwright_enter C (world st) = (Ret tt, wa) ->
  launch C headless wa = (Ret tt, wb) ->
  new_context C wb = (Ret tt, wc) ->
  new_page C wc = (Ret tt, wd) ->
  exists st1 r evs w1,
    browser_close C (world st1) = (r, evs, w1)
    /\ world (snd (_check_interactive_page C headless bio_link st))
       = snd (playwright_exit C w1).
Proof.
  intros Ha Hb Hc Hd.
  unfold _check_interactive_page, async_with.
  unfold try_except at 1. unfold bind at 1. unfold call at 1.
  rewrite Ha. simpl.
  unfold try_finally at 1. unfold bind at 1. unfold call at 1. simpl.
  rewrite Hb. simpl.
  unfold bind at 1. unfold call at 1. simpl. rewrite Hc. simpl.
  unfold bind at 1. unfold call at 1. simpl. rewrite Hd. simpl.
  unfold bind at 1. unfold new_redirects at 1. simpl.
  unfold try_finally at 1.
  match goal with
  | |- context [try_except (interactive_body C bio_link) ?h ?s] =>
      destruct (try_except (interactive_body C bio_link) h s) as [rb stb]
  end.
  unfold page_call at 1.
  destruct (browser_close C (world stb)) as [[r evs] w1] eqn:Ec.
  exists stb, r, evs, w1. split; [exact Ec |].
  unfold call, add_error, ret, bind.
  destruct r as [[] | e]; simpl;
    destruct (playwright_exit C w1) as [[[] | e'] w2]; simpl;
    try destruct rb; reflexivity.
Qed.

Lemma X10_browser_closed_witness :
  exists st1 r evs w1,
    browser_close (Mock.world_of scenario5) (world st1) = (r, evs, w1)
    /\ world (snd (_check_interactive_page (Mock.world_of scenario5) true
                     "https://bio.example/u" Mock.init))
       = snd (playwright_exit (Mock.world_of scenario5) w1).
Proof.
  apply (X10_browser_closed (Mock.world_of scenario5) true
           "https://bio.example/u" Mock.init
           ["playwright"] ["playwright"; "launch"]
           ["playwright"; "launch"; "new_context"]
           ["playwright"; "launch"; "new_context"; "new_page"]);
    reflexivity.
Defined.

(** X11: when [new_context()] raises after the browser was launched,
    [_check_interactive_page] does not call [browser.close()]: it leaves
    the playwright context, notes the failure and returns [False]. *)
Theorem X11_setup_failure {W} (C : collaborators W) (headless : bool)
  (bio_link : string) (st : state W) (e : exn) (wa wb wc wx : W) :
  playwright_enter C (world st) = (Ret tt, wa) ->
  launch C headless wa = (Ret tt, wb) ->
  new_context C wb = (Raise e, wc) ->
  playwright_exit C wc = (Ret tt, wx) ->
  _check_interactive_page C headless bio_link st
  = (Ret false,
     snd (add_error ("Playwright setup failed: " ++ e) (set_world wx st))).
Proof.
  intros Ha Hb Hc Hx.
  unfold _check_interactive_page, async_with, try_except, try_finally,
    bind, call.
  rewrite Ha. simpl. rewrite Hb. simpl. rewrite Hc. simpl. rewrite Hx.
  reflexivity.
Qed.

Lemma X11_setup_failure_witness :
  _check_interactive_page no_context true "https://bio.example/u" Mock.init
  = (Ret false,
     mkState
       (mkResults false [] None ["Playwright setup failed: Browser closed"] [])
       [] false []
       ["playwright"; "launch"; "new_context raised: Browser closed";
        "playwright.stop"]).
Proof.
  apply (X11_setup_failure no_context true "https://bio.example/u" Mock.init
           "Browser closed" ["playwright"] ["playwright"; "launch"]
           ["playwright"; "launch"; "new_context raised: Browser closed"]
           ["playwright"; "launch"; "new_context raised: Browser closed";
            "playwright.stop"]);
    reflexivity.
Defined.

(** X12: with a client that opens and closes normally and a GET that
    answers, the direct scan returns [True] exactly when the status is
    200 and some match of the lower-cased text survives the exclusion
    filter, and it then stores the surviving matches in their order;
    otherwise it returns [False] and leaves [self.results] untouched: a
    status other than 200 is not noted in [errors]. *)
Theorem X12_direct_scan {W} (C : collaborators W) (bio_link : string)
  (st : state W) (code : Z) (text : string) (w1 w2 w3 : W) :
  client_enter C (world st) = (Ret tt, w1) ->
  client_get C bio_link 15 w1 = (Ret (code, text), w2) ->
  client_exit C w2 = (Ret tt, w3) ->
  let valid := filter not_excluded (Re.findall true URL_RE (Str.lower text)) in
  let found := (code =? 200)%Z && nonempty valid in
  exists st',
    _check_direct_links C bio_link st = (Ret found, st')
    /\ world st' = w3
    /\ (found = false -> results st' = results st)
    /\ (found = true ->
        has_onlyfans (results st') = true
        /\ onlyfans_urls (results st') = valid
        /\ detection_method (results st') = Some "direct_html_scan"
        /\ errors (results st') = errors (results st)).
Proof.
  intros H1 H2 H3 valid found. subst found valid.
  unfold _check_direct_links, with_client, async_with, try_except,
    try_finally, bind, call.
  rewrite H1. simpl. rewrite H2. simpl. fold not_excluded.
  set (all := Re.findall true URL_RE (Str.lower text)).
  assert (Hv : nonempty (filter not_excluded all) = true ->
               nonempty all = true).
  { destruct all; [intros H; discriminate | reflexivity]. }
  destruct (code =? 200)%Z; simpl.
  - destruct (nonempty (filter not_excluded all)) eqn:En.
    + rewrite (Hv eq_refl). simpl. rewrite H3. simpl.
      eexists. split; [reflexivity |].
      repeat split; try discriminate; reflexivity.
    + destruct (nonempty all); simpl; rewrite H3; simpl;
        eexists; (split; [reflexivity |]);
        repeat split; try discriminate; reflexivity.
  - rewrite H3. simpl.
    eexists. split; [reflexivity |].
    repeat split; try discriminate; reflexivity.
Qed.

Lemma X12_direct_scan_witness :
  exists st',
    _check_direct_links (Mock.world_of two_paths_site) "https://bio.example/u"
      Mock.init = (Ret true, st')
    /\ onlyfans_urls (results st') = ["https://onlyfans.com/creatorname"].
Proof.
  destruct (X12_direct_scan (Mock.world_of two_paths_site)
              "https://bio.example/u" Mock.init 200%Z
              "https://onlyfans.com/public/x and https://onlyfans.com/creatorname"
              ["client"] ["client"; "GET https://bio.example/u"]
              ["client"; "GET https://bio.example/u"; "client.close"]
              eq_refl eq_refl eq_refl)
    as [st' [E [_ [_ Ht]]]].
  exists st'. split; [exact E |].
  exact (proj1 (proj2 (Ht eq_refl))).
Defined.

(** ** The batch endpoint *)

Lemma run_batch_links {W} (detect : json -> json -> W -> outcome Results * W)
  (headless : json) (items : list json) :
  forall w, map entry_link (fst (run_batch detect headless items w)) = items.
Proof.
  induction items as [| b items IH]; intros w; simpl; [reflexivity |].
  destruct (detect b headless w) as [r w1].
  specialize (IH w1). destruct (run_batch detect headless items w1) as [es w2].
  simpl in *. rewrite IH. destruct r; reflexivity.
Qed.

Lemma obj_get_nonempty (key : string) (members : list (string * json))
  (v : json) :
  obj_get key members = Some v -> nonempty members = true.
Proof. destruct members; [discriminate | reflexivity]. Qed.

(** X13: the batch endpoint runs detections only for a request it answers
    with 200, and it answers with 200 only when the body is an object
    whose [bio_links] is a list of one to ten links: every other request
    is answered without a single detection. *)
Theorem X13_batch_gate {W} (detect : json -> json -> W -> outcome Results * W)
  (not_iterable bad_index : json -> exn) (request_json : outcome json)
  (w : W) :
  let run := batch_detect detect not_iterable bad_index request_json w in
  (reply_status (fst run) <> 200%Z -> snd run = w)
  /\ (reply_status (fst run) = 200%Z ->
      exists members items,
        request_json = Ret (JObj members)
        /\ obj_get "bio_links" members = Some (JArr items)
        /\ 1 <= List.length items <= 10).
Proof.
  unfold batch_detect, reply_status.
  destruct request_json as [data | e]; simpl;
    [| split; [reflexivity | discriminate]].
  destruct (json_truthy data) eqn:Ht; simpl;
    [| split; [reflexivity | discriminate]].
  destruct data as [| b | n | s | items | members]; simpl;
    try (split; [reflexivity | discriminate]).
  - destruct (Str.contains "bio_links" s); simpl;
      split; try reflexivity; discriminate.
  - destruct (existsb (is_str "bio_links") items); simpl;
      split; try reflexivity; discriminate.
  - destruct (obj_get "bio_links" members) as [v |] eqn:Ev; simpl;
      [| split; [reflexivity | discriminate]].
    destruct v as [| b | n | s | items | ms]; simpl;
      try (split; [reflexivity | discriminate]).
    destruct (List.length items =? 0) eqn:E0; simpl;
      [split; [reflexivity | discriminate] |].
    destruct (10 <? List.length items) eqn:E10; simpl;
      [split; [reflexivity | discriminate] |].
    destruct (run_batch detect _ items w) as [results w']; simpl.
    split; [intros H; destruct H; reflexivity |].
    intros _. exists members, items. repeat split; auto.
    + apply Nat.eqb_neq in E0. lia.
    + apply Nat.ltb_ge in E10. exact E10.
Qed.

(** X14: for a batch of one to ten links the endpoint answers 200 with
    one entry per link, in the order of the request and each with its
    link, whether the detections return or raise; [total_processed] is
    the number of links, and [successful] counts the entries of the
    detections that returned. *)
Theorem X14_batch_entries {W}
  (detect : json -> json -> W -> outcome Results * W)
  (not_iterable bad_index : json -> exn)
  (members : list (string * json)) (items : list json) (w : W) :
  obj_get "bio_links" members = Some (JArr items) ->
  1 <= List.length items <= 10 ->
  exists results successful w',
    batch_detect detect not_iterable bad_index (Ret (JObj members)) w
    = ((BatchBody results (List.length items) successful, 200%Z), w')
    /\ map entry_link results = items
    /\ successful = List.length (filter is_detected results)
    /\ successful <= List.length items.
Proof.
  intros Hg [Hlo Hhi].
  unfold batch_detect. simpl.
  rewrite (obj_get_nonempty _ _ _ Hg). simpl. rewrite Hg. simpl.
  assert (E0 : (List.length items =? 0) = false) by (apply Nat.eqb_neq; lia).
  assert (E10 : (10 <? List.length items) = false)
    by (apply Nat.ltb_ge; exact Hhi).
  rewrite E0, E10.
  pose proof (run_batch_links detect
                match obj_get "headless" members with
                | Some v => v
                | None => JBool true
                end items w) as Hl.
  destruct (run_batch detect _ items w) as [results w']; simpl in Hl.
  assert (Hn : List.length results = List.length items).
  { rewrite <- (length_map entry_link results), Hl. reflexivity. }
  exists results, (List.length (filter is_detected results)), w'.
  rewrite Hn. repeat split; auto.
  rewrite <- Hn. apply filter_length_le.
Qed.

Lemma X13_batch_gate_witness :
  snd (batch_detect demo_detect demo_type_error demo_type_error
         (Ret (JObj [("bio_links", JArr oversize_batch)])) 0) = 0.
Proof.
  apply (proj1 (X13_batch_gate demo_detect demo_type_error demo_type_error
                  (Ret (JObj [("bio_links", JArr oversize_batch)])) 0)).
  vm_compute. discriminate.
Defined.

Lemma X14_batch_entries_witness :
  exists results successful w',
    batch_detect demo_detect demo_type_error demo_type_error
      (Ret (JObj [("bio_links", JArr mixed_batch)])) 0
    = ((BatchBody results 2 successful, 200%Z), w')
    /\ map entry_link results = mixed_batch
    /\ successful = List.length (filter is_detected results)
    /\ successful <= 2.
Proof.
  apply (X14_batch_entries demo_detect demo_type_error demo_type_error
           [("bio_links", JArr mixed_batch)] mixed_batch 0 eq_refl).
  simpl; lia.
Defined.

Example mixed_batch_reply :
  batch_detect demo_detect demo_type_error demo_type_error
    (Ret (JObj [("bio_links", JArr mixed_batch)])) 0
  = ((BatchBody
        [Detected fresh_results (JStr "https://linktr.ee/a");
         Failed (JNum 5) "bio_link must be a str"] 2 1, 200%Z), 2).
Proof. vm_compute; reflexivity. Qed.

(** ** The strategies never raise *)

Lemma direct_returns {W} (C : collaborators W) (bio_link : string)
  (st : state W) :
  exists b st', _check_direct_links C bio_link st = (Ret b, st').
Proof.
  unfold _check_direct_links. apply try_except_returns.
  intros e st0. apply note_and_fail.
Qed.

Lemma interactive_returns {W} (C : collaborators W) (headless : bool)
  (bio_link : string) (st : state W) :
  exists b st', _check_interactive_page C headless bio_link st = (Ret b, st').
Proof.
  unfold _check_interactive_page. apply try_except_returns.
  intros e st0. apply note_and_fail.
Qed.

Lemma redirect_chains_returns {W} (C : collaborators W) (bio_link : string)
  (st : state W) :
  exists b st', _check_redirect_chains C bio_link st = (Ret b, st').
Proof.
  unfold _check_redirect_chains. apply try_except_returns.
  intros e st0. apply note_and_fail.
Qed.

Lemma strategies_return {W} (C : collaborators W) (headless : bool)
  (bio_link : string) (st : state W) :
  exists st', strategies C headless bio_link st = (Ret tt, st').
Proof.
  unfold strategies.
  destruct (direct_returns C bio_link st) as [d [st1 E1]].
  rewrite (bind_run _ _ _ _ _ E1).
  destruct d; [eexists; reflexivity |].
  destruct (interactive_returns C headless bio_link st1) as [i [st2 E2]].
  rewrite (bind_run _ _ _ _ _ E2).
  destruct i; [eexists; reflexivity |].
  destruct (redirect_chains_returns C bio_link st2) as [r [st3 E3]].
  rewrite (bind_run _ _ _ _ _ E3).
  eexists; reflexivity.
Qed.

(** X15: each strategy returns its verdict whatever the collaborators do,
    so the handler of [detect_onlyfans] is never entered: the call is the
    reset of the record followed by the strategies, and no note of a
    failed detection is ever written by that handler. *)
Theorem X15_outer_handler_unused {W} (C : collaborators W) (headless : bool)
  (bio_link : string) (st : state W) :
  detect_onlyfans C headless bio_link st
  = (reset_results ;;; strategies C headless bio_link ;;; get_results) st.
Proof.
  unfold detect_onlyfans.
  rewrite !(bind_run reset_results _ st tt _ eq_refl).
  set (st0 := mkState _ _ _ _ _).
  destruct (strategies_return C headless bio_link st0) as [st1 E].
  unfold bind, try_except. rewrite E. reflexivity.
Qed.

(** ** The requests of the redirect probe *)

Lemma head_requests_trans {W} (C : collaborators W) (k1 k2 : nat)
  (w w1 w2 : W) :
  head_requests C k1 w w1 -> head_requests C k2 w1 w2 ->
  head_requests C (k1 + k2) w w2.
Proof.
  intros H1 H2. induction H1 as [w | k url w w' w'' E H IH]; simpl.
  - exact H2.
  - econstructor; [exact E | apply IH; exact H2].
Qed.

Lemma head_requests_requests {W} (C : collaborators W) (k : nat) (w w' : W) :
  head_requests C k w w' -> requests C 0 k w w'.
Proof.
  intros H. induction H as [w | k url w w' w'' E H IH].
  - constructor.
  - subst w'. apply (requests_head C 0 k url). exact IH.
Qed.

Lemma follow_redirects_requests {W} (C : collaborators W) (url : string)
  (n : nat) (st : state W) :
  exists current chain st' k,
    _follow_redirects C url n st = (Ret (current, chain), st')
    /\ k <= n
    /\ head_requests C k (world st) (world st').
Proof.
  unfold _follow_redirects.
  destruct (follow_loop_returns C n url [url] st eq_refl)
    as [current [ext [st' [k [E [_ [_ [Hk [Hh _]]]]]]]]].
  exists current, ([url] ++ ext)%list, st', k. auto.
Qed.

Lemma probe_link_requests {W} (C : collaborators W) (bio_link link : string)
  (st : state W) :
  exists k,
    k <= default_max_redirects
    /\ head_requests C k (world st) (world (snd (probe_link C bio_link link st))).
Proof.
  unfold probe_link.
  destruct (negb (Str.truthy link) || Str.startswith link "#"
            || Str.startswith link "mailto:");
    [exists 0; split; [lia | constructor] |].
  unfold try_except.
  assert (Hf : forall u,
             exists k,
               k <= default_max_redirects
               /\ head_requests C k (world st)
                    (world (snd
                       (let (o, st') :=
                          (r <- _follow_redirects C u default_max_redirects;;
                           (if of_link (fst r)
                            then
                              set_found [fst r] "redirect_chain";;;
                              add_debug
                                ("Found OnlyFans via redirect: " ++ u ++ " "
                                 ++ arrow ++ " " ++ fst r);;;
                              ret true
                            else ret false)) st in
                        match o with
                        | Ret a => (Ret a, st')
                        | Raise _ => ret false st'
                        end)))).
  { intros u.
    destruct (follow_redirects_requests C u default_max_redirects st)
      as [cur [chain [st1 [k [E [Hk Hh]]]]]].
    exists k. split; [exact Hk |].
    rewrite (bind_run _ _ _ _ _ E). simpl.
    destruct (of_link cur); simpl; exact Hh. }
  destruct (Str.startswith link "/").
  - unfold bind at 1. unfold pure_call at 1.
    destruct (urljoin C bio_link link) as [u | e].
    + apply Hf.
    + exists 0. split; [lia | constructor].
  - rewrite (bind_run (ret link) _ st link st eq_refl). apply Hf.
Qed.

Lemma probe_loop_requests {W} (C : collaborators W) (bio_link : string)
  (l : list string) :
  forall st, exists k,
    k <= default_max_redirects * List.length l
    /\ head_requests C k (world st)
         (world (snd (for_each l (probe_link C bio_link) st))).
Proof.
  induction l as [| link l IH]; intros st;
    cbn [for_each List.length]; unfold default_max_redirects in *.
  - exists 0. split; [lia | constructor].
  - destruct (probe_link_requests C bio_link link st) as [k1 [Hk1 H1]].
    unfold bind.
    unfold default_max_redirects in Hk1.
    destruct (probe_link C bio_link link st) as [[[] | e] st1];
      cbn [snd fst] in *.
    + exists k1. split; [lia | exact H1].
    + destruct (IH st1) as [k2 [Hk2 H2]].
      exists (k1 + k2). split; [lia |].
      apply (head_requests_trans C k1 k2 _ _ _ H1 H2).
    + exists k1. split; [lia | exact H1].
Qed.

Lemma requests_trans {W} (C : collaborators W) (g1 h1 g2 h2 : nat)
  (w w1 w2 : W) :
  requests C g1 h1 w w1 -> requests C g2 h2 w1 w2 ->
  requests C (g1 + g2) (h1 + h2) w w2.
Proof.
  intros H1 H2. induction H1; simpl.
  - exact H2.
  - apply requests_enter. apply IHrequests. exact H2.
  - apply requests_exit. apply IHrequests. exact H2.
  - apply (requests_get C _ _ url). apply IHrequests. exact H2.
  - apply (requests_head C _ _ url). apply IHrequests. exact H2.
Qed.

(** A body that touches the HTTP client only, with at most [g] GET and
    [h] HEAD requests, does so inside [async with] as well. *)
Lemma with_client_requests {W A} (C : collaborators W) (g h : nat)
  (body : M W A) :
  (forall st, exists g' h',
      g' <= g /\ h' <= h
      /\ requests C g' h' (world st) (world (snd (body st)))) ->
  forall st, exists g' h',
    g' <= g /\ h' <= h
    /\ requests C g' h' (world st) (world (snd (with_client C body st))).
Proof.
  intros Hb st.
  unfold with_client, async_with, try_finally, bind, call.
  destruct (client_enter C (world st)) as [[[] | e0] w1] eqn:Ee;
    cbn [fst snd world set_world].
  - destruct (Hb (set_world w1 st)) as [g' [h' [Hg [Hh Hr]]]].
    cbn [world set_world] in Hr.
    destruct (body (set_world w1 st)) as [r st2]; cbn [snd] in Hr.
    assert (Hx : requests C 0 0 (world st2) (snd (client_exit C (world st2))))
      by (apply requests_exit; constructor).
    pose proof (requests_trans C _ _ _ _ _ _ _ Hr Hx) as Ht.
    rewrite !Nat.add_0_r in Ht.
    exists g', h'. split; [exact Hg |]. split; [exact Hh |].
    apply requests_enter. rewrite Ee. cbn [snd].
    destruct (client_exit C (world st2)) as [[[] | e3] w4];
      cbn [fst snd world set_world] in *; exact Ht.
  - exists 0, 0. split; [lia |]. split; [lia |].
    apply requests_enter. rewrite Ee. constructor.
Qed.

Lemma noted_requests {W} (C : collaborators W) (g h : nat) (msg : string)
  (body : M W bool) :
  (forall st, exists g' h',
      g' <= g /\ h' <= h
      /\ requests C g' h' (world st) (world (snd (body st)))) ->
  forall st, exists g' h',
    g' <= g /\ h' <= h
    /\ requests C g' h' (world st)
         (world (snd (try_except body
                        (fun e => add_error (msg ++ e) ;;; ret false) st))).
Proof.
  intros Hb st. destruct (Hb st) as [g' [h' [Hg [Hh Hr]]]].
  exists g', h'. split; [exact Hg |]. split; [exact Hh |].
  unfold try_except.
  destruct (body st) as [[b | e] st1]; cbn [snd] in *; exact Hr.
Qed.

(** X16: the redirect probe touches nothing but the HTTP client, and it
    issues at most one GET and at most 100 HEAD requests (20 candidate
    links, 5 hops each), whatever the page holds and whatever the client
    answers. *)
Theorem X16_probe_requests {W} (C : collaborators W) (bio_link : string)
  (st : state W) :
  exists g h,
    g <= 1 /\ h <= 100
    /\ requests C g h (world st)
         (world (snd (_check_redirect_chains C bio_link st))).
Proof.
  unfold _check_redirect_chains.
  apply noted_requests. apply with_client_requests. clear st. intros st.
  unfold bind at 1. unfold call at 1.
  destruct (client_get C bio_link 15 (world st)) as [[[code text] | e1] w2]
    eqn:Eg; cbn [fst snd].
  - destruct (code =? 200)%Z.
    + match goal with
      | |- context [for_each ?x (probe_link C bio_link)] => set (l := x)
      end.
      destruct (probe_loop_requests C bio_link l (set_world w2 st))
        as [k [Hk Hh]].
      assert (Hl : List.length l <= 20) by apply firstn_le_length.
      unfold default_max_redirects in Hk.
      exists 1, k. split; [lia |]. split; [lia |].
      apply (requests_get C 0 k bio_link). rewrite Eg. cbn [snd].
      apply head_requests_requests. exact Hh.
    + exists 1, 0. split; [lia |]. split; [lia |].
      apply (requests_get C 0 0 bio_link). rewrite Eg. constructor.
  - exists 1, 0. split; [lia |]. split; [lia |].
    apply (requests_get C 0 0 bio_link). rewrite Eg. constructor.
Qed.
